(** * HLS streaming servers: a shallow embedding of the resolver, the manifest
      builder and the segment synthesizer, with the properties of their
      specification.

    The repository holds five near-duplicate Express servers:
    - [Index]      src/index.js: multi-quality, [getVideoFormats] with a
                   [forceRefresh] flag and [runFFmpeg] with URL refresh;
    - [Multi]      src/unnamed/part_002: multi-quality, [getVideoFormats]
                   refreshing as soon as one cached URL is expired;
    - [Single]     src/unnamed/part_001: single quality, [getVideoUrl] with
                   identifier and segment-number validation;
    - [Legacy]     src/unnamed/part_000 (second file): single quality,
                   [getVideoUrl] without validation, 30-minute margin;
    - [Batch]      src/unnamed/part_000 (first file): the pre-conversion
                   server, with the retrying [fetchYouTubeData], POST
                   /api/process and GET /api/info; [convertToHLS] and the
                   routes that read the file system are taken as given.

    JavaScript strings are modelled by [string], one [ascii] per code unit
    (code units above 255 are not represented). Numbers are doubles: an
    integral one is held in [Z], rounded to 53 significant bits where the
    code reads or prints it, with [2 ^ 1024] standing for an infinity; a
    duration is held in [Q] as the exact value of the double that the JSON
    numeral was read as; [None] stands for NaN or a missing field. The
    node-cache store is a [gmap] from keys to a value and its expiry
    timestamp. Express routing is outside the model: a handler is a
    function of the parameters it reads from [req.params]. *)

From Stdlib Require Import ZArith QArith Qround Qminmax Qabs Lia Lqa String Ascii List Bool
  DecimalString.
From stdpp Require Import base strings gmap list.

Local Open Scope string_scope.
Local Open Scope list_scope.
Local Open Scope Z_scope.

(** ** JavaScript primitives used by the servers *)

Module JS.

(** [\d]: an ASCII decimal digit. *)
Definition isDigit (c : ascii) : bool :=
  let n := nat_of_ascii c in (48 <=? n)%nat && (n <=? 57)%nat.

Definition isLower (c : ascii) : bool :=
  let n := nat_of_ascii c in (97 <=? n)%nat && (n <=? 122)%nat.

Definition isUpper (c : ascii) : bool :=
  let n := nat_of_ascii c in (65 <=? n)%nat && (n <=? 90)%nat.

(** The character class [[a-zA-Z0-9_-]]. *)
Definition isIdChar (c : ascii) : bool :=
  isLower c || isUpper c || isDigit c || Ascii.eqb c "_" || Ascii.eqb c "-".

Fixpoint allChars (p : ascii -> bool) (s : string) : bool :=
  match s with
  | EmptyString => true
  | String c s' => p c && allChars p s'
  end.

(** [s.startsWith(p)], returning the rest of [s] after [p]. *)
Fixpoint stripPrefix (p s : string) : option string :=
  match p, s with
  | EmptyString, _ => Some s
  | String a p', String b s' => if Ascii.eqb a b then stripPrefix p' s' else None
  | String _ _, EmptyString => None
  end.

(** [s.includes(q)]: [q] occurs in [s] as a contiguous substring. *)
Fixpoint includes (s q : string) : bool :=
  match stripPrefix q s with
  | Some _ => true
  | None => match s with
            | EmptyString => false
            | String _ s' => includes s' q
            end
  end.

(** The longest prefix of [s] made of digits: what a greedy [\d+] consumes. *)
Fixpoint takeDigits (s : string) : string :=
  match s with
  | String c s' => if isDigit c then String c (takeDigits s') else EmptyString
  | EmptyString => EmptyString
  end.

Definition digitVal (c : ascii) : Z := Z.of_nat (nat_of_ascii c) - 48.

(** Value in base ten of a string of digits, most significant first. *)
Fixpoint decimal (acc : Z) (s : string) : Z :=
  match s with
  | EmptyString => acc
  | String c s' => decimal (10 * acc + digitVal c) s'
  end.

(** White space skipped by [parseInt]: tab, line feed, vertical tab, form
    feed, carriage return, space and no-break space. The other white space
    of the language lies above code unit 255 and has no [ascii]. *)
Definition isSpace (c : ascii) : bool :=
  let n := nat_of_ascii c in
  ((9 <=? n)%nat && (n <=? 13)%nat) || (n =? 32)%nat || (n =? 160)%nat.

Fixpoint skipSpaces (s : string) : string :=
  match s with
  | String c s' => if isSpace c then skipSpaces s' else s
  | EmptyString => EmptyString
  end.

(** *** Numbers

    A JavaScript number is a double. The numbers the servers compute with
    are integers, NaN and the infinities: they are held in [option Z], with
    [None] for NaN, an integer for the double of that value, and a
    magnitude of [2 ^ 1024] or more for an infinity. *)

Definition infinity : Z := 2 ^ 1024.

(** [n / d] rounded to the nearest integer, to the even one at a tie. *)
Definition roundDiv (n d : Z) : Z :=
  let q := n / d in
  let r := n mod d in
  if 2 * r <? d then q
  else if d <? 2 * r then q + 1
  else if Z.even q then q else q + 1.

(** The double nearest to an integer: 53 significant bits, ties to even,
    an infinity from [2 ^ 1024 - 2 ^ 970] on. *)
Definition toDouble (z : Z) : Z :=
  let a := Z.abs z in
  if a <? 2 ^ 53 then z
  else
    let ulp := 2 ^ (Z.log2 a - 52) in
    let r := roundDiv a ulp * ulp in
    Z.sgn z * (if infinity <=? r then infinity else r).

(** [parseInt(s, 10)]: leading white space, an optional sign, then the
    longest run of digits, read as the double nearest to their value;
    [None] is NaN. *)
Definition parseInt (s : string) : option Z :=
  let s1 := skipSpaces s in
  let '(neg, s2) :=
    match s1 with
    | String "-" r => (true, r)
    | String "+" r => (false, r)
    | _ => (false, s1)
    end in
  match takeDigits s2 with
  | EmptyString => None
  | ds => Some (toDouble (if neg : bool then - decimal 0 ds else decimal 0 ds))
  end.

(** The decimal numeral of an integer: [String(n)] and [`${n}`] for an
    integer below [2 ^ 53] in magnitude, such as a loop counter. *)
Definition showZ (n : Z) : string := NilZero.string_of_int (Z.to_int n).

(** Number::toString of the language for a positive integral double [x]:
    the digits [s] and the exponent [e] with [s * 10 ^ e] read back as [x],
    [s] having as few digits as possible and, among those, being nearest
    to [x] (the even one at a tie). [candidates x k] are the choices with
    [k] digits. *)
Definition candidates (x k : Z) : list (Z * Z) :=
  let D := Z.of_nat (String.length (showZ x)) in
  flat_map (fun e =>
              if e <? 0 then []
              else List.filter (fun '(s, e) => (10 ^ (k - 1) <=? s) && (s <? 10 ^ k)
                                               && (toDouble (s * 10 ^ e) =? x))
                               [(x / 10 ^ e, e); (x / 10 ^ e + 1, e)])
           [D - k; D - k + 1].

Definition closer (x : Z) (a b : Z * Z) : Z * Z :=
  let da := Z.abs (fst a * 10 ^ snd a - x) in
  let db := Z.abs (fst b * 10 ^ snd b - x) in
  if da <? db then a else if db <? da then b else if Z.even (fst a) then a else b.

Definition closest (x : Z) (l : list (Z * Z)) : option (Z * Z) :=
  match l with
  | [] => None
  | c :: l' => Some (fold_left (closer x) l' c)
  end.

(** Seventeen digits are enough for every double. *)
Fixpoint shortest (x : Z) (fuel : nat) (k : Z) : Z * Z :=
  match fuel with
  | O => (x, 0)
  | S fuel' => match closest x (candidates x k) with
               | Some c => c
               | None => shortest x fuel' (k + 1)
               end
  end.

Definition zeros (n : Z) : string := String.concat EmptyString (repeat "0" (Z.to_nat n)).

(** The digits followed by zeros up to 21 digits, the exponent form beyond. *)
Definition showDouble (x : Z) : string :=
  let '(s, e) := shortest x 17 1 in
  let ds := showZ s in
  let n := Z.of_nat (String.length ds) + e in
  if n <=? 21 then ds +:+ zeros e
  else match ds with
       | String c EmptyString => String c EmptyString +:+ "e+" +:+ showZ (n - 1)
       | String c r => String c ("." +:+ r) +:+ "e+" +:+ showZ (n - 1)
       | EmptyString => EmptyString
       end.

(** [n.toString()] for a number that is an integer, an infinity or NaN.
    The number is the double nearest to [z]: a product such as
    [segIndex * 10] is rounded once more. Below [2 ^ 53] every integer is
    a double and prints in full. *)
Definition toString (n : option Z) : string :=
  match n with
  | None => "NaN"
  | Some z =>
      let x := toDouble z in
      if Z.abs x <? 2 ^ 53 then showZ x
      else if infinity <=? Z.abs x then (if x <? 0 then "-Infinity" else "Infinity")
      else if x <? 0 then "-" +:+ showDouble (- x) else showDouble x
  end.

Definition pow2 (k : Z) : Z := if 0 <=? k then 2 ^ k else 1.

(** The double nearest to a rational (a decimal numeral of a JSON
    document): 53 significant bits above [2 ^ -1022], multiples of
    [2 ^ -1074] below, ties to even. As for the integers, [2 ^ 1024]
    stands for an infinity. *)
Definition number (x : Q) : Q :=
  let n := Z.abs (Qnum x) in
  let d := Z.pos (Qden x) in
  if n =? 0 then 0%Q
  else
    let e0 := Z.log2 n - Z.log2 d in
    let e1 := if n * pow2 (- e0) <? d * pow2 e0 then e0 - 1 else e0 in
    let e := Z.max e1 (-1022) in
    let k := e - 52 in
    let m := roundDiv (n * pow2 (- k)) (d * pow2 k) in
    if infinity <=? m * pow2 k then inject_Z (Z.sgn (Qnum x) * infinity)
    else Qred (Qmake (Z.sgn (Qnum x) * m * pow2 k) (Z.to_pos (pow2 (- k)))).

(** [s.replace(p, r)] with a string pattern: the first occurrence only. *)
Fixpoint replace (s p r : string) : string :=
  match stripPrefix p s with
  | Some rest => r +:+ rest
  | None => match s with
            | EmptyString => EmptyString
            | String c s' => String c (replace s' p r)
            end
  end.

(** [x.toFixed(3)] on the exact value of the double [x]: the nearest
    multiple of 1/1000, ties towards the larger magnitude, printed with
    three decimals; from [10 ^ 21] on, the text of [toString]. *)
Definition pad3 (n : Z) : string :=
  let s := showZ n in
  if (n <? 10)%Z then "00" +:+ s else if (n <? 100)%Z then "0" +:+ s else s.

Definition toFixed3 (x : Q) : string :=
  let n := Qfloor (Qabs x * 1000 + (1 # 2))%Q in
  (if Qlt_le_dec x 0 then "-" else EmptyString)
  +:+ (if Qle_bool (inject_Z (10 ^ 21)) (Qabs x) then toString (Some (Qfloor (Qabs x)))
       else showZ (n / 1000) +:+ "." +:+ pad3 (n mod 1000)).

(** A string that [if (s)] and [s || d] treat as true: present and non-empty. *)
Definition truthy (s : option string) : bool :=
  match s with
  | Some (String _ _) => true
  | _ => false
  end.

(** [s || d] *)
Definition orElse (s : option string) (d : string) : string :=
  match s with
  | Some (String c r) => String c r
  | _ => d
  end.

(** [/^[a-zA-Z0-9_-]{11}$/]: the grammar of a video identifier. *)
Definition matchVideoId (s : string) : bool :=
  (String.length s =? 11)%nat && allChars isIdChar s.

(** [/expire=(\d+)/] tried at the start of [s]: the capture group. *)
Definition expireHere (s : string) : option string :=
  match stripPrefix "expire=" s with
  | Some rest => match takeDigits rest with
                 | EmptyString => None
                 | ds => Some ds
                 end
  | None => None
  end.

(** [s.match(/expire=(\d+)/)]: the capture group of the leftmost match. *)
Fixpoint matchExpire (s : string) : option string :=
  match expireHere s with
  | Some ds => Some ds
  | None => match s with
            | EmptyString => None
            | String _ s' => matchExpire s'
            end
  end.

End JS.

(** ** Data model *)

(** One entry of [formats]: [{type, quality, extension, url}]. The URL is
    whatever the upstream item carried, possibly nothing. *)
Record Format := mkFormat {
  ftype : string;
  quality : string;
  extension : string;
  url : option string;
}.

(** What [fetchYouTubeData] returns. *)
Record VideoData := mkVideoData {
  title : string;
  thumbnail : option string;
  duration : option Q;
  formats : list Format;
}.

(** What the single-quality [getVideoUrl] returns and caches. *)
Record UrlInfo := mkUrlInfo {
  u_url : option string;
  u_title : string;
  u_duration : option Q;
}.

(** The upstream resolution API (an external collaborator): the JSON found
    under [res.data.data], or a transport failure with its message. *)
Record Item := mkItem {
  i_type : string;
  i_label : option string;
  i_ext : option string;
  i_extension : option string;
  i_url : option string;
}.

Record Payload := mkPayload {
  p_title : option string;
  p_thumbnail : option string;
  p_duration : option Q;
  p_items : option (list Item);
}.

Inductive ApiResult :=
| NetworkError (msg : string)
| Reply (data : option Payload).

(** What a handler does with the response object. *)
Inductive Response :=
| Send (contentType body : string)            (* res.set(..); res.send(body) *)
| Json (info : UrlInfo)                       (* res.json(data) *)
| Failure (status : Z) (error : string)       (* res.status(s).json({error}) *)
| Stream (contentType : string) (argv : list string). (* child stdout piped to res *)

(** ** The world a handler runs in, and the monad of handlers

    [clock] is [Date.now()] in milliseconds. [cache] is the node-cache
    store: each key holds a value and the instant [t] after which it is
    dead ([0]: never). [api n u] is what the [n]-th upstream call, made for
    URL [u], takes (milliseconds) and answers. [requests] records the upstream
    calls made so far and [spawned] the argument vectors of the transcoding
    processes started so far, both oldest first. *)
Record World (V : Type) := mkWorld {
  clock : Z;
  cache : gmap string (V * Z);
  api : nat -> string -> N * ApiResult;
  requests : list string;
  spawned : list (list string);
}.
Arguments mkWorld {V}.
Arguments clock {V}.
Arguments cache {V}.
Arguments api {V}.
Arguments requests {V}.
Arguments spawned {V}.

Inductive Result (A : Type) :=
| Ok (a : A)
| Throw (msg : string).
Arguments Ok {A}.
Arguments Throw {A}.

Definition M (V A : Type) : Type := World V -> Result A * World V.

Definition ret {V A} (a : A) : M V A := fun w => (Ok a, w).

Definition throw {V A} (msg : string) : M V A := fun w => (Throw msg, w).

Definition bind {V A B} (m : M V A) (k : A -> M V B) : M V B :=
  fun w => match m w with
           | (Ok a, w') => k a w'
           | (Throw e, w') => (Throw e, w')
           end.

(** [try { m } catch (err) { h(err.message) }] *)
Definition tryCatch {V A} (m : M V A) (h : string -> M V A) : M V A :=
  fun w => match m w with
           | (Ok a, w') => (Ok a, w')
           | (Throw e, w') => h e w'
           end.

Notation "'let*' x ':=' m 'in' k" := (bind m (fun x => k))
  (at level 10, x name, m at level 100, k at level 200).
Notation "m ';;' k" := (bind m (fun _ => k))
  (at level 100, k at level 200, right associativity).

Definition now {V} : M V Z := fun w => (Ok (clock w), w).

(** *** node-cache: [new NodeCache({ stdTTL })] *)

(** Modelled from the spec: the node-cache package is a dependency of the
    servers and its code is not in the repository. The cache is a mapping
    from key to a value and the instant it was inserted plus its time to
    live, checked lazily on read: [get] returns nothing for an absent key
    and for a key whose instant has passed, which it drops. *)
Definition cacheGet {V} (key : string) : M V (option V) :=
  fun w => match cache w !! key with
           | Some (v, t) =>
               if negb (t =? 0) && (t <? clock w)
               then (Ok None, mkWorld (clock w) (delete key (cache w)) (api w) (requests w) (spawned w))
               else (Ok (Some v), w)
           | None => (Ok None, w)
           end.

(** Modelled from the spec: [set] replaces the entry of the key by the value
    stamped with now + stdTTL (seconds turned into milliseconds). *)
Definition cacheSet {V} (stdTTL : Z) (key : string) (v : V) : M V unit :=
  fun w => (Ok tt, mkWorld (clock w) (<[key := (v, clock w + stdTTL * 1000)]> (cache w))
                           (api w) (requests w) (spawned w)).

(** *** axios.get on the resolution API *)

(** The body as [res.data] holds it once axios has parsed the JSON
    document: a number is the double nearest to its numeral. *)
Definition parsed (d : Payload) : Payload :=
  {| p_title := p_title d; p_thumbnail := p_thumbnail d;
     p_duration := JS.number <$> p_duration d; p_items := p_items d |}.

Definition axiosGet {V} (u : string) : M V (option Payload) :=
  fun w => let '(dt, r) := api w (length (requests w)) u in
           let w' := mkWorld (clock w + Z.of_N dt) (cache w) (api w) (requests w ++ [u]) (spawned w) in
           match r with
           | NetworkError msg => (Throw msg, w')
           | Reply d => (Ok (parsed <$> d), w')
           end.

(** *** child_process.spawn *)
Definition spawn {V} (argv : list string) : M V unit :=
  fun w => (Ok tt, mkWorld (clock w) (cache w) (api w) (requests w) (spawned w ++ [argv])).

(** ** Code shared, letter for letter, by the servers *)

Definition nl : string := String (ascii_of_nat 10) EmptyString.
Definition dq : string := String (ascii_of_nat 34) EmptyString.

(** [fetchYouTubeData] (without the retry loop of the batch server). *)
Definition toFormat (item : Item) : Format :=
  {| ftype := i_type item;
     quality := JS.orElse (i_label item) "unknown";
     extension := match i_ext item with
                  | Some (String c r) => String c r
                  | _ => JS.orElse (i_extension item) "unknown"
                  end;
     url := i_url item |}.

Definition fetchYouTubeData {V} (u : string) : M V VideoData :=
  tryCatch
    (let* data := axiosGet u in
     match data with
     | Some d =>
         match p_items d, p_title d with
         | Some items, Some (String c r) =>
             ret {| title := String c r;
                    thumbnail := p_thumbnail d;
                    duration := p_duration d;
                    formats := map toFormat items |}
         | _, _ => throw "Invalid response from API"
         end
     | None => throw "Invalid response from API"
     end)
    (fun msg => throw ("API request failed: " +:+ msg)).

Definition watchUrl (videoId : string) : string :=
  "https://www.youtube.com/watch?v=" +:+ videoId.

(** [isUrlExpired], with the buffer (in milliseconds) as a parameter and
    the current time made explicit. *)
Definition isUrlExpiredAt (buffer : Z) (t : Z) (u : string) : bool :=
  match JS.matchExpire u with
  | None => true
  | Some ds => let expireTime := JS.decimal 0 ds * 1000 in
               expireTime - buffer <=? t
  end.

(** The same on a field that may hold no string: [undefined.match] throws. *)
Definition isUrlExpired {V} (buffer : Z) (u : option string) : M V bool :=
  match u with
  | Some s => let* t := now in ret (isUrlExpiredAt buffer t s)
  | None => throw "Cannot read properties of undefined (reading 'match')"
  end.

(** [formats.find((f) => f.quality.includes(q) && f.type === 'video_with_audio')] *)
Definition isCombined (f : Format) : bool := String.eqb (ftype f) "video_with_audio".

Definition matchesQuality (q : string) (f : Format) : bool :=
  JS.includes (quality f) q && isCombined f.

Definition findQuality (q : string) (fs : list Format) : option Format :=
  List.find (matchesQuality q) fs.

(** [formats.find((f) => f.type === 'audio')] *)
Definition findAudio (fs : list Format) : option Format :=
  List.find (fun f => String.eqb (ftype f) "audio") fs.

(** [find(quality match) || find(combined)]: the choice with fallback made
    by [getVideoUrl] and by POST /api/process. *)
Definition findQualityOrFirst (q : string) (fs : list Format) : option Format :=
  match findQuality q fs with
  | Some f => Some f
  | None => List.find isCombined fs
  end.

(** A handler body inside [try { .. } catch (err) { res.status(500).json({ error: err.message }) }]. *)
Definition handler {V} (body : M V Response) : World V -> Response * World V :=
  fun w => match body w with
           | (Ok r, w') => (r, w')
           | (Throw e, w') => (Failure 500 e, w')
           end.

(** [format.url] as an element of the argument vector of [spawn], which
    hands every element to the process as a string: a URL that is missing
    becomes the argument [undefined]. *)
Definition argString (u : option string) : string :=
  match u with
  | Some s => s
  | None => "undefined"
  end.

(** *** Variant and audio playlists: the segment loop *)

Definition segmentDuration : Z := 10.

Definition playlistHeader : string :=
  "#EXTM3U" +:+ nl +:+
  "#EXT-X-VERSION:3" +:+ nl +:+
  "#EXT-X-TARGETDURATION:" +:+ JS.showZ segmentDuration +:+ nl +:+
  "#EXT-X-MEDIA-SEQUENCE:0" +:+ nl +:+
  "#EXT-X-PLAYLIST-TYPE:VOD" +:+ nl.

Definition endList : string := "#EXT-X-ENDLIST" +:+ nl.

(** [Math.min(segmentDuration, duration - i * segmentDuration)] *)
Definition segDur (d : Q) (i : Z) : Q :=
  Qmin (inject_Z segmentDuration) (d - inject_Z i * inject_Z segmentDuration).

(** One turn of the loop: the two lines appended for segment [i]. *)
Definition segmentEntry (uri : Z -> string) (d : Q) (i : Z) : string :=
  "#EXTINF:" +:+ JS.toFixed3 (segDur d i) +:+ "," +:+ nl +:+ uri i +:+ nl.

(** [for (let i = 0; i < numSegments; i++) manifest += ..] *)
Fixpoint segmentLoop (uri : Z -> string) (d : Q) (numSegments : Z)
         (fuel : nat) (i : Z) (manifest : string) : string :=
  match fuel with
  | O => manifest
  | S fuel' =>
      if i <? numSegments
      then segmentLoop uri d numSegments fuel' (i + 1) (manifest +:+ segmentEntry uri d i)
      else manifest
  end.

(** [Math.ceil(duration / segmentDuration)] *)
Definition numSegments (d : Q) : Z := Qceiling (d / inject_Z segmentDuration).

(** The text of a playlist for a duration that may be NaN (then the loop
    condition is false at once). *)
Definition playlist (uri : Z -> string) (dur : option Q) : string :=
  match dur with
  | Some d =>
      segmentLoop uri d (numSegments d) (Z.to_nat (numSegments d)) 0 playlistHeader +:+ endList
  | None => playlistHeader +:+ endList
  end.

Definition videoSegmentUri (videoId q : string) (i : Z) : string :=
  "/stream/" +:+ videoId +:+ "/segment" +:+ JS.showZ i +:+ "_" +:+ q +:+ ".ts".

Definition audioSegmentUri (videoId : string) (i : Z) : string :=
  "/stream/" +:+ videoId +:+ "/asegment" +:+ JS.showZ i +:+ ".aac".

Definition plainSegmentUri (videoId : string) (i : Z) : string :=
  "/stream/" +:+ videoId +:+ "/segment" +:+ JS.showZ i +:+ ".ts".

(** *** Master playlist of the multi-quality servers *)

Definition videoQualities : list string := ["360p"; "480p"; "720p"; "1080p"].

Definition bandwidth (q : string) : Z :=
  if String.eqb q "360p" then 800000
  else if String.eqb q "480p" then 1400000
  else if String.eqb q "720p" then 2800000
  else if String.eqb q "1080p" then 5000000
  else 1000000.

(** [${q.replace('p','')}x${parseInt(q)}] *)
Definition resolution (q : string) : string :=
  JS.replace q "p" EmptyString +:+ "x" +:+ JS.toString (JS.parseInt q).

Definition streamInf (q : string) : string :=
  "#EXT-X-STREAM-INF:BANDWIDTH=" +:+ JS.showZ (bandwidth q) +:+
  ",RESOLUTION=" +:+ resolution q +:+
  ",CODECS=" +:+ dq +:+ "avc1.42e01e,mp4a.40.2" +:+ dq +:+
  ",AUDIO=" +:+ dq +:+ "audio" +:+ dq +:+ nl.

Definition variantEntry (videoId q : string) : string :=
  streamInf q +:+ "/stream/" +:+ videoId +:+ "/" +:+ q +:+ ".m3u8" +:+ nl.

Definition masterHeader (videoId : string) : string :=
  "#EXTM3U" +:+ nl +:+ "#EXT-X-VERSION:3" +:+ nl +:+
  "#EXT-X-MEDIA:TYPE=AUDIO,GROUP-ID=" +:+ dq +:+ "audio" +:+ dq +:+
  ",NAME=" +:+ dq +:+ "English" +:+ dq +:+
  ",DEFAULT=YES,AUTOSELECT=YES,URI=" +:+ dq +:+ "/stream/" +:+ videoId +:+ "/audio.m3u8" +:+ dq +:+ nl.

(** [for (const q of videoQualities) { const f = ..find..; if (!f) continue; manifest += .. }] *)
Definition masterStep (videoId : string) (fs : list Format) (manifest q : string) : string :=
  match findQuality q fs with
  | None => manifest
  | Some _ => manifest +:+ variantEntry videoId q
  end.

Definition masterManifest (videoId : string) (fs : list Format) : string :=
  fold_left (masterStep videoId fs) videoQualities (masterHeader videoId).

Definition mpegurl : string := "application/vnd.apple.mpegurl".

(** The three playlist handlers of the multi-quality servers take the
    resolver as a parameter: their text is the same in src/index.js and in
    part_002, which differ in [getVideoFormats] and [runFFmpeg]. *)
Section MultiQualityPlaylists.
Variable getVideoFormats : string -> M VideoData VideoData.

(** GET /stream/:videoId/master.m3u8 *)
Definition masterPlaylist (videoId : string) : World VideoData -> Response * World VideoData :=
  handler (let* data := getVideoFormats videoId in
           ret (Send mpegurl (masterManifest videoId (formats data)))).

(** GET /stream/:videoId/:quality.m3u8 *)
Definition variantPlaylist (videoId q : string) : World VideoData -> Response * World VideoData :=
  handler (let* data := getVideoFormats videoId in
           match findQuality q (formats data) with
           | None => throw "Format not available"
           | Some _ => ret (Send mpegurl (playlist (videoSegmentUri videoId q) (duration data)))
           end).

(** GET /stream/:videoId/audio.m3u8 *)
Definition audioPlaylist (videoId : string) : World VideoData -> Response * World VideoData :=
  handler (let* data := getVideoFormats videoId in
           match findAudio (formats data) with
           | None => throw "Audio format not available"
           | Some _ => ret (Send mpegurl (playlist (audioSegmentUri videoId) (duration data)))
           end).
End MultiQualityPlaylists.

(** [startTime = segIndex * segDuration], NaN when the index is. The
    product is kept exact here; [JS.toString] prints the double nearest to
    it, which is the double the code has computed. *)
Definition startTimeOf (segIndex : option Z) : option Z :=
  (fun i => i * segmentDuration) <$> segIndex.

Definition keepUrl (f : Format) : bool := JS.truthy (url f).

Definition withValidFormats (data : VideoData) : VideoData :=
  {| title := title data; thumbnail := thumbnail data; duration := duration data;
     formats := List.filter keepUrl (formats data) |}.

(** ** src/index.js *)

Module Index.

Definition stdTTL : Z := 18000.
Definition buffer : Z := 300000.

Definition getVideoFormats (videoId : string) (forceRefresh : bool) : M VideoData VideoData :=
  if negb (JS.matchVideoId videoId) then throw "Invalid YouTube video ID"
  else
    let cacheKey := videoId +:+ "_formats" in
    let* cached := (if forceRefresh then ret None else cacheGet cacheKey) in
    match cached with
    | Some c => ret c
    | None =>
        let* data := fetchYouTubeData (watchUrl videoId) in
        cacheSet stdTTL cacheKey (withValidFormats data) ;;
        ret (withValidFormats data)
    end.

(** [(f) => f.quality === format.quality && f.type === format.type] *)
Definition sameTrack (format f : Format) : bool :=
  String.eqb (quality f) (quality format) && String.eqb (ftype f) (ftype format).

(** The first part of [runFFmpeg]: the format whose URL goes to the process. *)
Definition refreshIfExpired (videoId : string) (format : Format) : M VideoData Format :=
  let* expired := isUrlExpired buffer (url format) in
  if expired : bool then
    let* refreshed := getVideoFormats videoId true in
    match List.find (sameTrack format) (formats refreshed) with
    | Some freshFormat => ret freshFormat
    | None => ret format
    end
  else ret format.

Definition ffmpegArgs (startTime : option Z) (dur : Z) (input : string) (isAudio : bool) : list string :=
  let baseArgs :=
    ["-hide_banner"; "-loglevel"; "error";
     "-ss"; JS.toString startTime;
     "-t"; JS.showZ dur;
     "-i"; input;
     "-reconnect"; "1"; "-reconnect_streamed"; "1"; "-reconnect_delay_max"; "5"] in
  if isAudio
  then baseArgs ++ ["-c:a"; "aac"; "-vn"; "-f"; "adts"; "pipe:1"]
  else baseArgs ++ ["-c:v"; "libx264"; "-preset"; "veryfast"; "-c:a"; "aac"; "-f"; "mpegts"; "pipe:1"].

Definition runFFmpeg (videoId : string) (format : Format) (startTime : option Z) (dur : Z)
           (isAudio : bool) : M VideoData Response :=
  let* format := refreshIfExpired videoId format in
  let input := argString (url format) in
  let args := ffmpegArgs startTime dur input isAudio in
  spawn args ;;
  ret (Stream (if isAudio then "audio/aac" else "video/mp2t") args).

(** GET /stream/:videoId/segment:segNum_:quality.ts *)
Definition videoSegment (videoId segNum q : string) : World VideoData -> Response * World VideoData :=
  handler (let segIndex := JS.parseInt segNum in
           let* data := getVideoFormats videoId false in
           match findQuality q (formats data) with
           | None => throw "Format not available"
           | Some format => runFFmpeg videoId format (startTimeOf segIndex) segmentDuration false
           end).

(** GET /stream/:videoId/asegment:segNum.aac *)
Definition audioSegment (videoId segNum : string) : World VideoData -> Response * World VideoData :=
  handler (let segIndex := JS.parseInt segNum in
           let* data := getVideoFormats videoId false in
           match findAudio (formats data) with
           | None => throw "Audio format not available"
           | Some format => runFFmpeg videoId format (startTimeOf segIndex) segmentDuration true
           end).

Definition master := masterPlaylist (fun v => getVideoFormats v false).
Definition variant := variantPlaylist (fun v => getVideoFormats v false).
Definition audio := audioPlaylist (fun v => getVideoFormats v false).

End Index.

(** ** src/unnamed/part_002 *)

Module Multi.

Definition stdTTL : Z := 18000.
Definition buffer : Z := 300000.

(** [cached.formats.some(f => isUrlExpired(f.url))] *)
Fixpoint someExpired (fs : list Format) : M VideoData bool :=
  match fs with
  | [] => ret false
  | f :: fs' =>
      let* e := isUrlExpired buffer (url f) in
      if e : bool then ret true else someExpired fs'
  end.

Definition refresh (videoId cacheKey : string) : M VideoData VideoData :=
  let* data := fetchYouTubeData (watchUrl videoId) in
  cacheSet stdTTL cacheKey (withValidFormats data) ;;
  ret (withValidFormats data).

Definition getVideoFormats (videoId : string) : M VideoData VideoData :=
  if negb (JS.matchVideoId videoId) then throw "Invalid YouTube video ID"
  else
    let cacheKey := videoId +:+ "_formats" in
    let* cached := cacheGet cacheKey in
    match cached with
    | None => refresh videoId cacheKey
    | Some c =>
        let* stale := someExpired (formats c) in
        if stale : bool then refresh videoId cacheKey else ret c
    end.

Definition crlf : string := String (ascii_of_nat 13) nl.

Definition requestHeaders : string :=
  "User-Agent: Mozilla/5.0 (Windows NT 10.0; Win64; x64) AppleWebKit/537.36 Chrome/118 Safari/537.36"
  +:+ crlf +:+ "Referer: https://www.youtube.com/"
  +:+ crlf +:+ "Origin: https://www.youtube.com/".

Definition ffmpegArgs (startTime : option Z) (dur : Z) (input : string) (isAudio : bool) : list string :=
  let baseArgs :=
    ["-ss"; JS.toString startTime; "-t"; JS.showZ dur; "-headers"; requestHeaders; "-i"; input] in
  if isAudio
  then baseArgs ++ ["-c:a"; "aac"; "-vn"; "-f"; "adts"; "pipe:1"]
  else baseArgs ++ ["-c:v"; "libx264"; "-preset"; "veryfast"; "-c:a"; "aac"; "-f"; "mpegts"; "pipe:1"].

Definition runFFmpeg (u : option string) (startTime : option Z) (dur : Z) (isAudio : bool)
  : M VideoData Response :=
  let input := argString u in
  let args := ffmpegArgs startTime dur input isAudio in
  spawn args ;;
  ret (Stream (if isAudio then "audio/aac" else "video/mp2t") args).

(** GET /stream/:videoId/segment:segNum_:quality.ts *)
Definition videoSegment (videoId segNum q : string) : World VideoData -> Response * World VideoData :=
  handler (let segIndex := JS.parseInt segNum in
           let* data := getVideoFormats videoId in
           match findQuality q (formats data) with
           | None => throw "Format not available"
           | Some format => runFFmpeg (url format) (startTimeOf segIndex) segmentDuration false
           end).

(** GET /stream/:videoId/asegment:segNum.aac *)
Definition audioSegment (videoId segNum : string) : World VideoData -> Response * World VideoData :=
  handler (let segIndex := JS.parseInt segNum in
           let* data := getVideoFormats videoId in
           match findAudio (formats data) with
           | None => throw "Audio format not available"
           | Some format => runFFmpeg (url format) (startTimeOf segIndex) segmentDuration true
           end).

Definition master := masterPlaylist getVideoFormats.
Definition variant := variantPlaylist getVideoFormats.
Definition audio := audioPlaylist getVideoFormats.

End Multi.

(** ** The single-quality servers: part_001 and the second file of part_000

    The two differ in the expiry buffer, in whether identifiers and segment
    numbers are validated, and in the arguments given to the process. *)

Section SingleQuality.
Variable buffer : Z.
Variable stdTTL : Z.

(** The part of [getVideoUrl] after the cache lookup. *)
Definition resolveUrl (videoId q cacheKey : string) : M UrlInfo UrlInfo :=
  let* data := fetchYouTubeData (watchUrl videoId) in
  match findQualityOrFirst q (formats data) with
  | None => throw "No suitable format found"
  | Some format =>
      let result := {| u_url := url format; u_title := title data; u_duration := duration data |} in
      cacheSet stdTTL cacheKey result ;;
      ret result
  end.

(** [getVideoUrl] from its second statement on. *)
Definition cachedOrResolve (videoId q : string) : M UrlInfo UrlInfo :=
  let cacheKey := videoId +:+ "_" +:+ q in
  let* cached := cacheGet cacheKey in
  match cached with
  | Some c =>
      let* expired := isUrlExpired buffer (u_url c) in
      if expired : bool then resolveUrl videoId q cacheKey else ret c
  | None => resolveUrl videoId q cacheKey
  end.

(** The playlist served as master.m3u8. *)
Definition singlePlaylist (videoId : string) (videoData : UrlInfo) : Response :=
  Send mpegurl (playlist (plainSegmentUri videoId) (u_duration videoData)).
End SingleQuality.

Module Single.

Definition stdTTL : Z := 18000.
Definition buffer : Z := 300000.

Definition getVideoUrl (videoId q : string) : M UrlInfo UrlInfo :=
  if negb (JS.matchVideoId videoId) then throw "Invalid YouTube video ID"
  else cachedOrResolve buffer stdTTL videoId q.

(** GET /stream/:videoId/master.m3u8 *)
Definition master (videoId : string) : World UrlInfo -> Response * World UrlInfo :=
  handler (if negb (JS.matchVideoId videoId) then throw "Invalid YouTube video ID"
           else
             let* videoData := getVideoUrl videoId "720p" in
             ret (singlePlaylist videoId videoData)).

Definition ffmpegArgs (startTime : option Z) (input : string) : list string :=
  ["-i"; input; "-ss"; JS.toString startTime; "-t"; JS.showZ segmentDuration;
   "-c:v"; "copy"; "-c:a"; "copy"; "-f"; "mpegts"; "pipe:"].

(** [isNaN(segmentIndex) || segmentIndex < 0] *)
Definition badIndex (segmentIndex : option Z) : bool :=
  match segmentIndex with
  | None => true
  | Some i => i <? 0
  end.

(** GET /stream/:videoId/segment:segNum.ts *)
Definition segment (videoId segNum : string) : World UrlInfo -> Response * World UrlInfo :=
  handler (let segmentIndex := JS.parseInt segNum in
           if badIndex segmentIndex then throw "Invalid segment number"
           else if negb (JS.matchVideoId videoId) then throw "Invalid YouTube video ID"
           else
             let startTime := startTimeOf segmentIndex in
             let* videoData := getVideoUrl videoId "720p" in
             (* [if (!ffmpegStatic) throw ..]: the path of the binary is there *)
             let input := argString (u_url videoData) in
             let args := ffmpegArgs startTime input in
             spawn args ;;
             ret (Stream "video/mp2t" args)).

(** GET /api/info/:videoId *)
Definition info (videoId : string) : World UrlInfo -> Response * World UrlInfo :=
  handler (if negb (JS.matchVideoId videoId) then throw "Invalid YouTube video ID"
           else
             let* data := getVideoUrl videoId "720p" in
             ret (Json data)).

End Single.

Module Legacy.

Definition stdTTL : Z := 18000.
Definition buffer : Z := 1800000.

Definition getVideoUrl (videoId q : string) : M UrlInfo UrlInfo :=
  cachedOrResolve buffer stdTTL videoId q.

(** GET /stream/:videoId/master.m3u8 *)
Definition master (videoId : string) : World UrlInfo -> Response * World UrlInfo :=
  handler (let* videoData := getVideoUrl videoId "720p" in
           ret (singlePlaylist videoId videoData)).

Definition ffmpegArgs (startTime : option Z) (input : string) : list string :=
  ["-ss"; JS.toString startTime; "-i"; input; "-t"; JS.showZ segmentDuration;
   "-c:v"; "copy"; "-c:a"; "aac"; "-b:a"; "128k"; "-f"; "mpegts";
   "-avoid_negative_ts"; "make_zero"; "pipe:1"].

(** GET /stream/:videoId/segment:segNum.ts *)
Definition segment (videoId segNum : string) : World UrlInfo -> Response * World UrlInfo :=
  handler (let segmentIndex := JS.parseInt segNum in
           let startTime := startTimeOf segmentIndex in
           let* videoData := getVideoUrl videoId "720p" in
           let input := argString (u_url videoData) in
           let args := ffmpegArgs startTime input in
           spawn args ;;
           ret (Stream "video/mp2t" args)).

(** GET /api/info/:videoId *)
Definition info (videoId : string) : World UrlInfo -> Response * World UrlInfo :=
  handler (let* data := getVideoUrl videoId "720p" in
           ret (Json data)).

End Legacy.

(** ** The life of one segment request, event by event

    A segment handler is an [async] function: it runs up to its first
    [await], and the rest runs when the awaited resolution settles. The
    last synchronous stretch spawns the process and, after that, registers
    the listener [on('close', () => ffmpeg.kill(sig))] on the response
    (src/index.js, part_002) or on the request (part_001, part_000). The
    connection emits 'close' once; an emitter calls the listeners registered
    at that moment, and [kill] signals a process that has not exited. *)

Module Lifecycle.

Inductive Signal := SIGTERM | SIGKILL.

Inductive Proc := NotSpawned | Running | Exited.

(** Where the handler stands: awaiting [getVideoFormats] / [getVideoUrl],
    awaiting the forced refresh inside [runFFmpeg], past the spawn, or
    ended by an exception. *)
Inductive Stage := Resolving | Refreshing | Spawned | Failed.

Record Request := mkRequest {
  stage : Stage;
  closed : bool;               (* 'close' has been emitted *)
  onClose : list Signal;       (* listeners of 'close', by the signal they send *)
  proc : Proc;
  signals : list Signal;       (* signals sent to the process, oldest first *)
}.

Inductive Event :=
| Resolved (ok expired : bool) (* the first await settles; is the selected URL expired? *)
| Refreshed (ok : bool)        (* the await of the forced refresh settles *)
| Close                        (* the client's connection closes *)
| Exit.                        (* the process exits *)

(** What distinguishes the servers here. *)
Record Server := mkServer {
  killSignal : Signal;
  refreshes : bool;            (* does runFFmpeg re-resolve an expired URL? *)
}.

Definition index : Server := {| killSignal := SIGTERM; refreshes := true |}.
Definition multi : Server := {| killSignal := SIGTERM; refreshes := false |}.
Definition single : Server := {| killSignal := SIGTERM; refreshes := false |}.
Definition legacy : Server := {| killSignal := SIGKILL; refreshes := false |}.

Definition start : Request :=
  {| stage := Resolving; closed := false; onClose := []; proc := NotSpawned; signals := [] |}.

(** [spawn(..); ..; res.on('close', () => ffmpeg.kill(sig))] *)
Definition spawnAndListen (sv : Server) (r : Request) : Request :=
  {| stage := Spawned; closed := closed r; onClose := onClose r ++ [killSignal sv];
     proc := Running; signals := signals r |}.

Definition setStage (st : Stage) (r : Request) : Request :=
  {| stage := st; closed := closed r; onClose := onClose r; proc := proc r; signals := signals r |}.

(** [ffmpeg.kill(sig)] *)
Definition kill (r : Request) (sig : Signal) : Request :=
  match proc r with
  | Running => {| stage := stage r; closed := closed r; onClose := onClose r;
                  proc := proc r; signals := signals r ++ [sig] |}
  | _ => r
  end.

(** [emit('close')] *)
Definition emitClose (r : Request) : Request :=
  if closed r then r
  else fold_left kill (onClose r)
         {| stage := stage r; closed := true; onClose := onClose r;
            proc := proc r; signals := signals r |}.

Definition step (sv : Server) (r : Request) (e : Event) : Request :=
  match e, stage r with
  | Resolved true expired, Resolving =>
      if expired && refreshes sv then setStage Refreshing r else spawnAndListen sv r
  | Resolved false _, Resolving => setStage Failed r
  | Refreshed true, Refreshing => spawnAndListen sv r
  | Refreshed false, Refreshing => setStage Failed r
  | Close, _ => emitClose r
  | Exit, _ =>
      match proc r with
      | Running => {| stage := stage r; closed := closed r; onClose := onClose r;
                      proc := Exited; signals := signals r |}
      | _ => r
      end
  | _, _ => r
  end.

Definition run (sv : Server) (es : list Event) : Request := fold_left (step sv) es start.

(** What holds of a request whatever happened to it: the listener is
    registered exactly from the spawn on, and no signal is sent before the
    connection closes. *)
Definition Inv (sv : Server) (r : Request) : Prop :=
  (stage r = Spawned -> onClose r = [killSignal sv] /\ proc r <> NotSpawned)
  /\ (stage r <> Spawned -> onClose r = [] /\ proc r = NotSpawned)
  /\ (closed r = false -> signals r = []).

End Lifecycle.

(** ** Vocabulary of the specification *)

(** [q] occurs in [s] as a contiguous substring. *)
Definition Contains (s q : string) : Prop :=
  exists pre post, s = pre +:+ q +:+ post.

(** [x] is the first element of [l] that satisfies [P]. *)
Definition FirstSuch {A} (P : A -> Prop) (l : list A) (x : A) : Prop :=
  exists l1 l2, l = l1 ++ x :: l2 /\ P x /\ forall y, In y l1 -> ~ P y.

(** A combined audio+video format. *)
Definition Combined (f : Format) : Prop := ftype f = "video_with_audio".

(** A combined format whose quality label contains the token [q]. *)
Definition QualityMatch (q : string) (f : Format) : Prop :=
  Combined f /\ Contains (quality f) q.






Definition joinAll (l : list string) : string := fold_right String.append EmptyString l.

(** A live entry of the cache: present, and its instant not yet passed. *)
Definition Live {V} (w : World V) (key : string) (v : V) : Prop :=
  exists t, cache w !! key = Some (v, t) /\ (t = 0 \/ clock w <= t).

(** The cache key of the multi-quality servers. *)
Definition formatsKey (videoId : string) : string := videoId +:+ "_formats".

(** Is quality [q] offered by the formats [fs]? *)
Definition offered (fs : list Format) (q : string) : bool :=
  match findQuality q fs with Some _ => true | None => false end.

(** The world after one more process was spawned. *)
Definition spawnedWith {V} (argv : list string) (w : World V) : World V :=
  mkWorld (clock w) (cache w) (api w) (requests w) (spawned w ++ [argv]).

(** The world after [getVideoFormats] of src/index.js stored [data]. *)
Definition stored (videoId : string) (data : VideoData) (w : World VideoData) : World VideoData :=
  mkWorld (clock w)
          (<[formatsKey videoId := (withValidFormats data, clock w + Index.stdTTL * 1000)]> (cache w))
          (api w) (requests w) (spawned w).

Definition contentType (isAudio : bool) : string := if isAudio then "audio/aac" else "video/mp2t".

(** The format [runFFmpeg] re-selects after a refresh. *)
Definition reselected (format : Format) (refreshed : VideoData) : Format :=
  match List.find (Index.sameTrack format) (formats refreshed) with
  | Some freshFormat => freshFormat
  | None => format
  end.



(** The next upstream call for [u] is answered, after [dt] milliseconds,
    by a document [d] that has items and the non-empty title [t]. *)
Definition Answers {V} (w : World V) (u : string) (dt : N) (d : Payload)
           (items : list Item) (t : string) : Prop :=
  api w (length (requests w)) u = (dt, Reply (Some d))
  /\ p_items d = Some items /\ p_title d = Some t /\ t <> EmptyString.

(** What the servers are to make of such a document. *)
Definition resolvedFrom (d : Payload) (items : list Item) (t : string) : VideoData :=
  {| title := t; thumbnail := p_thumbnail d; duration := JS.number <$> p_duration d;
     formats := map toFormat items |}.

(** A request orphaned by an early close: the connection closes while the
    resolution is awaited, the process is spawned all the same and no later
    event signals it, although the same two events in the other order end
    with the server's signal sent. *)
Definition OrphanedByEarlyClose (sv : Lifecycle.Server) : Prop :=
  Lifecycle.closed (Lifecycle.run sv [Lifecycle.Close; Lifecycle.Resolved true false]) = true
  /\ Lifecycle.proc (Lifecycle.run sv [Lifecycle.Close; Lifecycle.Resolved true false])
     = Lifecycle.Running
  /\ (forall es,
        Lifecycle.signals
          (Lifecycle.run sv ([Lifecycle.Close; Lifecycle.Resolved true false] ++ es)) = [])
  /\ Lifecycle.signals (Lifecycle.run sv [Lifecycle.Resolved true false; Lifecycle.Close])
     = [Lifecycle.killSignal sv].

(** ** Fixtures for the scenarios *)

Definition va : string := "video_with_audio".

Definition fmt (ty label u : string) : Format :=
  {| ftype := ty; quality := label; extension := "mp4"; url := Some u |}.

Definition item (ty label u : string) : Item :=
  {| i_type := ty; i_label := Some label; i_ext := Some "mp4"; i_extension := None;
     i_url := Some u |}.

(** [{title: "T", duration: 125, items}] *)
Definition payload (items : list Item) : Payload :=
  {| p_title := Some "T"; p_thumbnail := None; p_duration := Some 125%Q; p_items := Some items |}.

(** [{title: "T", duration: d, items}] *)
Definition lasting (d : Q) (items : list Item) : Payload :=
  {| p_title := Some "T"; p_thumbnail := None; p_duration := Some d; p_items := Some items |}.

(** An upstream that answers every call at once with the same payload. *)
Definition always (p : Payload) : nat -> string -> N * ApiResult :=
  fun _ _ => (0%N, Reply (Some p)).

(** A server just started at instant [t]: nothing cached, called or spawned. *)
Definition fresh {V} (t : Z) (upstream : nat -> string -> N * ApiResult) : World V :=
  mkWorld t ∅ upstream [] [].

Definition farUrl : string := "https://x/?expire=9999999999".

(** The identifier of the demo page and the upstream of the scenario. *)
Definition demoId : string := "tTPk-fSx5gc".

Definition scenario : World VideoData := fresh 0 (always (payload [item va "720p" farUrl])).

Definition scenario1 : World UrlInfo := fresh 0 (always (payload [item va "720p" farUrl])).


(** A URL that expires 10000 s after the epoch, and an upstream whose first
    answer labels the combined format 720p and whose later answers label it
    720p60, with a URL that is good for long. *)
Definition soonUrl : string := "https://x/?expire=10000".

Definition relabelling : nat -> string -> N * ApiResult :=
  fun n _ => match n with
             | O => (0%N, Reply (Some (payload [item va "720p" soonUrl])))
             | S _ => (0%N, Reply (Some (payload [item va "720p60" farUrl])))
             end.

(** The same for the audio track, whose label changes from 128k to 129k. *)
Definition relabellingAudio : nat -> string -> N * ApiResult :=
  fun n _ => match n with
             | O => (0%N, Reply (Some (payload [item "audio" "128k" soonUrl])))
             | S _ => (0%N, Reply (Some (payload [item "audio" "129k" farUrl])))
             end.

(** An upstream whose combined format carries no URL. *)
Definition noUrl : World UrlInfo :=
  fresh 0 (always (payload [{| i_type := va; i_label := Some "720p"; i_ext := Some "mp4";
                               i_extension := None; i_url := None |}])).

(** An upstream with an audio track only. *)
Definition audioOnly : World VideoData := fresh 0 (always (payload [item "audio" "128k" farUrl])).

Definition setClock {V} (t : Z) (w : World V) : World V :=
  mkWorld t (cache w) (api w) (requests w) (spawned w).

(** The playlist is asked at instant 0; a segment is asked 9800 s later,
    within the five hours of the cache entry and less than five minutes
    before the URL dies. *)
Definition staleWorld : World VideoData :=
  setClock 9800000 (snd (Index.variant demoId "720p" (fresh 0 relabelling))).

Definition staleAudioWorld : World VideoData :=
  setClock 9800000 (snd (Index.master demoId (fresh 0 relabellingAudio))).


(** ** Further vocabulary *)



(** A format that kept its direct URL through [filter((f) => f.url)]. *)
Definition HasUrl (f : Format) : Prop := exists u, url f = Some u /\ u <> EmptyString.

(** Every entry of the cache holds formats with a URL only. *)
Definition CleanCache (w : World VideoData) : Prop :=
  forall key data t, cache w !! key = Some (data, t) -> Forall HasUrl (formats data).

(** The messages the handlers of the multi-quality servers are meant to
    answer with. *)
Definition Expected (e : string) : Prop :=
  e = "Invalid YouTube video ID" \/ e = "Format not available"
  \/ e = "Audio format not available" \/ exists m, e = "API request failed: " +:+ m.

(** A cached single-quality entry for the scenario, live until [t]. *)
Definition cachedUrl (key u : string) (t : Z) (clockNow : Z) : World UrlInfo :=
  mkWorld clockNow {[ key := ({| u_url := Some u; u_title := "T"; u_duration := Some 125%Q |}, t) ]}
          (always (payload [item va "720p" farUrl])) [] [].

(** A cached multi-quality entry for the scenario, live until [t]. *)
Definition cachedFormats (key u : string) (t : Z) (clockNow : Z) : World VideoData :=
  mkWorld clockNow
          {[ key := ({| title := "T"; thumbnail := None; duration := Some 125%Q;
                        formats := [fmt va "720p" u] |}, t) ]}
          (always (payload [item va "720p" farUrl])) [] [].


(** ** src/unnamed/part_000, first file: the batch pre-conversion server *)

Module Batch.

Definition stdTTL : Z := 86400.

(** The body of the [try] block of [fetchYouTubeData]: one call and the
    check of what came back. *)
Definition attempt {V} (u : string) : M V VideoData :=
  let* data := axiosGet u in
  match data with
  | Some d =>
      match p_items d, p_title d with
      | Some items, Some (String c r) =>
          ret {| title := String c r;
                 thumbnail := p_thumbnail d;
                 duration := p_duration d;
                 formats := map toFormat items |}
      | _, _ => throw "Invalid response from API"
      end
  | None => throw "Invalid response from API"
  end.

(** [await new Promise((resolve) => setTimeout(resolve, delay))]: the
    clock moves on by the delay. *)
Definition sleep {V} (delay : Z) : M V unit :=
  fun w => (Ok tt, mkWorld (clock w + delay) (cache w) (api w) (requests w) (spawned w)).

(** [for (let i = 0; i < retries; i++) { try { .. return .. } catch (err) {
    if (i === retries - 1) throw ..; await .. } }], by the number of turns
    left; falling out of the loop returns [undefined]. *)
Fixpoint retryLoop {V} (u : string) (delay : Z) (turnsLeft : nat) : M V (option VideoData) :=
  match turnsLeft with
  | O => ret None
  | S rest =>
      tryCatch (let* data := attempt u in ret (Some data))
               (fun msg =>
                  match rest with
                  | O => throw ("API request failed: " +:+ msg)
                  | S _ => sleep delay ;; retryLoop u delay rest
                  end)
  end.

(** [fetchYouTubeData(url, retries = 3, delay = 1000)] *)
Definition fetchYouTubeData {V} (u : string) (retries : nat) (delay : Z) : M V (option VideoData) :=
  retryLoop u delay retries.

(** [[?&]] *)
Definition isSeparator (c : ascii) : bool := Ascii.eqb c "?" || Ascii.eqb c "&".

(** The longest prefix without an ampersand: what a greedy [[^&]+] takes. *)
Fixpoint takeValue (s : string) : string :=
  match s with
  | String c s' => if Ascii.eqb c "&" then EmptyString else String c (takeValue s')
  | EmptyString => EmptyString
  end.

(** [/[?&]v=([^&]+)/] tried at the start of [s]. *)
Definition videoParamHere (s : string) : option string :=
  match s with
  | String c rest =>
      if isSeparator c
      then match JS.stripPrefix "v=" rest with
           | Some value => match takeValue value with
                           | EmptyString => None
                           | v => Some v
                           end
           | None => None
           end
      else None
  | EmptyString => None
  end.

(** [youtubeUrl.match(/[?&]v=([^&]+)/)]: the capture group of the leftmost match. *)
Fixpoint matchVideoParam (s : string) : option string :=
  match videoParamHere s with
  | Some v => Some v
  | None => match s with
            | EmptyString => None
            | String _ s' => matchVideoParam s'
            end
  end.

(** [req.body] of POST /api/process. *)
Record Body := mkBody {
  youtubeUrl : option string;
  bodyQuality : option string;
}.

(** What the server caches and answers about a video. *)
Record Info := mkInfo {
  infoTitle : string;
  infoThumbnail : option string;
  infoDuration : option Q;
}.

Inductive Answer :=
| Processed (videoId streamUrl : string) (cached : bool) (info : Info)
| Found (info : Info)
| Refused (status : Z) (error : string).

Definition streamUrl (videoId : string) : string := "/stream/" +:+ videoId +:+ "/master.m3u8".

(** A route whose [catch] hands the error to [errorHandler]. *)
Definition route (body : M Info Answer) : World Info -> Answer * World Info :=
  fun w => match body w with
           | (Ok r, w') => (r, w')
           | (Throw _, w') => (Refused 500 "Internal server error", w')
           end.

Section Process.
(** [convertToHLS(videoUrl, videoId, quality)] works on the file system and
    runs the media toolkit: it is taken as given. *)
Variable convertToHLS : option string -> string -> string -> M Info string.

(** POST /api/process *)
Definition process (body : Body) : World Info -> Answer * World Info :=
  route
    (let quality := match bodyQuality body with Some q => q | None => "720p" end in
     match youtubeUrl body with
     | Some (String c r) =>
         match matchVideoParam (String c r) with
         | None => ret (Refused 400 "Invalid YouTube URL")
         | Some videoId =>
             let* cachedData := cacheGet videoId in
             match cachedData with
             | Some c => ret (Processed videoId (streamUrl videoId) true c)
             | None =>
                 let* fetched := fetchYouTubeData (String c r) 3 1000 in
                 match fetched with
                 | None => throw "Cannot read properties of undefined (reading 'formats')"
                 | Some videoData =>
                     match findQualityOrFirst quality (formats videoData) with
                     | None => ret (Refused 404 "No suitable video format found")
                     | Some format =>
                         let info := {| infoTitle := title videoData;
                                        infoThumbnail := thumbnail videoData;
                                        infoDuration := duration videoData |} in
                         convertToHLS (url format) videoId quality ;;
                         cacheSet stdTTL videoId info ;;
                         ret (Processed videoId (streamUrl videoId) false info)
                     end
                 end
             end
         end
     | _ => ret (Refused 400 "YouTube URL is required")
     end).
End Process.

(** GET /api/info/:videoId *)
Definition info (videoId : string) : World Info -> Answer * World Info :=
  route (let* cachedData := cacheGet videoId in
         match cachedData with
         | Some c => ret (Found c)
         | None => ret (Refused 404 "Video info not found")
         end).

End Batch.

(** ** More of the request's life *)

(** A process is signalled at most once, by the server's own signal, only
    after the connection closed and only if it was spawned. *)
Definition QuietUntilClose (sv : Lifecycle.Server) (r : Lifecycle.Request) : Prop :=
  (Lifecycle.signals r = [] \/ Lifecycle.signals r = [Lifecycle.killSignal sv])
  /\ (Lifecycle.signals r <> [] -> Lifecycle.closed r = true /\ Lifecycle.proc r <> Lifecycle.NotSpawned).

(** What one answer of the upstream API is worth to an attempt. *)
Definition answerOf {V} (w : World V) (n : nat) (u : string) : Result VideoData :=
  fst (@Batch.attempt V u (mkWorld 0 ∅ (fun _ _ => api w n u) [] [])).

(** An upstream that fails twice before it answers. *)
Definition flaky : nat -> string -> N * ApiResult :=
  fun n _ => match n with
             | O | S O => (0%N, NetworkError "timeout of 10000ms exceeded")
             | _ => (0%N, Reply (Some (payload [item va "720p" farUrl])))
             end.

(** An upstream that is down. *)
Definition down : nat -> string -> N * ApiResult :=
  fun _ _ => (0%N, NetworkError "timeout of 10000ms exceeded").

(** A conversion that succeeds and records its input like a spawned process. *)
Definition convertOk (input : option string) (videoId q : string) : M Batch.Info string :=
  spawn [match input with Some u => u | None => "undefined" end; videoId; q] ;;
  ret ("hls-content/" +:+ videoId +:+ "/master.m3u8").

(** A conversion that fails. *)
Definition convertFails (input : option string) (videoId q : string) : M Batch.Info string :=
  throw "HLS conversion failed: Invalid data found when processing input".

(** A string without ampersand. *)
Definition NoAmpersand (s : string) : Prop :=
  JS.allChars (fun c => negb (Ascii.eqb c "&")) s = true.

(** A response that streams without any upstream call having been made
    streams from a URL that is not expired at that time. *)
Definition ServedFresh {V} (buffer : Z) (args : string -> list string)
           (w : World V) (r : Response * World V) : Prop :=
  forall ct argv,
    fst r = Stream ct argv -> requests (snd r) = requests w ->
    exists u, argv = args u
              /\ isUrlExpiredAt buffer (clock w) u = false
              /\ spawned (snd r) = spawned w ++ [argv].

(** A response that has spawned a process exactly when it streams, the
    process being the one whose output is streamed, and that has called
    upstream for the video at most [calls] times. *)
Definition SpawnsToStream {V} (calls : nat) (videoId : string)
           (w : World V) (r : Response * World V) : Prop :=
  ((exists ct argv, fst r = Stream ct argv /\ spawned (snd r) = spawned w ++ [argv])
   \/ ((forall ct argv, fst r <> Stream ct argv) /\ spawned (snd r) = spawned w))
  /\ exists k, (k <= calls)%nat /\ requests (snd r) = requests w ++ repeat (watchUrl videoId) k.

(** A response that is not a stream and has spawned nothing. *)
Definition NoProcess {V} (w : World V) (r : Response * World V) : Prop :=
  (forall ct argv, fst r <> Stream ct argv) /\ spawned (snd r) = spawned w.

(** * Properties *)

Local Arguments String.append !_ _ /.

Lemma append_assoc (a b c : string) : (a +:+ b) +:+ c = a +:+ (b +:+ c).
Proof. induction a; simpl; congruence. Qed.

Lemma stripPrefix_spec p s r : JS.stripPrefix p s = Some r <-> s = p +:+ r.
Proof.
  revert s. induction p as [|a p IH]; intros s; simpl.
  - split; congruence.
  - destruct s as [|b s]; [split; discriminate|].
    destruct (Ascii.eqb_spec a b) as [->|Hne].
    + rewrite IH. split; congruence.
    + split; [discriminate|]. intros [= ? ?]. congruence.
Qed.

Lemma includes_spec s q : JS.includes s q = true <-> Contains s q.
Proof.
  induction s as [|c s IH]; simpl.
  - destruct (JS.stripPrefix q EmptyString) eqn:E.
    + apply stripPrefix_spec in E. split; [|done]. intros _. exists EmptyString, s. done.
    + split; [discriminate|]. intros (pre & post & H).
      destruct pre; simpl in H; [|discriminate].
      apply stripPrefix_spec in H. congruence.
  - destruct (JS.stripPrefix q (String c s)) eqn:E.
    + apply stripPrefix_spec in E. split; [|done]. intros _. exists EmptyString, s0. done.
    + rewrite IH. split.
      * intros (pre & post & ->). exists (String c pre), post. done.
      * intros (pre & post & H). destruct pre as [|c' pre]; simpl in H.
        -- apply stripPrefix_spec in H. congruence.
        -- injection H as -> ->. exists pre, post. done.
Qed.

(** *** The greedy digit run *)





(** *** The anchored match and the leftmost match *)









(** *** Choosing a format *)

Lemma find_FirstSuch {A} (p : A -> bool) (P : A -> Prop) (l : list A) (x : A) :
  (forall y, p y = true <-> P y) ->
  List.find p l = Some x <-> FirstSuch P l x.
Proof.
  intros Hp. induction l as [|a l IH]; simpl.
  - split; [done|]. intros (l1 & l2 & H & _). by destruct l1.
  - destruct (p a) eqn:E.
    + split.
      * intros [= ->]. exists [], l. split_and!; [done | by apply Hp | done].
      * intros (l1 & l2 & H & Hx & Hl1). destruct l1 as [|b l1]; simpl in H.
        -- congruence.
        -- injection H as <- _. exfalso. apply (Hl1 a); [by left | by apply Hp].
    + rewrite IH. split.
      * intros (l1 & l2 & -> & Hx & Hl1). exists (a :: l1), l2. split_and!; [done..|].
        intros y [<- | Hy]; [|by apply Hl1]. rewrite <- Hp. congruence.
      * intros (l1 & l2 & H & Hx & Hl1). destruct l1 as [|b l1]; simpl in H.
        -- injection H as -> _. apply Hp in Hx. congruence.
        -- injection H as <- ->. exists l1, l2. split_and!; [done..|].
           intros y Hy. apply Hl1. by right.
Qed.

Lemma find_None {A} (p : A -> bool) (P : A -> Prop) (l : list A) :
  (forall y, p y = true <-> P y) ->
  List.find p l = None <-> forall y, In y l -> ~ P y.
Proof.
  intros Hp. split.
  - intros H y Hy HP. apply Hp in HP. pose proof (find_none _ _ H y Hy). congruence.
  - intros H. destruct (List.find p l) as [x|] eqn:E; [|done].
    apply find_some in E as [Hin Hx]. apply Hp in Hx. by apply H in Hx.
Qed.

Lemma isCombined_spec f : isCombined f = true <-> Combined f.
Proof. unfold isCombined, Combined. apply String.eqb_eq. Qed.

Lemma matchesQuality_spec q f : matchesQuality q f = true <-> QualityMatch q f.
Proof.
  unfold matchesQuality, QualityMatch. rewrite andb_true_iff, includes_spec, isCombined_spec.
  tauto.
Qed.

Lemma findQuality_first q fs f : findQuality q fs = Some f <-> FirstSuch (QualityMatch q) fs f.
Proof. apply find_FirstSuch, matchesQuality_spec. Qed.

Lemma findQuality_None q fs : findQuality q fs = None <-> forall f, In f fs -> ~ QualityMatch q f.
Proof. apply find_None, matchesQuality_spec. Qed.

(** C9. Quality matching is substring containment, not equality: the
    format found for a requested quality [q] is exactly the first combined
    audio+video format whose label contains [q] as a contiguous substring;
    a request for 720p is served by a format labelled 720p60, and 0p by the
    first combined format since it occurs in its label; the variant playlist
    is answered when there is such a format and refused otherwise. *)
Theorem quality_match_is_containment :
  (forall q fs f, findQuality q fs = Some f <-> FirstSuch (QualityMatch q) fs f)
  /\ (forall q fs, findQuality q fs = None <-> forall f, In f fs -> ~ QualityMatch q f)
  /\ findQuality "720p" [fmt "video" "720p" "a"; fmt "video_with_audio" "720p60" "b"]
     = Some (fmt "video_with_audio" "720p60" "b")
  /\ findQuality "0p" [fmt "video_with_audio" "360p" "a"; fmt "video_with_audio" "720p" "b"]
     = Some (fmt "video_with_audio" "360p" "a")
  /\ (forall resolver videoId q w data w',
         resolver videoId w = (Ok data, w') ->
         variantPlaylist resolver videoId q w =
           (match findQuality q (formats data) with
            | Some _ => Send mpegurl (playlist (videoSegmentUri videoId q) (duration data))
            | None => Failure 500 "Format not available"
            end, w')).
Proof.
  split_and!.
  - apply findQuality_first.
  - apply findQuality_None.
  - reflexivity.
  - reflexivity.
  - intros resolver videoId q w data w' H. unfold variantPlaylist, handler, bind.
    rewrite H. by destruct (findQuality q (formats data)).
Qed.

(** *** The segment loop *)

Lemma append_nil_r (a : string) : a +:+ EmptyString = a.
Proof. induction a; simpl; congruence. Qed.

Lemma segmentLoop_unroll uri d n fuel i acc :
  i + Z.of_nat fuel = n ->
  segmentLoop uri d n fuel i acc
  = acc +:+ joinAll (map (segmentEntry uri d) (seqZ i (Z.of_nat fuel))).
Proof.
  revert i acc. induction fuel as [|fuel IH]; intros i acc Hn.
  - simpl. by rewrite append_nil_r.
  - cbn [segmentLoop]. assert ((i <? n) = true) as -> by (apply Z.ltb_lt; lia).
    rewrite IH by lia. rewrite (seqZ_cons i (Z.of_nat (S fuel))) by lia.
    replace (Z.pred (Z.of_nat (S fuel))) with (Z.of_nat fuel) by lia.
    cbn [map joinAll fold_right]. by rewrite append_assoc.
Qed.

Lemma playlist_entries uri d :
  playlist uri (Some d)
  = playlistHeader +:+ joinAll (map (segmentEntry uri d) (seqZ 0 (numSegments d))) +:+ endList.
Proof.
  unfold playlist. destruct (Z.le_gt_cases (numSegments d) 0) as [Hn|Hn].
  - replace (Z.to_nat (numSegments d)) with 0%nat by lia.
    rewrite seqZ_nil by done. reflexivity.
  - rewrite segmentLoop_unroll by lia. rewrite Z2Nat.id by lia. by rewrite append_assoc.
Qed.

(** *** Arithmetic of the last segment *)

Lemma numSegments_bounds (d : Q) :
  (inject_Z (numSegments d - 1) * 10 < d /\ d <= inject_Z (numSegments d) * 10)%Q.
Proof.
  unfold numSegments, segmentDuration.
  pose proof (Qle_ceiling (d / inject_Z 10)) as Hle.
  pose proof (Qceiling_lt (d / inject_Z 10)) as Hlt.
  set (n := Qceiling (d / inject_Z 10)) in *.
  assert (d == (d / inject_Z 10) * 10)%Q as Hd by (field; done).
  split.
  - rewrite Hd at 1. apply Qmult_lt_compat_r; done.
  - rewrite Hd at 1. apply Qmult_le_compat_r; done.
Qed.


Lemma Qfloor_half (m : Z) : Qfloor (inject_Z m + (1 # 2)) = m.
Proof.
  unfold Qfloor, Qplus, inject_Z. cbn [Qnum Qden]. 
  rewrite Z.mul_1_l. change (Z.pos (1 * 2)) with 2.
  replace (m * 2 + 1) with (1 + m * 2) by lia. rewrite Z.div_add by done. reflexivity.
Qed.

Lemma toFixed3_below (x : Q) :
  (0 <= x)%Q -> (x < inject_Z (10 ^ 21))%Q ->
  JS.toFixed3 x
  = JS.showZ (Qfloor (x * 1000 + (1 # 2)) / 1000) +:+ "."
    +:+ JS.pad3 (Qfloor (x * 1000 + (1 # 2)) mod 1000).
Proof.
  intros H0 H1. unfold JS.toFixed3.
  destruct (Qlt_le_dec x 0) as [Hneg|_]; [exfalso; lra|].
  assert (Qabs x == x)%Q as Ha by (by apply Qabs_pos).
  destruct (Qle_bool (inject_Z (10 ^ 21)) (Qabs x)) eqn:E.
  - exfalso. apply Qle_bool_iff in E. rewrite Ha in E. lra.
  - cbv zeta.
    assert (Qfloor (Qabs x * 1000 + (1 # 2)) = Qfloor (x * 1000 + (1 # 2))) as ->
      by (apply Qfloor_comp; by rewrite Ha).
    reflexivity.
Qed.



(** The numeral 1.0005 of a JSON document is read as the double just below
    it, and [toFixed(3)] prints 1.000. *)
Example numeral_read_as_double :
  (JS.number (10005 # 10000) < 10005 # 10000)%Q
  /\ fst (Index.variant demoId "720p"
            (fresh 0 (always (lasting (10005 # 10000) [item va "720p" farUrl]))))
     = Send mpegurl
         (playlistHeader
          +:+ "#EXTINF:1.000," +:+ nl +:+ "/stream/tTPk-fSx5gc/segment0_720p.ts" +:+ nl
          +:+ endList).
Proof. split; [reflexivity | vm_compute; reflexivity]. Qed.




(** The same scenario through the resolver and the handler of src/index.js. *)
Example scenario_variant_125 :
  fst (Index.variant "tTPk-fSx5gc" "720p" (fresh 0 (always (payload [item va "720p" farUrl]))))
  = Send mpegurl
      (playlistHeader
       +:+ joinAll (map (segmentEntry (videoSegmentUri "tTPk-fSx5gc" "720p") 125) (seqZ 0 13))
       +:+ endList).
Proof. vm_compute. reflexivity. Qed.

(** *** The master playlist *)

Lemma master_fold videoId fs qs acc :
  fold_left (masterStep videoId fs) qs acc
  = acc +:+ joinAll (map (variantEntry videoId) (List.filter (offered fs) qs)).
Proof.
  revert acc. induction qs as [|q qs IH]; intros acc; cbn [fold_left List.filter].
  - simpl. by rewrite append_nil_r.
  - rewrite IH. unfold masterStep, offered. destruct (findQuality q fs); [|done].
    cbn [map joinAll fold_right]. by rewrite append_assoc.
Qed.

(** C10. The master playlist is its header followed by one entry for each
    of 360p, 480p, 720p, 1080p that some combined format matches, in that
    order, and nothing else; the RESOLUTION of an entry is NxN with N the
    digits of the quality: 360x360, 480x480, 720x720, 1080x1080. *)
Theorem master_resolution_square :
  (forall videoId fs,
      masterManifest videoId fs
      = masterHeader videoId
        +:+ joinAll (map (variantEntry videoId)
                         (List.filter (offered fs) ["360p"; "480p"; "720p"; "1080p"])))
  /\ (forall q, In q videoQualities ->
        q = JS.takeDigits q +:+ "p"
        /\ resolution q = JS.takeDigits q +:+ "x" +:+ JS.takeDigits q
        /\ forall videoId,
            variantEntry videoId q
            = "#EXT-X-STREAM-INF:BANDWIDTH=" +:+ JS.showZ (bandwidth q)
              +:+ ",RESOLUTION=" +:+ JS.takeDigits q +:+ "x" +:+ JS.takeDigits q
              +:+ ",CODECS=" +:+ dq +:+ "avc1.42e01e,mp4a.40.2" +:+ dq
              +:+ ",AUDIO=" +:+ dq +:+ "audio" +:+ dq +:+ nl
              +:+ "/stream/" +:+ videoId +:+ "/" +:+ q +:+ ".m3u8" +:+ nl)
  /\ resolution "720p" = "720x720"
  /\ (forall fs q, offered fs q = true <-> exists f, In f fs /\ QualityMatch q f).
Proof.
  split_and!.
  - intros videoId fs. apply master_fold.
  - intros q Hq. unfold videoQualities in Hq. simpl in Hq.
    destruct Hq as [<- | [<- | [<- | [<- | []]]]]; (split_and!; [reflexivity | reflexivity |]);
      intros videoId; unfold variantEntry, streamInf;
      rewrite !append_assoc; reflexivity.
  - reflexivity.
  - intros fs q. unfold offered. destruct (findQuality q fs) as [f|] eqn:E.
    + split; [|done]. intros _. apply findQuality_first in E as (l1 & l2 & -> & Hm & _).
      exists f. split; [|done]. apply in_or_app. right. by left.
    + split; [done|]. intros (f & Hin & Hm). exfalso.
      by apply (proj1 (findQuality_None q fs) E f).
Qed.

(** *** The cache and the upstream call *)

Lemma cacheGet_live {V} (w : World V) key v : Live w key v -> cacheGet key w = (Ok (Some v), w).
Proof.
  intros (t & Hk & Ht). unfold cacheGet. rewrite Hk.
  destruct Ht as [-> | Ht]; [done|].
  assert ((t <? clock w) = false) as -> by (apply Z.ltb_ge; lia).
  by rewrite andb_false_r.
Qed.

Lemma cacheGet_dead {V} (w : World V) key :
  (~ exists v, Live w key v) ->
  exists w1, cacheGet key w = (Ok None, w1)
             /\ clock w1 = clock w /\ api w1 = api w
             /\ requests w1 = requests w /\ spawned w1 = spawned w.
Proof.
  intros Hdead. unfold cacheGet. destruct (cache w !! key) as [[v t]|] eqn:Hk.
  - destruct (negb (t =? 0) && (t <? clock w)) eqn:E.
    + eexists. split; [reflexivity|]. done.
    + exfalso. apply Hdead. exists v, t. split; [done|].
      apply andb_false_iff in E as [E | E].
      * left. apply negb_false_iff, Z.eqb_eq in E. done.
      * right. apply Z.ltb_ge in E. lia.
  - eexists. split; [reflexivity|]. done.
Qed.

Lemma cacheGet_Some_live {V} (w w1 : World V) key v :
  cacheGet key w = (Ok (Some v), w1) -> Live w key v /\ w1 = w.
Proof.
  unfold cacheGet. destruct (cache w !! key) as [[v' t]|] eqn:Hk; [|done].
  destruct (negb (t =? 0) && (t <? clock w)) eqn:E; [done|].
  intros [= -> ->]. split; [|done]. exists t. split; [done|].
  apply andb_false_iff in E as [E | E].
  - left. apply negb_false_iff, Z.eqb_eq in E. done.
  - right. apply Z.ltb_ge in E. lia.
Qed.

(** [fetchYouTubeData] makes exactly one upstream call, whatever it returns,
    and touches neither the cache nor the processes. *)
Lemma fetch_effect {V} (u : string) (w : World V) :
  requests (snd (fetchYouTubeData u w)) = requests w ++ [u]
  /\ cache (snd (fetchYouTubeData u w)) = cache w
  /\ spawned (snd (fetchYouTubeData u w)) = spawned w
  /\ api (snd (fetchYouTubeData u w)) = api w
  /\ clock w <= clock (snd (fetchYouTubeData u w)).
Proof.
  unfold fetchYouTubeData, tryCatch, bind, axiosGet, throw, ret.
  destruct (api w (length (requests w)) u) as [dt [msg | [d|]]]; simpl.
  - split_and!; [done..|lia].
  - destruct (p_items d), (p_title d) as [[|]|]; simpl; (split_and!; [done..|lia]).
  - split_and!; [done..|lia].
Qed.

(** What [getVideoFormats] of src/index.js does once the cache gave nothing. *)
Lemma index_refresh videoId (w : World VideoData) :
  JS.matchVideoId videoId = true ->
  Index.getVideoFormats videoId true w
  = match fetchYouTubeData (watchUrl videoId) w with
    | (Ok data, w') => (Ok (withValidFormats data),
                        mkWorld (clock w')
                                (<[formatsKey videoId := (withValidFormats data, clock w' + Index.stdTTL * 1000)]> (cache w'))
                                (api w') (requests w') (spawned w'))
    | (Throw e, w') => (Throw e, w')
    end.
Proof.
  intros Hid. unfold Index.getVideoFormats. rewrite Hid. cbn [negb].
  unfold bind, ret. destruct (fetchYouTubeData (watchUrl videoId) w) as [[data|e] w']; reflexivity.
Qed.

Lemma index_resolve_miss videoId (w w1 : World VideoData) :
  JS.matchVideoId videoId = true ->
  cacheGet (formatsKey videoId) w = (Ok None, w1) ->
  Index.getVideoFormats videoId false w = Index.getVideoFormats videoId true w1.
Proof.
  intros Hid Hget. unfold Index.getVideoFormats. rewrite Hid. cbn [negb].
  fold (formatsKey videoId). unfold bind at 1. rewrite Hget. reflexivity.
Qed.

Lemma index_resolve_hit videoId (w : World VideoData) v :
  JS.matchVideoId videoId = true ->
  Live w (formatsKey videoId) v ->
  Index.getVideoFormats videoId false w = (Ok v, w).
Proof.
  intros Hid Hlive. unfold Index.getVideoFormats. rewrite Hid. cbn [negb].
  fold (formatsKey videoId). unfold bind at 1. by rewrite (cacheGet_live _ _ _ Hlive).
Qed.

Lemma snoc_neq {A} (l : list A) (x : A) : l ++ [x] <> l.
Proof.
  intros H. apply (f_equal length) in H. rewrite length_app in H. simpl in H. lia.
Qed.


(** One upstream call for two resolves made within five hours, two when
    the second comes later. *)
Example second_resolve_within_ttl :
  requests (snd (Index.getVideoFormats demoId false scenario)) = [watchUrl demoId]
  /\ requests (snd (Index.getVideoFormats demoId false
                      (setClock 18000000 (snd (Index.getVideoFormats demoId false scenario)))))
     = [watchUrl demoId]
  /\ requests (snd (Index.getVideoFormats demoId false
                      (setClock 18000001 (snd (Index.getVideoFormats demoId false scenario)))))
     = [watchUrl demoId; watchUrl demoId].
Proof. vm_compute. repeat split. Qed.

(** [getVideoUrl] of the single-quality servers asks more of a cached entry:
    its URL must not be expired either. *)
Lemma cachedOrResolve_hit buffer ttl videoId q (w : World UrlInfo) c u :
  Live w (videoId +:+ "_" +:+ q) c ->
  u_url c = Some u ->
  isUrlExpiredAt buffer (clock w) u = false ->
  cachedOrResolve buffer ttl videoId q w = (Ok c, w).
Proof.
  intros Hlive Hu Hfresh. unfold cachedOrResolve. unfold bind at 1.
  rewrite (cacheGet_live _ _ _ Hlive). unfold isUrlExpired, bind, now, ret.
  rewrite Hu. cbv beta iota. by rewrite Hfresh.
Qed.

Lemma cachedOrResolve_expired buffer ttl videoId q (w : World UrlInfo) c u :
  Live w (videoId +:+ "_" +:+ q) c ->
  u_url c = Some u ->
  isUrlExpiredAt buffer (clock w) u = true ->
  requests (snd (cachedOrResolve buffer ttl videoId q w)) = requests w ++ [watchUrl videoId].
Proof.
  intros Hlive Hu Hexp. unfold cachedOrResolve. unfold bind at 1.
  rewrite (cacheGet_live _ _ _ Hlive). unfold isUrlExpired, now, ret.
  rewrite Hu. unfold bind at 1. unfold bind at 1. cbv beta iota. rewrite Hexp.
  unfold resolveUrl, bind. destruct (fetch_effect (watchUrl videoId) w) as (Hr & _).
  destruct (fetchYouTubeData (watchUrl videoId) w) as [[data|e] w']; [|done].
  by destruct (findQualityOrFirst q (formats data)).
Qed.

Lemma resolveUrl_never_quiet ttl videoId q key (w : World UrlInfo) :
  requests (snd (resolveUrl ttl videoId q key w)) = requests w ++ [watchUrl videoId].
Proof.
  unfold resolveUrl, bind.
  pose proof (fetch_effect (watchUrl videoId) w) as (Hr & _).
  destruct (fetchYouTubeData (watchUrl videoId) w) as [[d|e] w']; [|done].
  by destruct (findQualityOrFirst q (formats d)).
Qed.

Lemma cacheGet_miss {V} (w : World V) key :
  (~ exists v, Live w key v) ->
  exists w1, cacheGet key w = (Ok None, w1)
             /\ clock w1 = clock w /\ api w1 = api w
             /\ requests w1 = requests w /\ spawned w1 = spawned w
             /\ cache w1 !! key = None.
Proof.
  intros Hdead. unfold cacheGet. destruct (cache w !! key) as [[v t]|] eqn:Hk.
  - destruct (negb (t =? 0) && (t <? clock w)) eqn:E.
    + eexists. split; [reflexivity|]. cbn. split_and!; try done. apply lookup_delete_eq.
    + exfalso. apply Hdead. exists v, t. split; [done|].
      apply andb_false_iff in E as [E | E].
      * left. apply negb_false_iff, Z.eqb_eq in E. done.
      * right. apply Z.ltb_ge in E. lia.
  - eexists. split; [reflexivity|]. done.
Qed.

Lemma fetch_answers {V} (w : World V) u dt d items t :
  Answers w u dt d items t ->
  fetchYouTubeData u w
  = (Ok (resolvedFrom d items t),
     mkWorld (clock w + Z.of_N dt) (cache w) (api w) (requests w ++ [u]) (spawned w)).
Proof.
  intros (Ha & Hi & Ht & Hne). unfold fetchYouTubeData, tryCatch, bind, axiosGet, ret.
  rewrite Ha. cbn [fmap option_fmap option_map parsed p_items p_title p_thumbnail p_duration].
  rewrite Hi, Ht. destruct t as [|c r]; [done|]. reflexivity.
Qed.

Lemma fetch_refuses {V} (w : World V) u :
  (forall dt d items t, ~ Answers w u dt d items t) ->
  exists e, fst (fetchYouTubeData u w) = Throw e.
Proof.
  intros Hno. unfold fetchYouTubeData, tryCatch, bind, axiosGet, ret, throw.
  destruct (api w (length (requests w)) u) as [dt [msg | [d|]]] eqn:Ha;
    cbn [fst snd fmap option_fmap option_map parsed p_items p_title p_thumbnail];
    [by eexists | | by eexists].
  destruct (p_items d) as [items|] eqn:Hi; [|by eexists].
  destruct (p_title d) as [[|c r]|] eqn:Ht; [by eexists | | by eexists].
  exfalso. by apply (Hno dt d items (String c r)).
Qed.

(** C5, refuted as stated for [getVideoUrl] of part_001: the key has a live
    entry, cached for five hours, but its URL dies within five minutes, and
    the resolver calls upstream. *)
Lemma live_entry_still_goes_upstream :
  JS.matchVideoId demoId = true
  /\ Live (cachedUrl (demoId +:+ "_720p") soonUrl 18000000 9800000) (demoId +:+ "_720p")
          {| u_url := Some soonUrl; u_title := "T"; u_duration := Some 125%Q |}
  /\ requests (cachedUrl (demoId +:+ "_720p") soonUrl 18000000 9800000) = []
  /\ requests (snd (Single.getVideoUrl demoId "720p"
                      (cachedUrl (demoId +:+ "_720p") soonUrl 18000000 9800000)))
     = [watchUrl demoId].
Proof.
  split; [reflexivity|]. split.
  - exists 18000000. split; [apply lookup_singleton_eq | right; cbn; lia].
  - split; [reflexivity|]. vm_compute. reflexivity.
Qed.

(** C5, amended. With a valid identifier: [getVideoFormats] of src/index.js
    with [forceRefresh] false returns the cached entry and leaves the world
    as it is exactly when the key has a live entry; [getVideoUrl] of
    part_001 does so when the key has a live entry whose URL is not
    expired, and calls upstream when that URL is expired. With no live
    entry each calls upstream once; when upstream answers with a document
    that has items and a title, what is made of that document is returned
    and stored under the key, stamped with the time of the answer plus five
    hours (for [getVideoUrl], when a combined format is found); when
    upstream does not, the resolver of src/index.js throws and stores
    nothing. After a successful resolve of src/index.js, every resolve made
    while the entry lives returns the same value without an upstream
    call. *)
Theorem resolve_hits_live_cache (videoId : string) (w : World VideoData) :
  JS.matchVideoId videoId = true ->
  (forall v, Live w (formatsKey videoId) v -> Index.getVideoFormats videoId false w = (Ok v, w))
  /\ (requests (snd (Index.getVideoFormats videoId false w)) = requests w
      <-> exists v, Live w (formatsKey videoId) v)
  /\ ((~ exists v, Live w (formatsKey videoId) v) ->
      requests (snd (Index.getVideoFormats videoId false w)) = requests w ++ [watchUrl videoId]
      /\ (forall dt d items t,
            Answers w (watchUrl videoId) dt d items t ->
            fst (Index.getVideoFormats videoId false w) = Ok (withValidFormats (resolvedFrom d items t))
            /\ cache (snd (Index.getVideoFormats videoId false w)) !! formatsKey videoId
               = Some (withValidFormats (resolvedFrom d items t),
                       clock w + Z.of_N dt + 18000 * 1000))
      /\ ((forall dt d items t, ~ Answers w (watchUrl videoId) dt d items t) ->
            (exists e, fst (Index.getVideoFormats videoId false w) = Throw e)
            /\ cache (snd (Index.getVideoFormats videoId false w)) !! formatsKey videoId = None))
  /\ (forall data w1,
        Index.getVideoFormats videoId false w = (Ok data, w1) ->
        exists t, cache w1 !! formatsKey videoId = Some (data, t)
                  /\ (t = 0 \/ clock w1 <= t)
                  /\ forall w2 : World VideoData,
                       cache w2 !! formatsKey videoId = Some (data, t) ->
                       clock w2 <= t ->
                       Index.getVideoFormats videoId false w2 = (Ok data, w2))
  /\ (forall q (w' : World UrlInfo),
        (forall c u, Live w' (videoId +:+ "_" +:+ q) c -> u_url c = Some u ->
            (isUrlExpiredAt Single.buffer (clock w') u = false ->
               Single.getVideoUrl videoId q w' = (Ok c, w'))
            /\ (isUrlExpiredAt Single.buffer (clock w') u = true ->
                  requests (snd (Single.getVideoUrl videoId q w'))
                  = requests w' ++ [watchUrl videoId]))
        /\ ((~ exists c, Live w' (videoId +:+ "_" +:+ q) c) ->
            requests (snd (Single.getVideoUrl videoId q w')) = requests w' ++ [watchUrl videoId]
            /\ forall dt d items t f,
                 Answers w' (watchUrl videoId) dt d items t ->
                 findQualityOrFirst q (map toFormat items) = Some f ->
                 fst (Single.getVideoUrl videoId q w')
                 = Ok {| u_url := url f; u_title := t; u_duration := JS.number <$> p_duration d |}
                 /\ cache (snd (Single.getVideoUrl videoId q w')) !! (videoId +:+ "_" +:+ q)
                    = Some ({| u_url := url f; u_title := t;
                               u_duration := JS.number <$> p_duration d |},
                            clock w' + Z.of_N dt + 18000 * 1000))).
Proof.
  intros Hid.
  assert (forall w1 : World VideoData,
             requests (snd (Index.getVideoFormats videoId true w1)) = requests w1 ++ [watchUrl videoId])
    as Hforced.
  { intros w1. rewrite (index_refresh _ _ Hid).
    destruct (fetch_effect (watchUrl videoId) w1) as (Hreq & _).
    by destruct (fetchYouTubeData (watchUrl videoId) w1) as [[data|e] w']. }
  split_and!.
  - intros v Hlive. by apply index_resolve_hit.
  - split.
    + intros Hreq. destruct (cacheGet (formatsKey videoId) w) as [[[v|]|e] w1] eqn:Hget.
      * apply cacheGet_Some_live in Hget as [Hlive _]. by exists v.
      * exfalso. rewrite (index_resolve_miss _ _ _ Hid Hget), Hforced in Hreq.
        assert (requests w1 = requests w) as Hr.
        { unfold cacheGet in Hget. destruct (cache w !! formatsKey videoId) as [[v t]|]; [|congruence].
          destruct (negb (t =? 0) && (t <? clock w)); [|done]. by injection Hget as <-. }
        rewrite Hr in Hreq. by apply snoc_neq in Hreq.
      * unfold cacheGet in Hget. destruct (cache w !! formatsKey videoId) as [[v t]|]; [|done].
        by destruct (negb (t =? 0) && (t <? clock w)).
    + intros [v Hlive]. by rewrite (index_resolve_hit _ _ _ Hid Hlive).
  - intros Hdead.
    destruct (cacheGet_miss w _ Hdead) as (w1 & Hget & Hc & Ha & Hr & Hs & Hk).
    rewrite (index_resolve_miss _ _ _ Hid Hget). split_and!.
    + by rewrite Hforced, Hr.
    + intros dt d items t (Hans & Hrest).
      assert (Answers w1 (watchUrl videoId) dt d items t) as Hans1.
      { split; [|done]. by rewrite Ha, Hr. }
      rewrite (index_refresh _ _ Hid), (fetch_answers _ _ _ _ _ _ Hans1). cbn [fst snd cache clock].
      split; [done|]. rewrite lookup_insert_eq, Hc. unfold Index.stdTTL. done.
    + intros Hno.
      assert (forall dt d items t, ~ Answers w1 (watchUrl videoId) dt d items t) as Hno1.
      { intros dt d items t (Hans & Hrest). apply (Hno dt d items t).
        split; [|done]. by rewrite <- Ha, <- Hr. }
      destruct (fetch_refuses w1 (watchUrl videoId) Hno1) as [e He].
      destruct (fetch_effect (watchUrl videoId) w1) as (_ & Hcache & _).
      rewrite (index_refresh _ _ Hid).
      destruct (fetchYouTubeData (watchUrl videoId) w1) as [[data|e'] w']; [done|].
      cbn [fst snd] in *. split; [by eexists|]. by rewrite Hcache.
  - intros data w1 Hrun.
    assert (exists t, cache w1 !! formatsKey videoId = Some (data, t) /\ (t = 0 \/ clock w1 <= t))
      as (t & Hk & Ht).
    { destruct (cacheGet (formatsKey videoId) w) as [[[v|]|e] w0] eqn:Hget.
      - apply cacheGet_Some_live in Hget as [Hlive _].
        rewrite (index_resolve_hit _ _ _ Hid Hlive) in Hrun. injection Hrun as <- <-.
        exact Hlive.
      - rewrite (index_resolve_miss _ _ _ Hid Hget), (index_refresh _ _ Hid) in Hrun.
        destruct (fetchYouTubeData (watchUrl videoId) w0) as [[raw|e] w']; [|done].
        injection Hrun as <- <-. eexists. split; [apply lookup_insert_eq|].
        right. simpl. unfold Index.stdTTL. lia.
      - unfold cacheGet in Hget. destruct (cache w !! formatsKey videoId) as [[v t]|]; [|done].
        by destruct (negb (t =? 0) && (t <? clock w)). }
    exists t. split_and!; [done..|].
    intros w2 Hk2 Hc2. apply index_resolve_hit; [done|].
    exists t. split; [done|]. lia.
  - intros q w'. unfold Single.getVideoUrl. rewrite Hid. cbn [negb]. split.
    + intros c u Hlive Hu. split; intros Hexp.
      * by apply cachedOrResolve_hit with (u := u).
      * by apply cachedOrResolve_expired with (c := c) (u := u).
    + intros Hdead.
      destruct (cacheGet_miss w' _ Hdead) as (w1 & Hget & Hc & Ha & Hr & Hs & Hk).
      assert (cachedOrResolve Single.buffer Single.stdTTL videoId q w'
              = resolveUrl Single.stdTTL videoId q (videoId +:+ "_" +:+ q) w1) as ->.
      { unfold cachedOrResolve. unfold bind at 1. by rewrite Hget. }
      split.
      * rewrite resolveUrl_never_quiet. by rewrite Hr.
      * intros dt d items t f (Hans & Hrest) Hf.
        assert (Answers w1 (watchUrl videoId) dt d items t) as Hans1.
        { split; [|done]. by rewrite Ha, Hr. }
        assert (resolveUrl Single.stdTTL videoId q (videoId +:+ "_" +:+ q) w1
                = (Ok {| u_url := url f; u_title := t; u_duration := JS.number <$> p_duration d |},
                   mkWorld (clock w1 + Z.of_N dt)
                     (<[videoId +:+ "_" +:+ q :=
                          ({| u_url := url f; u_title := t;
                              u_duration := JS.number <$> p_duration d |},
                           clock w1 + Z.of_N dt + Single.stdTTL * 1000)]> (cache w1))
                     (api w1) (requests w1 ++ [watchUrl videoId]) (spawned w1))) as ->.
        { unfold resolveUrl, bind. rewrite (fetch_answers _ _ _ _ _ _ Hans1).
          cbn [formats resolvedFrom]. by rewrite Hf. }
        cbn [fst snd cache]. split; [done|].
        rewrite lookup_insert_eq, Hc. unfold Single.stdTTL. done.
Qed.

(** At the start of the scenario nothing is cached: the first resolve goes
    upstream, returns what upstream answered and stores it for five
    hours. *)
Lemma first_resolve_goes_upstream :
  JS.matchVideoId demoId = true
  /\ requests (snd (Index.getVideoFormats demoId false scenario)) = requests scenario ++ [watchUrl demoId]
  /\ fst (Index.getVideoFormats demoId false scenario)
     = Ok (withValidFormats (resolvedFrom (payload [item va "720p" farUrl]) [item va "720p" farUrl] "T"))
  /\ cache (snd (Index.getVideoFormats demoId false scenario)) !! formatsKey demoId
     = Some (withValidFormats (resolvedFrom (payload [item va "720p" farUrl]) [item va "720p" farUrl] "T"),
             clock scenario + Z.of_N 0 + 18000 * 1000).
Proof.
  split; [reflexivity|].
  destruct (resolve_hits_live_cache demoId scenario eq_refl) as (_ & _ & Hmiss & _).
  destruct Hmiss as (Hreq & Hans & _).
  { intros (v & t & Hk & _). unfold scenario, fresh in Hk. cbn in Hk. by rewrite lookup_empty in Hk. }
  split; [exact Hreq|].
  apply (Hans 0%N (payload [item va "720p" farUrl]) [item va "720p" farUrl] "T").
  split_and!; done.
Defined.

(** *** Identifiers and segment numbers that are not checked *)

(** X1. The servers that check the identifier do so before anything else: no
    cache access, no upstream call, nothing spawned. *)
Lemma validating_servers_reject (videoId : string) :
  JS.matchVideoId videoId = false ->
  (forall force w, Index.getVideoFormats videoId force w = (Throw "Invalid YouTube video ID", w))
  /\ (forall w, Multi.getVideoFormats videoId w = (Throw "Invalid YouTube video ID", w))
  /\ (forall q w, Single.getVideoUrl videoId q w = (Throw "Invalid YouTube video ID", w))
  /\ (forall w, Index.master videoId w = (Failure 500 "Invalid YouTube video ID", w))
  /\ (forall q w, Index.variant videoId q w = (Failure 500 "Invalid YouTube video ID", w))
  /\ (forall w, Index.audio videoId w = (Failure 500 "Invalid YouTube video ID", w))
  /\ (forall n q w, Index.videoSegment videoId n q w = (Failure 500 "Invalid YouTube video ID", w))
  /\ (forall n w, Index.audioSegment videoId n w = (Failure 500 "Invalid YouTube video ID", w))
  /\ (forall w, Multi.master videoId w = (Failure 500 "Invalid YouTube video ID", w))
  /\ (forall q w, Multi.variant videoId q w = (Failure 500 "Invalid YouTube video ID", w))
  /\ (forall w, Multi.audio videoId w = (Failure 500 "Invalid YouTube video ID", w))
  /\ (forall n q w, Multi.videoSegment videoId n q w = (Failure 500 "Invalid YouTube video ID", w))
  /\ (forall n w, Multi.audioSegment videoId n w = (Failure 500 "Invalid YouTube video ID", w))
  /\ (forall w, Single.master videoId w = (Failure 500 "Invalid YouTube video ID", w))
  /\ (forall w, Single.info videoId w = (Failure 500 "Invalid YouTube video ID", w))
  /\ (forall n w, Single.segment videoId n w
                  = (Failure 500 (if Single.badIndex (JS.parseInt n)
                                  then "Invalid segment number"
                                  else "Invalid YouTube video ID"), w)).
Proof.
  intros Hid.
  assert (forall force w, Index.getVideoFormats videoId force w = (Throw "Invalid YouTube video ID", w)) as Hi
    by (intros; unfold Index.getVideoFormats; by rewrite Hid).
  assert (forall w, Multi.getVideoFormats videoId w = (Throw "Invalid YouTube video ID", w)) as Hm
    by (intros; unfold Multi.getVideoFormats; by rewrite Hid).
  assert (forall q w, Single.getVideoUrl videoId q w = (Throw "Invalid YouTube video ID", w)) as Hs
    by (intros; unfold Single.getVideoUrl; by rewrite Hid).
  split_and!; try done; intros;
    unfold Index.master, Index.variant, Index.audio, Index.videoSegment, Index.audioSegment,
      Multi.master, Multi.variant, Multi.audio, Multi.videoSegment, Multi.audioSegment,
      Single.master, Single.info, Single.segment,
      masterPlaylist, variantPlaylist, audioPlaylist, handler, bind;
    rewrite ?Hi, ?Hm, ?Hid; try done.
  by destruct (Single.badIndex (JS.parseInt n)).
Qed.

(** C6. At the identifier of the specification's own scenario, which the
    grammar rejects, GET /api/info of the server of part_000 goes to the
    upstream API and answers with what it got. *)
Theorem legacy_info_bad_id_calls_upstream :
  JS.matchVideoId "bad id!" = false
  /\ fst (Legacy.info "bad id!" scenario1)
     = Json {| u_url := Some farUrl; u_title := "T"; u_duration := Some 125%Q |}
  /\ requests (snd (Legacy.info "bad id!" scenario1)) = ["https://www.youtube.com/watch?v=bad id!"]
  /\ fst (Single.info "bad id!" scenario1) = Failure 500 "Invalid YouTube video ID"
  /\ requests (snd (Single.info "bad id!" scenario1)) = [].
Proof. vm_compute. auto. Qed.

(** The server of part_001 refuses a bad segment number before anything else. *)
Lemma single_segment_rejects_bad_index (videoId segNum : string) (w : World UrlInfo) :
  Single.badIndex (JS.parseInt segNum) = true ->
  Single.segment videoId segNum w = (Failure 500 "Invalid segment number", w).
Proof. intros H. unfold Single.segment, handler. by rewrite H. Qed.

(** C8. In src/index.js a segment number that is not a number, or that is
    negative, is not refused: formats are resolved and the process is
    spawned with a start time of NaN or of -10 seconds, for the audio
    segments and for the video segments alike. *)
Theorem index_segment_bad_index_spawns :
  JS.parseInt "abc" = None /\ JS.parseInt "-1" = Some (-1)
  /\ fst (Index.audioSegment demoId "abc" audioOnly)
     = Stream "audio/aac" (Index.ffmpegArgs None 10 farUrl true)
  /\ requests (snd (Index.audioSegment demoId "abc" audioOnly)) = [watchUrl demoId]
  /\ spawned (snd (Index.audioSegment demoId "abc" audioOnly))
     = [Index.ffmpegArgs None 10 farUrl true]
  /\ firstn 5 (Index.ffmpegArgs None 10 farUrl true)
     = ["-hide_banner"; "-loglevel"; "error"; "-ss"; "NaN"]
  /\ spawned (snd (Index.audioSegment demoId "-1" audioOnly))
     = [Index.ffmpegArgs (Some (-10)) 10 farUrl true]
  /\ firstn 5 (Index.ffmpegArgs (Some (-10)) 10 farUrl true)
     = ["-hide_banner"; "-loglevel"; "error"; "-ss"; "-10"]
  /\ spawned (snd (Index.videoSegment demoId "abc" "720p" scenario))
     = [Index.ffmpegArgs None 10 farUrl false]
  /\ spawned (snd (Index.videoSegment demoId "-1" "720p" scenario))
     = [Index.ffmpegArgs (Some (-10)) 10 farUrl false]
  /\ fst (Single.segment demoId "abc" scenario1) = Failure 500 "Invalid segment number"
  /\ requests (snd (Single.segment demoId "-1" scenario1)) = []
  /\ spawned (snd (Single.segment demoId "-1" scenario1)) = [].
Proof. vm_compute. repeat split. Qed.

(** *** Selection with and without fallback *)





(** *** The refresh of an expired URL *)

Lemma someExpired_spec (fs : list Format) (w : World VideoData) :
  (forall f, In f fs -> exists u, url f = Some u) ->
  Multi.someExpired fs w
  = (Ok (existsb (fun f => match url f with
                           | Some u => isUrlExpiredAt Multi.buffer (clock w) u
                           | None => false
                           end) fs), w).
Proof.
  induction fs as [|f fs IH]; intros Hu; [done|].
  destruct (Hu f) as [u Hf]; [by left|]. cbn [Multi.someExpired existsb].
  unfold bind at 1. rewrite Hf. unfold isUrlExpired, bind, now, ret.
  destruct (isUrlExpiredAt Multi.buffer (clock w) u); [done|].
  rewrite IH; [done|]. intros g Hg. apply Hu. by right.
Qed.

(** C1. The master playlist of src/index.js was served at instant 0, when
    the audio track was labelled 128k and its URL was good for 10000 s; at
    9800 s audio segment 3 is asked. The cached URL is expired, [runFFmpeg]
    forces a resolution, and upstream returns the audio track, now
    labelled 129k, with a URL good for long; the re-selection looks for the
    old label, finds nothing, and the process is started on the expired
    URL. On the same cache and upstream, part_002 starts it on the fresh
    URL. The video segment handler does the same when a combined format is
    relabelled from 720p to 720p60. *)
Theorem stale_url_reaches_ffmpeg :
  fst (Index.audioSegment demoId "3" staleAudioWorld)
  = Stream "audio/aac" (Index.ffmpegArgs (Some 30) 10 soonUrl true)
  /\ spawned (snd (Index.audioSegment demoId "3" staleAudioWorld))
     = [Index.ffmpegArgs (Some 30) 10 soonUrl true]
  /\ isUrlExpiredAt Index.buffer (clock (snd (Index.audioSegment demoId "3" staleAudioWorld))) soonUrl
     = true
  /\ requests staleAudioWorld = [watchUrl demoId]
  /\ requests (snd (Index.audioSegment demoId "3" staleAudioWorld))
     = [watchUrl demoId; watchUrl demoId]
  /\ fst (Index.getVideoFormats demoId false (snd (Index.audioSegment demoId "3" staleAudioWorld)))
     = Ok {| title := "T"; thumbnail := None; duration := Some 125%Q;
             formats := [fmt "audio" "129k" farUrl] |}
  /\ findAudio [fmt "audio" "129k" farUrl] = Some (fmt "audio" "129k" farUrl)
  /\ isUrlExpiredAt Index.buffer (clock (snd (Index.audioSegment demoId "3" staleAudioWorld))) farUrl
     = false
  /\ fst (Multi.audioSegment demoId "3" staleAudioWorld)
     = Stream "audio/aac" (Multi.ffmpegArgs (Some 30) 10 farUrl true)
  /\ fst (Index.videoSegment demoId "0" "720p" staleWorld)
     = Stream "video/mp2t" (Index.ffmpegArgs (Some 0) 10 soonUrl false)
  /\ findQuality "720p" [fmt va "720p60" farUrl] = Some (fmt va "720p60" farUrl)
  /\ fst (Multi.videoSegment demoId "0" "720p" staleWorld)
     = Stream "video/mp2t" (Multi.ffmpegArgs (Some 0) 10 farUrl false).
Proof. vm_compute. repeat split. Qed.

(** What [runFFmpeg] of src/index.js does, case by case. A URL that is not
    expired goes to the process as it is, with no upstream call. An expired
    one triggers one forced resolution, cache bypassed and result stored;
    if that fails nothing is spawned; otherwise the process gets the URL of
    the first refreshed format with the same label and type, and the one
    it had when there is none. In part_002 the resolver itself calls
    upstream again as soon as one cached URL is expired. *)
Lemma runFFmpeg_case_by_case :
  (forall videoId format u startTime isAudio (w : World VideoData),
      url format = Some u ->
      isUrlExpiredAt Index.buffer (clock w) u = false ->
      Index.runFFmpeg videoId format startTime 10 isAudio w
      = (Ok (Stream (contentType isAudio) (Index.ffmpegArgs startTime 10 u isAudio)),
         spawnedWith (Index.ffmpegArgs startTime 10 u isAudio) w))
  /\ (forall videoId format u startTime isAudio (w w' : World VideoData) e,
      JS.matchVideoId videoId = true ->
      url format = Some u ->
      isUrlExpiredAt Index.buffer (clock w) u = true ->
      fetchYouTubeData (watchUrl videoId) w = (Throw e, w') ->
      Index.runFFmpeg videoId format startTime 10 isAudio w = (Throw e, w')
      /\ spawned w' = spawned w)
  /\ (forall videoId format u u' startTime isAudio (w w' : World VideoData) data,
      JS.matchVideoId videoId = true ->
      url format = Some u ->
      isUrlExpiredAt Index.buffer (clock w) u = true ->
      fetchYouTubeData (watchUrl videoId) w = (Ok data, w') ->
      url (reselected format (withValidFormats data)) = Some u' ->
      Index.runFFmpeg videoId format startTime 10 isAudio w
      = (Ok (Stream (contentType isAudio) (Index.ffmpegArgs startTime 10 u' isAudio)),
         spawnedWith (Index.ffmpegArgs startTime 10 u' isAudio) (stored videoId data w'))
      /\ requests w' = requests w ++ [watchUrl videoId])
  /\ (forall videoId c (w : World VideoData),
      JS.matchVideoId videoId = true ->
      Live w (formatsKey videoId) c ->
      (forall f, In f (formats c) -> exists u, url f = Some u) ->
      (exists f u, In f (formats c) /\ url f = Some u
                   /\ isUrlExpiredAt Multi.buffer (clock w) u = true) ->
      Multi.getVideoFormats videoId w = Multi.refresh videoId (formatsKey videoId) w
      /\ requests (snd (Multi.getVideoFormats videoId w)) = requests w ++ [watchUrl videoId]).
Proof.
  split_and!.
  - intros videoId format u startTime isAudio w Hu Hfresh.
    unfold Index.runFFmpeg, Index.refreshIfExpired, isUrlExpired, bind, now, ret, argString, spawn.
    rewrite Hu. cbv beta iota. rewrite Hfresh. rewrite Hu. by destruct isAudio.
  - intros videoId format u startTime isAudio w w' e Hid Hu Hexp Hf. split.
    + unfold Index.runFFmpeg, Index.refreshIfExpired, isUrlExpired, now, ret.
      rewrite Hu. unfold bind. cbv beta iota. rewrite Hexp.
      rewrite (index_refresh _ _ Hid), Hf. done.
    + destruct (fetch_effect (watchUrl videoId) w) as (_ & _ & Hs & _). by rewrite Hf in Hs.
  - intros videoId format u u' startTime isAudio w w' data Hid Hu Hexp Hf Hu'. split.
    + unfold Index.runFFmpeg, Index.refreshIfExpired, isUrlExpired, now, ret.
      rewrite Hu. unfold bind. cbv beta iota. rewrite Hexp.
      rewrite (index_refresh _ _ Hid), Hf. unfold reselected in Hu'.
      destruct (List.find (Index.sameTrack format) (formats (withValidFormats data)));
        unfold argString, spawn; rewrite Hu'; by destruct isAudio.
    + destruct (fetch_effect (watchUrl videoId) w) as (Hr & _). by rewrite Hf in Hr.
  - intros videoId c w Hid Hlive Hurls (f & u & Hin & Hu & Hexp).
    assert (Multi.getVideoFormats videoId w = Multi.refresh videoId (formatsKey videoId) w) as Heq.
    { unfold Multi.getVideoFormats. rewrite Hid. cbn [negb]. fold (formatsKey videoId).
      unfold bind at 1. rewrite (cacheGet_live _ _ _ Hlive).
      unfold bind at 1. rewrite (someExpired_spec _ _ Hurls).
      assert (existsb (fun f => match url f with
                                | Some u => isUrlExpiredAt Multi.buffer (clock w) u
                                | None => false
                                end) (formats c) = true) as ->; [|done].
      apply existsb_exists. exists f. by rewrite Hu. }
    split; [done|]. rewrite Heq. unfold Multi.refresh, bind.
    destruct (fetch_effect (watchUrl videoId) w) as (Hr & _).
    by destruct (fetchYouTubeData (watchUrl videoId) w) as [[data|e] w'].
Qed.

(** When upstream keeps the label, the expired URL is replaced. *)
Lemma refresh_replaces_url :
  Index.runFFmpeg demoId (fmt va "720p" soonUrl) (Some 0) 10 false
    (fresh 9800000 (always (payload [item va "720p" farUrl])))
  = (Ok (Stream (contentType false) (Index.ffmpegArgs (Some 0) 10 farUrl false)),
     spawnedWith (Index.ffmpegArgs (Some 0) 10 farUrl false)
       (stored demoId
          {| title := "T"; thumbnail := None; duration := Some 125%Q;
             formats := [fmt va "720p" farUrl] |}
          (mkWorld 9800000 ∅ (always (payload [item va "720p" farUrl])) [watchUrl demoId] [])))
  /\ isUrlExpiredAt Index.buffer 9800000 farUrl = false.
Proof.
  split; [|reflexivity].
  apply (proj1 (proj2 (proj2 runFFmpeg_case_by_case))) with (u := soonUrl); reflexivity.
Defined.

(** *** Disconnection *)

Module LifecycleFacts.
Import Lifecycle.

Lemma run_snoc sv es e : run sv (es ++ [e]) = step sv (run sv es) e.
Proof. unfold run. by rewrite fold_left_app. Qed.

Lemma run_app sv es es' : run sv (es ++ es') = fold_left (step sv) es' (run sv es).
Proof. unfold run. by rewrite fold_left_app. Qed.

Lemma emitClose_spawned sv r :
  Inv sv r -> stage r = Spawned -> closed r = false ->
  emitClose r
  = {| stage := Spawned; closed := true; onClose := [killSignal sv]; proc := proc r;
       signals := match proc r with Running => [killSignal sv] | _ => [] end |}.
Proof.
  intros (H1 & _ & H3) Hs Hc. destruct (H1 Hs) as [Hl _]. specialize (H3 Hc).
  unfold emitClose. rewrite Hc, Hl. cbn [fold_left]. unfold kill. cbn.
  rewrite Hs, H3. by destruct (proc r).
Qed.

Lemma emitClose_early sv r :
  Inv sv r -> stage r <> Spawned -> closed r = false ->
  emitClose r
  = {| stage := stage r; closed := true; onClose := []; proc := NotSpawned; signals := [] |}.
Proof.
  intros (_ & H2 & H3) Hs Hc. destruct (H2 Hs) as [Hl Hp]. specialize (H3 Hc).
  unfold emitClose. rewrite Hc, Hl. cbn [fold_left]. by rewrite Hp, H3.
Qed.

Lemma spawned_or_not r : stage r = Spawned \/ stage r <> Spawned.
Proof. destruct (stage r); [right | right | left | right]; done. Qed.

Lemma step_Inv sv r e : Inv sv r -> Inv sv (step sv r e).
Proof.
  intros HI. pose proof HI as (H1 & H2 & H3).
  destruct e as [[|] expired | [|] | | ]; cbn [step].
  - destruct (stage r) eqn:Hs; try done.
    destruct (H2 ltac:(congruence)) as [Hl Hp].
    destruct (expired && refreshes sv); unfold setStage, spawnAndListen, Inv; cbn;
      rewrite ?Hl; split_and!; try done; auto.
  - destruct (stage r) eqn:Hs; try done.
    destruct (H2 ltac:(congruence)) as [Hl Hp].
    unfold setStage, Inv; cbn. split_and!; try done; auto.
  - destruct (stage r) eqn:Hs; try done.
    destruct (H2 ltac:(congruence)) as [Hl Hp]. unfold spawnAndListen, Inv; cbn.
    rewrite Hl. split_and!; try done; auto.
  - destruct (stage r) eqn:Hs; try done.
    destruct (H2 ltac:(congruence)) as [Hl Hp].
    unfold setStage, Inv; cbn. split_and!; try done; auto.
  - destruct (closed r) eqn:Hc.
    + unfold emitClose. by rewrite Hc.
    + destruct (spawned_or_not r) as [Hs|Hs].
      * rewrite (emitClose_spawned sv r HI Hs Hc). unfold Inv; cbn.
        split_and!; try done; intros; try (split; [done|]); try (by apply H1).
      * rewrite (emitClose_early sv r HI Hs Hc). unfold Inv; cbn.
        split_and!; try done; intros; by destruct (H2 Hs).
  - destruct (proc r) eqn:Hp; try done. unfold Inv; cbn.
    split_and!; try done; intros Hs;
      [split; [by apply H1 | done] | destruct (H2 Hs); congruence].
Qed.

Lemma run_Inv sv es : Inv sv (run sv es).
Proof.
  induction es as [|e es IH] using rev_ind.
  - unfold run, Inv, start; cbn. done.
  - rewrite run_snoc. by apply step_Inv.
Qed.

Lemma kill_keeps r sig s : In s (signals r) -> In s (signals (kill r sig)).
Proof. unfold kill. destruct (proc r); cbn; [done| |done]. intros. apply in_or_app. by left. Qed.

Lemma fold_kill_keeps sigs r s : In s (signals r) -> In s (signals (fold_left kill sigs r)).
Proof. revert r. induction sigs as [|x sigs IH]; intros r H; cbn; [done|]. by apply IH, kill_keeps. Qed.

Lemma step_keeps sv r e s : In s (signals r) -> In s (signals (step sv r e)).
Proof.
  intros H. destruct e as [[|] expired | [|] | | ]; cbn [step];
    destruct (stage r); try done;
    try (destruct (expired && refreshes sv); done);
    try (destruct (proc r); done);
    unfold emitClose; (destruct (closed r); [done|]); by apply fold_kill_keeps.
Qed.

Lemma steps_keep sv es r s : In s (signals r) -> In s (signals (fold_left (step sv) es r)).
Proof. revert r. induction es as [|e es IH]; intros r H; cbn; [done|]. by apply IH, step_keeps. Qed.

Lemma step_closed sv r e :
  closed r = true -> closed (step sv r e) = true /\ signals (step sv r e) = signals r.
Proof.
  intros Hc. destruct e as [[|] expired | [|] | | ]; cbn [step];
    destruct (stage r); try done;
    try (destruct (expired && refreshes sv); done);
    try (destruct (proc r); done);
    unfold emitClose; by rewrite Hc.
Qed.

Lemma steps_closed sv es r :
  closed r = true -> signals (fold_left (step sv) es r) = signals r.
Proof.
  revert r. induction es as [|e es IH]; intros r Hc; cbn; [done|].
  destruct (step_closed sv r e Hc) as [Hc' Hs]. by rewrite IH.
Qed.
End LifecycleFacts.

(** C2. The client goes away while the formats are being resolved: 'close'
    is emitted with no listener; the handler then resumes, spawns the
    process and registers a listener that will never be called, so the
    process runs and nothing that follows signals it, on src/index.js as on
    part_000. Had the same two events come in the other order, the
    listener would have sent the signal. *)
Theorem close_before_spawn_orphans :
  OrphanedByEarlyClose Lifecycle.index /\ OrphanedByEarlyClose Lifecycle.legacy.
Proof.
  split; (split_and!; [reflexivity | reflexivity | | reflexivity]);
    intros es; rewrite LifecycleFacts.run_app; by rewrite LifecycleFacts.steps_closed.
Qed.

(** Whatever happened before, if the connection closes once the process has
    been spawned and while it runs, the listener sends it the server's
    signal (SIGTERM, SIGKILL in part_000) at that very event, and the
    signal stays sent whatever follows. *)
Lemma close_after_spawn_kills (sv : Lifecycle.Server) (before after : list Lifecycle.Event) :
  Lifecycle.proc (Lifecycle.run sv before) = Lifecycle.Running ->
  Lifecycle.closed (Lifecycle.run sv before) = false ->
  Lifecycle.signals (Lifecycle.run sv before) = []
  /\ Lifecycle.signals (Lifecycle.run sv (before ++ [Lifecycle.Close])) = [Lifecycle.killSignal sv]
  /\ In (Lifecycle.killSignal sv)
        (Lifecycle.signals (Lifecycle.run sv (before ++ Lifecycle.Close :: after)))
  /\ Lifecycle.killSignal Lifecycle.index = Lifecycle.SIGTERM
  /\ Lifecycle.killSignal Lifecycle.legacy = Lifecycle.SIGKILL.
Proof.
  intros Hp Hc. pose proof (LifecycleFacts.run_Inv sv before) as HI.
  pose proof HI as (H1 & H2 & H3).
  assert (Lifecycle.stage (Lifecycle.run sv before) = Lifecycle.Spawned) as Hs.
  { destruct (LifecycleFacts.spawned_or_not (Lifecycle.run sv before)) as [|Hn]; [done|].
    destruct (H2 Hn). congruence. }
  assert (Lifecycle.signals (Lifecycle.run sv (before ++ [Lifecycle.Close])) = [Lifecycle.killSignal sv])
    as Hkill.
  { rewrite LifecycleFacts.run_snoc. cbn [Lifecycle.step].
    rewrite (LifecycleFacts.emitClose_spawned sv _ HI Hs Hc). cbn. by rewrite Hp. }
  split_and!; [by apply H3 | done | | done..].
  change (before ++ Lifecycle.Close :: after) with (before ++ [Lifecycle.Close] ++ after).
  rewrite app_assoc, LifecycleFacts.run_app. apply LifecycleFacts.steps_keep.
  rewrite Hkill. by left.
Qed.

Lemma close_after_spawn_kills_index :
  Lifecycle.proc (Lifecycle.run Lifecycle.index [Lifecycle.Resolved true true; Lifecycle.Refreshed true])
  = Lifecycle.Running
  /\ Lifecycle.signals
       (Lifecycle.run Lifecycle.index
          ([Lifecycle.Resolved true true; Lifecycle.Refreshed true] ++ [Lifecycle.Close]))
     = [Lifecycle.SIGTERM]
  /\ In Lifecycle.SIGTERM
        (Lifecycle.signals
           (Lifecycle.run Lifecycle.index
              ([Lifecycle.Resolved true true; Lifecycle.Refreshed true]
                 ++ Lifecycle.Close :: [Lifecycle.Exit]))).
Proof.
  split; [reflexivity|].
  destruct (close_after_spawn_kills Lifecycle.index
              [Lifecycle.Resolved true true; Lifecycle.Refreshed true] [Lifecycle.Exit]
              eq_refl eq_refl) as (_ & H1 & H2 & _).
  split; [exact H1 | exact H2].
Defined.

(** *** The playlist as a tiling of the duration *)

Lemma numSegments_nonpos (d : Q) : (d <= 0)%Q -> numSegments d <= 0.
Proof.
  intros Hd. destruct (numSegments_bounds d) as [Hlo _].
  assert (inject_Z (numSegments d - 1) < 0)%Q as H by lra.
  change 0%Q with (inject_Z 0) in H. rewrite <- Zlt_Qlt in H. lia.
Qed.

(** X3. A duration that is zero, negative or not a number gives a playlist with
    no segment at all: the header and the end tag. *)
Theorem playlist_without_segments (uri : Z -> string) (d : Q) :
  (d <= 0)%Q ->
  playlist uri (Some d) = playlistHeader +:+ endList
  /\ playlist uri None = playlistHeader +:+ endList
  /\ numSegments d <= 0.
Proof.
  intros Hd. pose proof (numSegments_nonpos d Hd) as Hn. split_and!; [|done..].
  rewrite playlist_entries, seqZ_nil by done. reflexivity.
Qed.

Lemma playlist_without_segments_zero :
  (0 <= 0)%Q
  /\ playlist (plainSegmentUri demoId) (Some 0%Q) = playlistHeader +:+ endList
  /\ playlist (plainSegmentUri demoId) None = playlistHeader +:+ endList
  /\ numSegments 0 <= 0.
Proof.
  split; [done|]. apply (playlist_without_segments (plainSegmentUri demoId) 0). done.
Defined.






(** *** Whole numbers of seconds are printed exactly *)



Lemma toFixed3_whole (x : Q) (n : Z) :
  (x == inject_Z n)%Q -> 0 <= n < 10 ^ 21 -> JS.toFixed3 x = JS.showZ n +:+ ".000".
Proof.
  intros Hx Hn. rewrite toFixed3_below.
  - assert (Qfloor (x * 1000 + (1 # 2)) = n * 1000) as ->.
    { rewrite <- (Qfloor_half (n * 1000)). apply Qfloor_comp.
      rewrite Hx, inject_Z_mult. reflexivity. }
    rewrite Z.div_mul, Z.mod_mul by done. reflexivity.
  - rewrite Hx. change 0%Q with (inject_Z 0). rewrite <- Zle_Qle. lia.
  - rewrite Hx. rewrite <- Zlt_Qlt. lia.
Qed.

(** X5. When the duration is a whole number of seconds, every entry of the
    playlist declares the whole number [min(10, d - 10 i)], printed with
    three zeros, and there are [(d + 9) / 10] entries. *)
Theorem whole_durations_print_exactly (uri : Z -> string) (d i : Z) :
  0 < d -> 0 <= i < numSegments (inject_Z d) ->
  numSegments (inject_Z d) = (d + 9) / 10
  /\ segmentEntry uri (inject_Z d) i
     = "#EXTINF:" +:+ JS.showZ (Z.min 10 (d - i * 10)) +:+ ".000," +:+ nl +:+ uri i +:+ nl.
Proof.
  intros Hd Hi.
  assert (numSegments (inject_Z d) = (d + 9) / 10) as Hn.
  { unfold numSegments, segmentDuration, Qceiling, Qfloor, Qopp, Qdiv, Qmult, Qinv, inject_Z.
    cbn [Qnum Qden Z.mul Pos.mul]. rewrite Z.mul_1_r.
    change (Z.pos (1 * 10)) with 10.
    pose proof (Z.div_mod (- d) 10 ltac:(done)). pose proof (Z.mod_pos_bound (- d) 10 ltac:(done)).
    pose proof (Z.div_mod (d + 9) 10 ltac:(done)). pose proof (Z.mod_pos_bound (d + 9) 10 ltac:(done)).
    lia. }
  split; [done|]. unfold segmentEntry.
  rewrite (toFixed3_whole _ (Z.min 10 (d - i * 10))).
  - f_equal. rewrite append_assoc. reflexivity.
  - unfold segDur, segmentDuration. rewrite <- inject_Z_mult. unfold Qminus.
    rewrite <- inject_Z_opp, <- inject_Z_plus.
    destruct (Z.le_ge_cases 10 (d + - (i * 10))) as [Hle|Hge].
    + rewrite Q.min_l by (by rewrite <- Zle_Qle). by rewrite Z.min_l by lia.
    + rewrite Q.min_r by (by rewrite <- Zle_Qle). rewrite Z.min_r by lia.
      replace (d - i * 10) with (d + - (i * 10)) by lia. reflexivity.
  - rewrite Hn in Hi.
    pose proof (Z.div_mod (d + 9) 10 ltac:(done)). pose proof (Z.mod_pos_bound (d + 9) 10 ltac:(done)).
    assert (10 < 10 ^ 21) by done. lia.
Qed.

Lemma whole_durations_125 :
  0 < 125 /\ 0 <= 12 < numSegments (inject_Z 125)
  /\ numSegments (inject_Z 125) = (125 + 9) / 10
  /\ segmentEntry (plainSegmentUri demoId) (inject_Z 125) 12
     = "#EXTINF:" +:+ JS.showZ (Z.min 10 (125 - 12 * 10)) +:+ ".000," +:+ nl
       +:+ plainSegmentUri demoId 12 +:+ nl.
Proof.
  split; [done|]. split; [done|].
  apply (whole_durations_print_exactly (plainSegmentUri demoId) 125 12); done.
Defined.

(** *** What the resolution returns *)

(** X6. [fetchYouTubeData] makes one upstream call and leaves the cache and the
    processes alone; every error it throws is prefixed; what it returns has
    a non-empty title and one format per upstream item, in order, none with
    an empty quality label or extension. *)
Theorem fetch_contract :
  forall V (u : string) (w : World V),
    requests (snd (fetchYouTubeData u w)) = requests w ++ [u]
    /\ cache (snd (fetchYouTubeData u w)) = cache w
    /\ spawned (snd (fetchYouTubeData u w)) = spawned w
    /\ clock (snd (fetchYouTubeData u w)) = clock w + Z.of_N (fst (api w (length (requests w)) u))
    /\ (forall e, fst (fetchYouTubeData u w) = Throw e -> exists m, e = "API request failed: " +:+ m)
    /\ (forall data, fst (fetchYouTubeData u w) = Ok data ->
          title data <> EmptyString
          /\ (exists d items,
                 snd (api w (length (requests w)) u) = Reply (Some d)
                 /\ p_items d = Some items /\ p_title d = Some (title data)
                 /\ formats data = map toFormat items)
          /\ Forall (fun f => quality f <> EmptyString /\ extension f <> EmptyString) (formats data)).
Proof.
  intros V u w. unfold fetchYouTubeData, tryCatch, bind, axiosGet, throw, ret.
  destruct (api w (length (requests w)) u) as [dt [msg | [d|]]];
    cbn [fst snd fmap option_fmap option_map parsed p_items p_title p_thumbnail].
  - split_and!; try done. intros e [= <-]. by eexists.
  - destruct (p_items d) as [items|] eqn:Hi, (p_title d) as [[|c t]|] eqn:Ht; cbn [fst snd];
      (split_and!; try done; try (intros e [= <-]; by eexists)).
    intros data [= <-]. cbn [title formats]. split_and!; [done | by exists d, items |].
    apply List.Forall_forall. intros f Hf. apply in_map_iff in Hf as (it & <- & _).
    unfold toFormat, JS.orElse; cbn [quality extension].
    destruct (i_label it) as [[|]|], (i_ext it) as [[|]|], (i_extension it) as [[|]|]; done.
  - split_and!; try done. intros e [= <-]. by eexists.
Qed.

(** *** Effects of one request on src/index.js *)

Lemma withValidFormats_HasUrl (data : VideoData) : Forall HasUrl (formats (withValidFormats data)).
Proof.
  apply List.Forall_forall. intros f Hf. cbn [withValidFormats formats] in Hf.
  apply filter_In in Hf as [_ Hk]. unfold keepUrl, JS.truthy in Hk.
  destruct (url f) as [[|c r]|] eqn:Hu; try done. by exists (String c r).
Qed.

Lemma CleanCache_insert (w : World VideoData) key data t c a r s :
  CleanCache w -> Forall HasUrl (formats data) ->
  CleanCache (mkWorld c (<[key := (data, t)]> (cache w)) a r s).
Proof.
  intros Hw Hd k d' t' Hk. cbn [cache] in Hk.
  destruct (decide (key = k)) as [->|Hne].
  - rewrite lookup_insert_eq in Hk. by injection Hk as <- _.
  - rewrite lookup_insert_ne in Hk by done. by eapply Hw.
Qed.

Lemma CleanCache_delete (w : World VideoData) key c a r s :
  CleanCache w -> CleanCache (mkWorld c (delete key (cache w)) a r s).
Proof.
  intros Hw k d' t' Hk. cbn [cache] in Hk.
  apply lookup_delete_Some in Hk as [_ Hk]. by eapply Hw.
Qed.

Lemma CleanCache_same (w w' : World VideoData) : cache w' = cache w -> CleanCache w -> CleanCache w'.
Proof. intros Hc Hw k d t Hk. rewrite Hc in Hk. by eapply Hw. Qed.

(** The steps of [cache.get]: the world it leaves differs at most by the
    dropped key. *)
Lemma cacheGet_effect {V} (key : string) (w : World V) :
  clock (snd (cacheGet key w)) = clock w /\ api (snd (cacheGet key w)) = api w
  /\ requests (snd (cacheGet key w)) = requests w /\ spawned (snd (cacheGet key w)) = spawned w
  /\ (cache (snd (cacheGet key w)) = cache w \/ cache (snd (cacheGet key w)) = delete key (cache w))
  /\ (exists o, fst (cacheGet key w) = Ok o /\ forall v, o = Some v -> Live w key v /\ snd (cacheGet key w) = w).
Proof.
  unfold cacheGet. destruct (cache w !! key) as [[v t]|] eqn:Hk.
  - destruct (negb (t =? 0) && (t <? clock w)) eqn:E; cbn [fst snd clock api requests spawned cache].
    + split_and!; try done; [by right|]. by exists None.
    + split_and!; try done; [by left|]. exists (Some v). split; [done|]. intros ? [= <-].
      split; [|done]. exists t. split; [done|].
      apply andb_false_iff in E as [E|E].
      * left. by apply negb_false_iff, Z.eqb_eq in E.
      * right. apply Z.ltb_ge in E. lia.
  - cbn [fst snd]. split_and!; try done; [by left|]. by exists None.
Qed.

Lemma fetch_errors_prefixed {V} (u : string) (w : World V) (e : string) :
  fst (fetchYouTubeData u w) = Throw e -> exists m, e = "API request failed: " +:+ m.
Proof.
  unfold fetchYouTubeData, tryCatch, bind, axiosGet, throw, ret.
  destruct (api w (length (requests w)) u) as [dt [msg | [d|]]];
    cbn [fst snd fmap option_fmap option_map parsed p_items p_title p_thumbnail].
  - intros [= <-]. by eexists.
  - destruct (p_items d) as [items|], (p_title d) as [[|c t]|]; cbn [fst snd];
      try done; intros [= <-]; by eexists.
  - intros [= <-]. by eexists.
Qed.

(** Resolving touches no process, calls upstream at most once, and fails
    only for a bad identifier or with the prefixed upstream error. *)
Lemma index_resolve_effect (videoId : string) (force : bool) (w : World VideoData) :
  spawned (snd (Index.getVideoFormats videoId force w)) = spawned w
  /\ (requests (snd (Index.getVideoFormats videoId force w)) = requests w
      \/ requests (snd (Index.getVideoFormats videoId force w)) = requests w ++ [watchUrl videoId])
  /\ (forall e, fst (Index.getVideoFormats videoId force w) = Throw e ->
        e = "Invalid YouTube video ID" \/ exists m, e = "API request failed: " +:+ m)
  /\ (CleanCache w ->
        CleanCache (snd (Index.getVideoFormats videoId force w))
        /\ forall data, fst (Index.getVideoFormats videoId force w) = Ok data ->
                        Forall HasUrl (formats data)).
Proof.
  destruct (JS.matchVideoId videoId) eqn:Hid.
  2: { unfold Index.getVideoFormats. rewrite Hid. cbn.
       split_and!; try done; [by left | intros e [= <-]; by left]. }
  assert (forall w1 : World VideoData,
             spawned w1 = spawned w -> requests w1 = requests w ->
             spawned (snd (Index.getVideoFormats videoId true w1)) = spawned w
             /\ requests (snd (Index.getVideoFormats videoId true w1)) = requests w ++ [watchUrl videoId]
             /\ (forall e, fst (Index.getVideoFormats videoId true w1) = Throw e ->
                           exists m, e = "API request failed: " +:+ m)
             /\ (CleanCache w1 ->
                   CleanCache (snd (Index.getVideoFormats videoId true w1))
                   /\ forall data, fst (Index.getVideoFormats videoId true w1) = Ok data ->
                                   Forall HasUrl (formats data)))
    as Hfetch.
  { intros w1 Hs Hr. rewrite (index_refresh _ _ Hid).
    destruct (fetch_effect (watchUrl videoId) w1) as (Hreq & Hc & Hsp & _).
    pose proof (fetch_errors_prefixed (watchUrl videoId) w1) as Herr.
    destruct (fetchYouTubeData (watchUrl videoId) w1) as [[data|e] w2]; cbn [fst snd] in *.
    - cbn [spawned requests]. split_and!; [congruence | congruence | done |].
      intros Hclean. split.
      + apply CleanCache_insert; [|apply withValidFormats_HasUrl].
        by apply (CleanCache_same w1).
      + intros ? [= <-]. apply withValidFormats_HasUrl.
    - split_and!; [congruence | congruence | by intros ? [= <-]; apply Herr |].
      intros Hclean. split; [by apply (CleanCache_same w1)|done]. }
  destruct force.
  - destruct (Hfetch w eq_refl eq_refl) as (H1 & H2 & H3 & H4).
    split_and!; [done | by right | intros e He; right; by apply H3 | done].
  - destruct (cacheGet_effect (formatsKey videoId) w) as (Hc & Ha & Hr & Hs & Hcache & o & Ho & Hlive).
    destruct (cacheGet (formatsKey videoId) w) as [[o'|e] w1] eqn:Hget; cbn [fst snd] in *; [|done].
    injection Ho as ->. destruct o as [v|].
    + destruct (Hlive v eq_refl) as [Hl ->]. rewrite (index_resolve_hit _ _ _ Hid Hl).
      destruct Hl as (t & Hk & _). cbn [fst snd].
      split_and!; [done | by left | done |]. intros Hclean. split; [done|].
      intros ? [= <-]. by eapply Hclean.
    + rewrite (index_resolve_miss _ _ _ Hid Hget).
      destruct (Hfetch w1 Hs Hr) as (H1 & H2 & H3 & H4).
      split_and!; [done | by right | intros e He; right; by apply H3 |].
      intros Hclean. apply H4. destruct Hcache as [Hcc|Hcc].
      * by apply (CleanCache_same w).
      * intros k d t Hk. rewrite Hcc in Hk. apply lookup_delete_Some in Hk as [_ Hk].
        by eapply Hclean.
Qed.

Lemma runFFmpeg_cases (videoId : string) (format : Format) (startTime : option Z) (dur : Z)
      (isAudio : bool) (w : World VideoData) :
  Index.runFFmpeg videoId format startTime dur isAudio w
  = match url format with
    | None => (Throw "Cannot read properties of undefined (reading 'match')", w)
    | Some u =>
        if isUrlExpiredAt Index.buffer (clock w) u
        then match Index.getVideoFormats videoId true w with
             | (Ok refreshed, w1) =>
                 let u' := argString (url (reselected format refreshed)) in
                 (Ok (Stream (contentType isAudio) (Index.ffmpegArgs startTime dur u' isAudio)),
                  spawnedWith (Index.ffmpegArgs startTime dur u' isAudio) w1)
             | (Throw e, w1) => (Throw e, w1)
             end
        else (Ok (Stream (contentType isAudio) (Index.ffmpegArgs startTime dur u isAudio)),
              spawnedWith (Index.ffmpegArgs startTime dur u isAudio) w)
    end.
Proof.
  unfold Index.runFFmpeg, Index.refreshIfExpired, isUrlExpired, reselected.
  destruct (url format) as [u|] eqn:Hu; [|done].
  unfold bind, now, ret, spawn. destruct (isUrlExpiredAt Index.buffer (clock w) u).
  - destruct (Index.getVideoFormats videoId true w) as [[refreshed|e] w1]; [|done].
    destruct (List.find (Index.sameTrack format) (formats refreshed)) as [f|];
      by destruct isAudio.
  - cbn [argString]. rewrite Hu. by destruct isAudio.
Qed.

Lemma runFFmpeg_effect (videoId : string) (format : Format) (startTime : option Z) (dur : Z)
      (isAudio : bool) (w : World VideoData) :
  ((exists argv, fst (Index.runFFmpeg videoId format startTime dur isAudio w)
                 = Ok (Stream (contentType isAudio) argv)
                 /\ spawned (snd (Index.runFFmpeg videoId format startTime dur isAudio w))
                    = spawned w ++ [argv])
   \/ (exists e, fst (Index.runFFmpeg videoId format startTime dur isAudio w) = Throw e
                 /\ spawned (snd (Index.runFFmpeg videoId format startTime dur isAudio w)) = spawned w))
  /\ (requests (snd (Index.runFFmpeg videoId format startTime dur isAudio w)) = requests w
      \/ requests (snd (Index.runFFmpeg videoId format startTime dur isAudio w))
         = requests w ++ [watchUrl videoId])
  /\ (HasUrl format -> CleanCache w ->
      CleanCache (snd (Index.runFFmpeg videoId format startTime dur isAudio w))
      /\ forall e, fst (Index.runFFmpeg videoId format startTime dur isAudio w) = Throw e -> Expected e).
Proof.
  rewrite runFFmpeg_cases.
  destruct (url format) as [u|] eqn:Hu.
  2: { cbn [fst snd]. split_and!; [right; by eexists | by left |]. intros (u & Hu' & _). congruence. }
  destruct (isUrlExpiredAt Index.buffer (clock w) u) eqn:Hexp.
  - destruct (index_resolve_effect videoId true w) as (Hs & Hr & He & Hc).
    destruct (Index.getVideoFormats videoId true w) as [[refreshed|e] w1]; cbn [fst snd] in *.
    + cbv zeta. cbn [fst snd spawnedWith spawned requests].
      split_and!; [left; eexists; split; [done | by rewrite Hs] | done |].
      intros _ Hclean. split; [|done].
      apply (CleanCache_same w1); [done|]. by apply Hc.
    + split_and!; [right; by eexists | done |].
      intros _ Hclean. split; [by apply Hc|]. intros ? [= <-].
      destruct (He e eq_refl) as [->|Hm]; [by left|]. by do 3 right.
  - cbn [fst snd spawnedWith spawned requests].
    split_and!; [left; by eexists | by left |].
    intros _ Hclean. split; [|done]. by apply (CleanCache_same w).
Qed.

(** X7. A segment request on src/index.js either answers with the stream of
    exactly one newly spawned process, or with an error and no process; it
    calls upstream at most twice (the resolution, then the forced refresh).
    The playlist requests never spawn and call upstream at most once. *)
Theorem index_request_effects :
  (forall videoId segNum q (w : World VideoData),
      ((exists argv, fst (Index.videoSegment videoId segNum q w) = Stream "video/mp2t" argv
                     /\ spawned (snd (Index.videoSegment videoId segNum q w)) = spawned w ++ [argv])
       \/ (exists e, fst (Index.videoSegment videoId segNum q w) = Failure 500 e
                     /\ spawned (snd (Index.videoSegment videoId segNum q w)) = spawned w))
      /\ exists k, (k <= 2)%nat
                   /\ requests (snd (Index.videoSegment videoId segNum q w))
                      = requests w ++ repeat (watchUrl videoId) k)
  /\ (forall videoId segNum (w : World VideoData),
      ((exists argv, fst (Index.audioSegment videoId segNum w) = Stream "audio/aac" argv
                     /\ spawned (snd (Index.audioSegment videoId segNum w)) = spawned w ++ [argv])
       \/ (exists e, fst (Index.audioSegment videoId segNum w) = Failure 500 e
                     /\ spawned (snd (Index.audioSegment videoId segNum w)) = spawned w))
      /\ exists k, (k <= 2)%nat
                   /\ requests (snd (Index.audioSegment videoId segNum w))
                      = requests w ++ repeat (watchUrl videoId) k)
  /\ (forall videoId q (w : World VideoData),
      spawned (snd (Index.master videoId w)) = spawned w
      /\ spawned (snd (Index.variant videoId q w)) = spawned w
      /\ spawned (snd (Index.audio videoId w)) = spawned w
      /\ (exists k, (k <= 1)%nat
                    /\ requests (snd (Index.master videoId w)) = requests w ++ repeat (watchUrl videoId) k)
      /\ (exists k, (k <= 1)%nat
                    /\ requests (snd (Index.variant videoId q w)) = requests w ++ repeat (watchUrl videoId) k)
      /\ (exists k, (k <= 1)%nat
                    /\ requests (snd (Index.audio videoId w)) = requests w ++ repeat (watchUrl videoId) k)).
Proof.
  assert (forall (l : list string) x, l = l ++ repeat x 0) as R0 by (intros; cbn; by rewrite app_nil_r).
  assert (forall (find : list Format -> option Format) (msg : string) (isAudio : bool)
                 videoId (startTime : option Z) (w : World VideoData),
             let out := handler (let* data := Index.getVideoFormats videoId false in
                                 match find (formats data) with
                                 | None => throw msg
                                 | Some format => Index.runFFmpeg videoId format startTime segmentDuration isAudio
                                 end) w in
             ((exists argv, fst out = Stream (contentType isAudio) argv
                            /\ spawned (snd out) = spawned w ++ [argv])
              \/ (exists e, fst out = Failure 500 e /\ spawned (snd out) = spawned w))
             /\ exists k, (k <= 2)%nat /\ requests (snd out) = requests w ++ repeat (watchUrl videoId) k)
    as Hseg.
  { intros find msg isAudio videoId startTime w out. subst out. unfold handler, bind.
    destruct (index_resolve_effect videoId false w) as (Hs & Hr & _).
    destruct (Index.getVideoFormats videoId false w) as [[data|e] w1]; cbn [fst snd] in *.
    - destruct (find (formats data)) as [format|].
      + destruct (runFFmpeg_effect videoId format startTime segmentDuration isAudio w1)
          as (Hout & Hreq & _).
        destruct (Index.runFFmpeg videoId format startTime segmentDuration isAudio w1)
          as [[r|e] w2]; cbn [fst snd] in *.
        * split.
          -- destruct Hout as [(argv & [= ->] & Hsp) | (e & He & _)]; [|done].
             left. exists argv. split; [done|]. congruence.
          -- destruct Hr as [Hr|Hr], Hreq as [Hq|Hq]; rewrite Hq, Hr.
             ++ exists 0%nat. split; [lia | apply R0].
             ++ exists 1%nat. split; [lia | done].
             ++ exists 1%nat. split; [lia | done].
             ++ exists 2%nat. split; [lia | by rewrite <- app_assoc].
        * split.
          -- destruct Hout as [(argv & He & _) | (e' & _ & Hsp)]; [done|].
             right. exists e. split; [done|]. congruence.
          -- destruct Hr as [Hr|Hr], Hreq as [Hq|Hq]; rewrite Hq, Hr.
             ++ exists 0%nat. split; [lia | apply R0].
             ++ exists 1%nat. split; [lia | done].
             ++ exists 1%nat. split; [lia | done].
             ++ exists 2%nat. split; [lia | by rewrite <- app_assoc].
      + cbn. split; [right; by eexists|].
        destruct Hr as [Hr|Hr]; rewrite Hr; [exists 0%nat | exists 1%nat]; (split; [lia|]); [apply R0 | done].
    - split; [right; by eexists|].
      destruct Hr as [Hr|Hr]; rewrite Hr; [exists 0%nat | exists 1%nat]; (split; [lia|]); [apply R0 | done]. }
  assert (forall (k : VideoData -> M VideoData Response) videoId (w : World VideoData),
             (forall data w1, snd (k data w1) = w1) ->
             let out := handler (let* data := Index.getVideoFormats videoId false in k data) w in
             spawned (snd out) = spawned w
             /\ exists n, (n <= 1)%nat /\ requests (snd out) = requests w ++ repeat (watchUrl videoId) n)
    as Hpl.
  { intros k videoId w Hk out. subst out. unfold handler, bind.
    destruct (index_resolve_effect videoId false w) as (Hs & Hr & _).
    destruct (Index.getVideoFormats videoId false w) as [[data|e] w1]; cbn [fst snd] in *.
    - specialize (Hk data w1). destruct (k data w1) as [[r|e] w2]; cbn [fst snd] in *; subst w2;
        (split; [done|]);
        (destruct Hr as [Hr|Hr]; rewrite Hr; [exists 0%nat | exists 1%nat]; (split; [lia|]); [apply R0 | done]).
    - split; [done|].
      destruct Hr as [Hr|Hr]; rewrite Hr; [exists 0%nat | exists 1%nat]; (split; [lia|]); [apply R0 | done]. }
  split_and!.
  - intros videoId segNum q w.
    apply (Hseg (findQuality q) "Format not available" false videoId (startTimeOf (JS.parseInt segNum)) w).
  - intros videoId segNum w.
    apply (Hseg findAudio "Audio format not available" true videoId (startTimeOf (JS.parseInt segNum)) w).
  - intros videoId q w.
    destruct (Hpl (fun data => ret (Send mpegurl (masterManifest videoId (formats data)))) videoId w)
      as [Hm1 Hm2]; [done|].
    destruct (Hpl (fun data => match findQuality q (formats data) with
                               | None => throw "Format not available"
                               | Some _ => ret (Send mpegurl (playlist (videoSegmentUri videoId q) (duration data)))
                               end) videoId w) as [Hv1 Hv2].
    { intros data w1. by destruct (findQuality q (formats data)). }
    destruct (Hpl (fun data => match findAudio (formats data) with
                               | None => throw "Audio format not available"
                               | Some _ => ret (Send mpegurl (playlist (audioSegmentUri videoId) (duration data)))
                               end) videoId w) as [Ha1 Ha2].
    { intros data w1. by destruct (findAudio (formats data)). }
    split_and!; done.
Qed.

Lemma CleanCache_fresh (t : Z) (upstream : nat -> string -> N * ApiResult) :
  CleanCache (fresh t upstream).
Proof. intros k d t' Hk. cbn in Hk. by rewrite lookup_empty in Hk. Qed.

(** X8. As long as the cache only holds what [getVideoFormats] stored (formats
    with a URL), a request on src/index.js keeps it so, and the only errors
    it answers are the invalid identifier, the missing format and the
    prefixed upstream failure, all with status 500: no format without URL
    ever reaches the expiry check or the process. *)
Theorem index_errors_expected (w : World VideoData) :
  CleanCache w ->
  (forall videoId segNum q,
      CleanCache (snd (Index.videoSegment videoId segNum q w))
      /\ forall s e, fst (Index.videoSegment videoId segNum q w) = Failure s e -> s = 500 /\ Expected e)
  /\ (forall videoId segNum,
      CleanCache (snd (Index.audioSegment videoId segNum w))
      /\ forall s e, fst (Index.audioSegment videoId segNum w) = Failure s e -> s = 500 /\ Expected e)
  /\ (forall videoId q,
      CleanCache (snd (Index.master videoId w))
      /\ CleanCache (snd (Index.variant videoId q w))
      /\ CleanCache (snd (Index.audio videoId w))
      /\ (forall s e, fst (Index.master videoId w) = Failure s e -> s = 500 /\ Expected e)
      /\ (forall s e, fst (Index.variant videoId q w) = Failure s e -> s = 500 /\ Expected e)
      /\ (forall s e, fst (Index.audio videoId w) = Failure s e -> s = 500 /\ Expected e)).
Proof.
  intros Hclean.
  assert (forall m, Expected ("API request failed: " +:+ m)) as Eapi by (intros; do 3 right; by eexists).
  assert (forall e, e = "Invalid YouTube video ID" \/ (exists m, e = "API request failed: " +:+ m) ->
                    Expected e) as Eres.
  { intros e [->|(m & ->)]; [by left | apply Eapi]. }
  assert (forall (find : list Format -> option Format) (msg : string) (isAudio : bool)
                 videoId (startTime : option Z),
             Expected msg ->
             (forall fs f, find fs = Some f -> In f fs) ->
             let out := handler (let* data := Index.getVideoFormats videoId false in
                                 match find (formats data) with
                                 | None => throw msg
                                 | Some format => Index.runFFmpeg videoId format startTime segmentDuration isAudio
                                 end) w in
             CleanCache (snd out) /\ forall s e, fst out = Failure s e -> s = 500 /\ Expected e)
    as Hseg.
  { intros find msg isAudio videoId startTime Hmsg Hfind out. subst out. unfold handler, bind.
    destruct (index_resolve_effect videoId false w) as (_ & _ & He & Hc).
    destruct (Hc Hclean) as [Hc1 Hurls].
    destruct (Index.getVideoFormats videoId false w) as [[data|e] w1]; cbn [fst snd] in *.
    - destruct (find (formats data)) as [format|] eqn:Hf.
      + assert (HasUrl format) as Hfu.
        { specialize (Hurls data eq_refl). rewrite List.Forall_forall in Hurls.
          by apply Hurls, (Hfind (formats data)). }
        destruct (runFFmpeg_effect videoId format startTime segmentDuration isAudio w1)
          as (Hout & _ & Hcc).
        destruct (Hcc Hfu Hc1) as [Hc2 Herr].
        destruct (Index.runFFmpeg videoId format startTime segmentDuration isAudio w1)
          as [[r|e] w2]; cbn [fst snd] in *.
        * split; [done|]. intros s e ->.
          destruct Hout as [(argv & [= ?] & _) | (e' & ? & _)]; done.
        * split; [done|]. intros s e' [= <- <-]. split; [done|]. by apply Herr.
      + cbn. split; [done|]. by intros s e [= <- <-].
    - split; [done|]. intros s e' [= <- <-]. split; [done|]. by apply Eres, He. }
  assert (forall (k : VideoData -> M VideoData Response) videoId,
             (forall data w1, snd (k data w1) = w1) ->
             (forall data w1 e, fst (k data w1) = Throw e -> Expected e) ->
             (forall data w1 s e, fst (k data w1) <> Ok (Failure s e)) ->
             let out := handler (let* data := Index.getVideoFormats videoId false in k data) w in
             CleanCache (snd out) /\ forall s e, fst out = Failure s e -> s = 500 /\ Expected e)
    as Hpl.
  { intros k videoId Hk Hke Hkf out. subst out. unfold handler, bind.
    destruct (index_resolve_effect videoId false w) as (_ & _ & He & Hc).
    destruct (Hc Hclean) as [Hc1 _].
    destruct (Index.getVideoFormats videoId false w) as [[data|e] w1]; cbn [fst snd] in *.
    - specialize (Hk data w1). specialize (Hke data w1). specialize (Hkf data w1).
      destruct (k data w1) as [[r|e] w2]; cbn [fst snd] in *; subst w2; (split; [done|]).
      + intros s e ->. by destruct (Hkf s e).
      + intros s e' [= <- <-]. split; [done|]. by apply Hke.
    - split; [done|]. intros s e' [= <- <-]. split; [done|]. by apply Eres, He. }
  split_and!.
  - intros videoId segNum q.
    apply (Hseg (findQuality q) "Format not available" false videoId (startTimeOf (JS.parseInt segNum))).
    + right. by left.
    + intros fs f Hf. by apply find_some in Hf as [? _].
  - intros videoId segNum.
    apply (Hseg findAudio "Audio format not available" true videoId (startTimeOf (JS.parseInt segNum))).
    + do 2 right. by left.
    + intros fs f Hf. by apply find_some in Hf as [? _].
  - intros videoId q.
    destruct (Hpl (fun data => ret (Send mpegurl (masterManifest videoId (formats data)))) videoId)
      as [Hm1 Hm2]; [done | done | done |].
    destruct (Hpl (fun data => match findQuality q (formats data) with
                               | None => throw "Format not available"
                               | Some _ => ret (Send mpegurl (playlist (videoSegmentUri videoId q) (duration data)))
                               end) videoId) as [Hv1 Hv2].
    { intros data w1. by destruct (findQuality q (formats data)). }
    { intros data w1 e. destruct (findQuality q (formats data)); [done|].
      intros [= <-]. right. by left. }
    { intros data w1 s e. by destruct (findQuality q (formats data)). }
    destruct (Hpl (fun data => match findAudio (formats data) with
                               | None => throw "Audio format not available"
                               | Some _ => ret (Send mpegurl (playlist (audioSegmentUri videoId) (duration data)))
                               end) videoId) as [Ha1 Ha2].
    { intros data w1. by destruct (findAudio (formats data)). }
    { intros data w1 e. destruct (findAudio (formats data)); [done|].
      intros [= <-]. do 2 right. by left. }
    { intros data w1 s e. by destruct (findAudio (formats data)). }
    split_and!; done.
Qed.

Lemma index_errors_expected_scenario :
  CleanCache scenario
  /\ (forall videoId segNum q,
      CleanCache (snd (Index.videoSegment videoId segNum q scenario))
      /\ forall s e, fst (Index.videoSegment videoId segNum q scenario) = Failure s e ->
                     s = 500 /\ Expected e).
Proof.
  split; [apply CleanCache_fresh|].
  exact (proj1 (index_errors_expected scenario (CleanCache_fresh _ _))).
Defined.

(** *** The other resolvers *)

(** X9. [getVideoFormats] of part_002 answers from the cache, without touching
    anything, when the entry is live and none of its URLs is expired. *)
Theorem multi_resolve_hit (videoId : string) (c : VideoData) (w : World VideoData) :
  JS.matchVideoId videoId = true ->
  Live w (formatsKey videoId) c ->
  (forall f, In f (formats c) ->
             exists u, url f = Some u /\ isUrlExpiredAt Multi.buffer (clock w) u = false) ->
  Multi.getVideoFormats videoId w = (Ok c, w).
Proof.
  intros Hid Hlive Hfresh. unfold Multi.getVideoFormats. rewrite Hid. cbn [negb].
  fold (formatsKey videoId). unfold bind at 1. rewrite (cacheGet_live _ _ _ Hlive).
  unfold bind at 1. rewrite someExpired_spec.
  2: { intros f Hf. destruct (Hfresh f Hf) as (u & Hu & _). by exists u. }
  assert (existsb (fun f => match url f with
                            | Some u => isUrlExpiredAt Multi.buffer (clock w) u
                            | None => false
                            end) (formats c) = false) as ->; [|done].
  apply not_true_is_false. intros H. apply existsb_exists in H as (f & Hf & He).
  destruct (Hfresh f Hf) as (u & Hu & Hn). rewrite Hu in He. congruence.
Qed.

Lemma multi_resolve_hit_scenario :
  JS.matchVideoId demoId = true
  /\ Multi.getVideoFormats demoId (cachedFormats (formatsKey demoId) farUrl 18000000 1000)
     = (Ok {| title := "T"; thumbnail := None; duration := Some 125%Q;
              formats := [fmt va "720p" farUrl] |},
        cachedFormats (formatsKey demoId) farUrl 18000000 1000).
Proof.
  split; [reflexivity|].
  apply multi_resolve_hit; [reflexivity | | ].
  - exists 18000000. split; [apply lookup_singleton_eq | right; cbn; lia].
  - intros f [<- | []]. exists farUrl. split; reflexivity.
Defined.

(** X10. [getVideoUrl] of the single-quality servers: a live entry is returned
    untouched and without an upstream call only if its URL is not expired
    for the server's buffer; if it is, or if no entry lives, upstream is
    called once; part_001 does so only after checking the identifier. *)
Theorem getVideoUrl_cache_policy (videoId q : string) (w : World UrlInfo) :
  (forall c u, Live w (videoId +:+ "_" +:+ q) c -> u_url c = Some u ->
      (isUrlExpiredAt Legacy.buffer (clock w) u = false -> Legacy.getVideoUrl videoId q w = (Ok c, w))
      /\ (isUrlExpiredAt Legacy.buffer (clock w) u = true ->
          requests (snd (Legacy.getVideoUrl videoId q w)) = requests w ++ [watchUrl videoId])
      /\ (JS.matchVideoId videoId = true ->
          (isUrlExpiredAt Single.buffer (clock w) u = false -> Single.getVideoUrl videoId q w = (Ok c, w))
          /\ (isUrlExpiredAt Single.buffer (clock w) u = true ->
              requests (snd (Single.getVideoUrl videoId q w)) = requests w ++ [watchUrl videoId])))
  /\ ((~ exists c, Live w (videoId +:+ "_" +:+ q) c) ->
      requests (snd (Legacy.getVideoUrl videoId q w)) = requests w ++ [watchUrl videoId]
      /\ (JS.matchVideoId videoId = true ->
          requests (snd (Single.getVideoUrl videoId q w)) = requests w ++ [watchUrl videoId])).
Proof.
  assert (forall buffer ttl, (~ exists c, Live w (videoId +:+ "_" +:+ q) c) ->
            requests (snd (cachedOrResolve buffer ttl videoId q w)) = requests w ++ [watchUrl videoId])
    as Hmiss.
  { intros buffer ttl Hdead. unfold cachedOrResolve. unfold bind at 1.
    destruct (cacheGet_dead w _ Hdead) as (w1 & -> & _ & _ & Hr & _).
    unfold resolveUrl, bind. destruct (fetch_effect (watchUrl videoId) w1) as (Hq & _).
    destruct (fetchYouTubeData (watchUrl videoId) w1) as [[data|e] w2]; cbn [fst snd] in *;
      [destruct (findQualityOrFirst q (formats data))|];
      unfold cacheSet, ret, throw; cbn [snd requests]; congruence. }
  split.
  - intros c u Hlive Hu. unfold Legacy.getVideoUrl, Single.getVideoUrl. split_and!.
    + by apply cachedOrResolve_hit.
    + by apply cachedOrResolve_expired with (c := c) (u := u).
    + intros ->. cbn [negb]. split.
      * by apply cachedOrResolve_hit.
      * by apply cachedOrResolve_expired with (c := c) (u := u).
  - intros Hdead. unfold Legacy.getVideoUrl, Single.getVideoUrl. split; [by apply Hmiss|].
    intros ->. cbn [negb]. by apply Hmiss.
Qed.

(** The 30-minute buffer of part_000 discards a URL that the 5-minute
    buffer of part_001 still serves from the cache. *)
Lemma cache_policy_buffers_differ :
  Single.getVideoUrl demoId "720p" (cachedUrl (demoId +:+ "_720p") soonUrl 18000000 9000000)
  = (Ok {| u_url := Some soonUrl; u_title := "T"; u_duration := Some 125%Q |},
     cachedUrl (demoId +:+ "_720p") soonUrl 18000000 9000000)
  /\ requests (snd (Legacy.getVideoUrl demoId "720p"
                      (cachedUrl (demoId +:+ "_720p") soonUrl 18000000 9000000)))
     = [watchUrl demoId].
Proof.
  assert (Live (cachedUrl (demoId +:+ "_720p") soonUrl 18000000 9000000) (demoId +:+ "_720p")
               {| u_url := Some soonUrl; u_title := "T"; u_duration := Some 125%Q |}) as Hlive.
  { exists 18000000. split; [apply lookup_singleton_eq | right; cbn; lia]. }
  destruct (getVideoUrl_cache_policy demoId "720p" (cachedUrl (demoId +:+ "_720p") soonUrl 18000000 9000000))
    as [H _].
  destruct (H _ soonUrl Hlive eq_refl) as (_ & Hl & Hs).
  split; [by apply Hs | by apply Hl].
Defined.

(** *** Segment numbers on part_001 *)

Lemma single_segment_cases (videoId segNum : string) (w : World UrlInfo) :
  Single.segment videoId segNum w
  = match JS.parseInt segNum with
    | None => (Failure 500 "Invalid segment number", w)
    | Some i =>
        if i <? 0 then (Failure 500 "Invalid segment number", w)
        else if JS.matchVideoId videoId
        then match Single.getVideoUrl videoId "720p" w with
             | (Ok videoData, w1) =>
                 let argv := Single.ffmpegArgs (Some (i * 10)) (argString (u_url videoData)) in
                 (Stream "video/mp2t" argv, spawnedWith argv w1)
             | (Throw e, w1) => (Failure 500 e, w1)
             end
        else (Failure 500 "Invalid YouTube video ID", w)
    end.
Proof.
  unfold Single.segment, handler.
  destruct (JS.parseInt segNum) as [i|]; cbn [Single.badIndex]; [|done].
  destruct (i <? 0); [done|].
  destruct (JS.matchVideoId videoId) eqn:Hid; cbn [negb]; [|done].
  unfold bind.
  by destruct (Single.getVideoUrl videoId "720p" w) as [[videoData|e] w1].
Qed.

(** How numbers print: in full below [2 ^ 53], by their shortest digits
    above, with an exponent from [10 ^ 21] on. *)
Example toString_examples :
  map JS.toString [None; Some 30; Some (-10); Some (2 ^ 53 + 1); Some (2 ^ 64); Some (10 ^ 21);
                   Some (2 ^ 70); Some (- 2 ^ 1023); Some (10 ^ 400); Some (- 10 ^ 400)]
  = ["NaN"; "30"; "-10"; "9007199254740992"; "18446744073709552000"; "1e+21";
     "1.1805916207174113e+21"; "-8.98846567431158e+307"; "Infinity"; "-Infinity"].
Proof. vm_compute. reflexivity. Qed.

Lemma toString_small (z : Z) : Z.abs z < 2 ^ 53 -> JS.toString (Some z) = JS.showZ z.
Proof.
  intros Hz. unfold JS.toString, JS.toDouble.
  apply Z.ltb_lt in Hz. rewrite Hz. cbv zeta. by rewrite Hz.
Qed.

Lemma cachedOrResolve_spawned buffer ttl videoId q (w : World UrlInfo) :
  spawned (snd (cachedOrResolve buffer ttl videoId q w)) = spawned w.
Proof.
  unfold cachedOrResolve. unfold bind at 1.
  destruct (cacheGet_effect (videoId +:+ "_" +:+ q) w) as (_ & _ & _ & Hs & _ & o & Ho & Hl).
  destruct (cacheGet (videoId +:+ "_" +:+ q) w) as [[o'|e] w1]; cbn [fst snd] in *; [|done].
  injection Ho as ->.
  assert (spawned (snd (resolveUrl ttl videoId q (videoId +:+ "_" +:+ q) w1)) = spawned w) as Hres.
  { unfold resolveUrl, bind. destruct (fetch_effect (watchUrl videoId) w1) as (_ & _ & Hsp & _).
    destruct (fetchYouTubeData (watchUrl videoId) w1) as [[data|e] w2]; cbn [fst snd] in *;
      [destruct (findQualityOrFirst q (formats data))|];
      unfold cacheSet, ret, throw; cbn [snd spawned]; congruence. }
  destruct o as [c|]; [|done].
  unfold isUrlExpired. destruct (u_url c) as [u|]; [|by cbn].
  unfold bind, now, ret. by destruct (isUrlExpiredAt buffer (clock w1) u).
Qed.

(** X11. The server of part_001 refuses a segment number that reads as NaN
    or as a negative number, touching nothing. For a number that reads as
    [i >= 0] and a well-formed identifier it resolves the URL and, when
    that succeeds, answers with the stream of one new process that reads
    from the resolved URL (the argument [undefined] when the format had no
    URL) and seeks to the text JavaScript prints for [10 i], which is the
    product in full as long as it is below [2 ^ 53]. It answers with a
    stream in no other case, and an error leaves no process. *)
Theorem single_segment_start_time (videoId segNum : string) (w : World UrlInfo) :
  (Single.badIndex (JS.parseInt segNum) = true ->
     Single.segment videoId segNum w = (Failure 500 "Invalid segment number", w))
  /\ (forall i videoData w1,
        JS.parseInt segNum = Some i -> 0 <= i -> JS.matchVideoId videoId = true ->
        Single.getVideoUrl videoId "720p" w = (Ok videoData, w1) ->
        fst (Single.segment videoId segNum w)
        = Stream "video/mp2t"
            ["-i"; argString (u_url videoData); "-ss"; JS.toString (Some (i * 10)); "-t"; "10";
             "-c:v"; "copy"; "-c:a"; "copy"; "-f"; "mpegts"; "pipe:"]
        /\ (i * 10 < 2 ^ 53 -> JS.toString (Some (i * 10)) = JS.showZ (i * 10)))
  /\ (forall ct argv, fst (Single.segment videoId segNum w) = Stream ct argv ->
        exists i videoData,
          0 <= i /\ JS.parseInt segNum = Some i
          /\ JS.matchVideoId videoId = true
          /\ fst (Single.getVideoUrl videoId "720p" w) = Ok videoData
          /\ ct = "video/mp2t"
          /\ argv = Single.ffmpegArgs (Some (i * 10)) (argString (u_url videoData))
          /\ spawned (snd (Single.segment videoId segNum w)) = spawned w ++ [argv])
  /\ (forall s e, fst (Single.segment videoId segNum w) = Failure s e ->
        spawned (snd (Single.segment videoId segNum w)) = spawned w).
Proof.
  rewrite single_segment_cases.
  assert (spawned (snd (Single.getVideoUrl videoId "720p" w)) = spawned w) as Hs.
  { unfold Single.getVideoUrl. destruct (JS.matchVideoId videoId); cbn [negb]; [|done].
    apply cachedOrResolve_spawned. }
  destruct (JS.parseInt segNum) as [i|] eqn:Hp; cbn [Single.badIndex].
  2: { split_and!; try done. }
  destruct (i <? 0) eqn:Hi.
  { apply Z.ltb_lt in Hi. split_and!; try done. intros j ? ? [= <-]. lia. }
  apply Z.ltb_ge in Hi. split; [done|].
  destruct (JS.matchVideoId videoId) eqn:Hid; [|by split_and!].
  destruct (Single.getVideoUrl videoId "720p" w) as [[videoData|e] w1];
    cbn [fst snd] in *; [|by split_and!].
  cbv zeta. cbn [fst snd spawnedWith spawned]. split_and!.
  - intros j vd w2 [= <-] _ _ [= <- <-]. split; [reflexivity|].
    intros Hsmall. apply toString_small. lia.
  - intros ct argv [= <- <-]. exists i, videoData. rewrite Hs. by split_and!.
  - done.
Qed.

(** A segment number beyond [2 ^ 53] and a format without URL: the number
    is read as the nearest double, and the process is started on the
    argument [undefined]. *)
Lemma single_segment_extremes :
  JS.parseInt "9007199254740993" = Some 9007199254740992
  /\ fst (Single.segment demoId "9007199254740993" noUrl)
     = Stream "video/mp2t"
         ["-i"; "undefined"; "-ss"; "90071992547409920"; "-t"; "10";
          "-c:v"; "copy"; "-c:a"; "copy"; "-f"; "mpegts"; "pipe:"].
Proof.
  split; [reflexivity|].
  destruct (single_segment_start_time demoId "9007199254740993" noUrl) as (_ & H & _).
  destruct (H 9007199254740992
              {| u_url := None; u_title := "T"; u_duration := Some 125%Q |}
              (snd (Single.getVideoUrl demoId "720p" noUrl))) as [Hrun _];
    [reflexivity | done | reflexivity | | exact Hrun].
  rewrite (surjective_pairing (Single.getVideoUrl demoId "720p" noUrl)) at 1. by f_equal.
Defined.

(** *** The batch server: retries *)

Lemma attempt_step {V} (u : string) (w : World V) :
  fst (Batch.attempt u w) = answerOf w (length (requests w)) u
  /\ requests (snd (Batch.attempt u w)) = requests w ++ [u]
  /\ cache (snd (Batch.attempt u w)) = cache w
  /\ spawned (snd (Batch.attempt u w)) = spawned w
  /\ api (snd (Batch.attempt u w)) = api w
  /\ (forall data, fst (Batch.attempt u w) = Ok data -> title data <> EmptyString).
Proof.
  unfold answerOf, Batch.attempt, bind, axiosGet, throw, ret. cbn [requests length api].
  destruct (api w (length (requests w)) u) as [dt [msg | [d|]]];
    cbn [fst snd fmap option_fmap option_map parsed p_items p_title p_thumbnail]; try done.
  destruct (p_items d), (p_title d) as [[|]|]; cbn [fst snd]; split_and!; try done.
  by intros data [= <-].
Qed.

Lemma answerOf_api {V} (w w' : World V) n u : api w' = api w -> answerOf w' n u = answerOf w n u.
Proof. unfold answerOf. by intros ->. Qed.

Lemma retryLoop_S {V} (u : string) (delay : Z) (rest : nat) (w : World V) :
  Batch.retryLoop u delay (S rest) w
  = match Batch.attempt u w with
    | (Ok data, w1) => (Ok (Some data), w1)
    | (Throw msg, w1) =>
        match rest with
        | O => (Throw ("API request failed: " +:+ msg), w1)
        | S _ => Batch.retryLoop u delay rest
                   (mkWorld (clock w1 + delay) (cache w1) (api w1) (requests w1) (spawned w1))
        end
    end.
Proof.
  cbn [Batch.retryLoop]. unfold tryCatch, bind, ret, throw, Batch.sleep.
  destruct (Batch.attempt u w) as [[data|msg] w1]; [done|]. by destruct rest.
Qed.

Lemma retryLoop_contract {V} (u : string) (delay : Z) (retries : nat) (w : World V) :
  exists k : nat,
    (k <= retries)%nat
    /\ requests (snd (Batch.retryLoop u delay retries w)) = requests w ++ repeat u k
    /\ cache (snd (Batch.retryLoop u delay retries w)) = cache w
    /\ spawned (snd (Batch.retryLoop u delay retries w)) = spawned w
    /\ api (snd (Batch.retryLoop u delay retries w)) = api w
    /\ (fst (Batch.retryLoop u delay retries w) = Ok None <-> retries = 0%nat)
    /\ (retries <> 0%nat -> (1 <= k)%nat)
    /\ (forall j, (j + 1 < k)%nat ->
                  exists m, answerOf w (length (requests w) + j) u = Throw m)
    /\ (forall e, fst (Batch.retryLoop u delay retries w) = Throw e ->
          k = retries
          /\ exists m, e = "API request failed: " +:+ m
                       /\ answerOf w (length (requests w) + (k - 1)) u = Throw m)
    /\ (forall data, fst (Batch.retryLoop u delay retries w) = Ok (Some data) ->
          answerOf w (length (requests w) + (k - 1)) u = Ok data
          /\ title data <> EmptyString).
Proof.
  revert w. induction retries as [|rest IH]; intros w.
  - exists 0%nat. cbn. rewrite app_nil_r. split_and!; try done; intros; lia.
  - rewrite retryLoop_S.
    destruct (attempt_step u w) as (Hans & Hreq & Hc & Hs & Ha & Ht).
    destruct (Batch.attempt u w) as [[data|msg] w1]; cbn [fst snd] in *.
    + exists 1%nat. cbn [fst snd repeat]. rewrite Nat.add_0_r.
      split_and!; try done; try lia; try (intros j Hj; lia).
      intros d [= <-]. split; [done | by apply Ht].
    + destruct rest as [|rest'].
      * exists 1%nat. cbn [fst snd repeat]. rewrite Nat.add_0_r.
        split_and!; try done; try lia; try (intros j Hj; lia).
        intros e [= <-]. split; [done|]. by exists msg.
      * set (w2 := {| clock := clock w1 + delay; cache := cache w1; api := api w1;
                      requests := requests w1; spawned := spawned w1 |}).
        destruct (IH w2) as (k & Hk & Hq & Hcc & Hss & Haa & Hnone & Hpos & Hbefore & Hthrow & Hok).
        specialize (Hpos ltac:(done)).
        assert (length (requests w2) = S (length (requests w))) as Hlen.
        { subst w2. cbn [requests]. rewrite Hreq, length_app. cbn. lia. }
        assert (forall n, answerOf w2 n u = answerOf w n u) as Hsame.
        { intros n. apply answerOf_api. subst w2. by cbn. }
        exists (S k). split_and!.
        -- lia.
        -- rewrite Hq. subst w2. cbn [requests repeat]. rewrite Hreq, <- app_assoc. done.
        -- rewrite Hcc. by subst w2.
        -- rewrite Hss. by subst w2.
        -- rewrite Haa. by subst w2.
        -- rewrite Hnone. split; done.
        -- lia.
        -- intros j Hj. destruct j as [|j].
           ++ exists msg. by rewrite Nat.add_0_r.
           ++ destruct (Hbefore j ltac:(lia)) as (m & Hm). exists m.
              rewrite Hsame, Hlen in Hm. by replace (length (requests w) + S j)%nat
                with (S (length (requests w)) + j)%nat by lia.
        -- intros e He. destruct (Hthrow e He) as (-> & m & -> & Hm).
           split; [done|]. exists m. split; [done|].
           rewrite Hsame, Hlen in Hm.
           by replace (length (requests w) + (S (S rest') - 1))%nat
             with (S (length (requests w)) + (S rest' - 1))%nat by lia.
        -- intros data Hd. destruct (Hok data Hd) as [Hm Ht'].
           split; [|done]. rewrite Hsame, Hlen in Hm.
           by replace (length (requests w) + (S k - 1))%nat
             with (S (length (requests w)) + (k - 1))%nat by lia.
Qed.

(** X12. [fetchYouTubeData] of the batch server calls upstream at least once and
    at most [retries] times, stops at the first well-formed answer and
    returns it, and after [retries] failures throws the last error with the
    prefix; it touches neither the cache nor the processes; with no turn at
    all it returns nothing, and only then. *)
Theorem batch_fetch_retries :
  forall V (u : string) (delay : Z) (retries : nat) (w : World V),
  exists k : nat,
    (k <= retries)%nat
    /\ requests (snd (Batch.fetchYouTubeData u retries delay w)) = requests w ++ repeat u k
    /\ cache (snd (Batch.fetchYouTubeData u retries delay w)) = cache w
    /\ spawned (snd (Batch.fetchYouTubeData u retries delay w)) = spawned w
    /\ (fst (Batch.fetchYouTubeData u retries delay w) = Ok None <-> retries = 0%nat)
    /\ (retries <> 0%nat -> (1 <= k)%nat)
    /\ (forall j, (j + 1 < k)%nat -> exists m, answerOf w (length (requests w) + j) u = Throw m)
    /\ (forall e, fst (Batch.fetchYouTubeData u retries delay w) = Throw e ->
          k = retries
          /\ exists m, e = "API request failed: " +:+ m
                       /\ answerOf w (length (requests w) + (k - 1)) u = Throw m)
    /\ (forall data, fst (Batch.fetchYouTubeData u retries delay w) = Ok (Some data) ->
          answerOf w (length (requests w) + (k - 1)) u = Ok data
          /\ title data <> EmptyString).
Proof.
  intros V u delay retries w. unfold Batch.fetchYouTubeData.
  destruct (retryLoop_contract u delay retries w)
    as (k & H1 & H2 & H3 & H4 & _ & H5 & H6 & H7 & H8 & H9).
  exists k. by split_and!.
Qed.

(** Two failures, then an answer: three calls; an upstream that is down:
    three calls and the prefixed error. *)
Example batch_fetch_flaky :
  requests (snd (Batch.fetchYouTubeData (V := Batch.Info) "u" 3 1000 (fresh 0 flaky))) = ["u"; "u"; "u"]
  /\ clock (snd (Batch.fetchYouTubeData (V := Batch.Info) "u" 3 1000 (fresh 0 flaky))) = 2000
  /\ (exists data, fst (Batch.fetchYouTubeData (V := Batch.Info) "u" 3 1000 (fresh 0 flaky)) = Ok (Some data))
  /\ fst (Batch.fetchYouTubeData (V := Batch.Info) "u" 3 1000 (fresh 0 down))
     = Throw "API request failed: timeout of 10000ms exceeded"
  /\ requests (snd (Batch.fetchYouTubeData (V := Batch.Info) "u" 3 1000 (fresh 0 down))) = ["u"; "u"; "u"].
Proof. vm_compute. split_and!; try done. by eexists. Qed.

(** *** The batch server: the identifier in the URL *)

Lemma takeValue_all (s : string) : NoAmpersand s -> Batch.takeValue s = s.
Proof.
  unfold NoAmpersand. induction s as [|c s IH]; cbn [JS.allChars Batch.takeValue]; [done|].
  intros H. apply andb_prop in H as [Hc Hs]. apply negb_true_iff in Hc. rewrite Hc. by rewrite IH.
Qed.

Lemma takeValue_NoAmpersand (s : string) : NoAmpersand (Batch.takeValue s).
Proof.
  unfold NoAmpersand. induction s as [|c s IH]; cbn [JS.allChars Batch.takeValue]; [done|].
  destruct (Ascii.eqb c "&") eqn:E; [done|]. cbn [JS.allChars]. by rewrite E, IH.
Qed.

Lemma takeValue_split (s : string) :
  exists post, s = Batch.takeValue s +:+ post /\ (post = EmptyString \/ exists r, post = String "&" r).
Proof.
  induction s as [|c s (post & IH & Hp)]; cbn [Batch.takeValue].
  - exists EmptyString. split; [done | by left].
  - destruct (Ascii.eqb_spec c "&") as [->|Hne].
    + exists (String "&" s). split; [done | right; by eexists].
    + exists post. split; [|done]. cbn. congruence.
Qed.

Lemma validId_NoAmpersand (videoId : string) :
  JS.matchVideoId videoId = true -> videoId <> EmptyString /\ NoAmpersand videoId.
Proof.
  unfold JS.matchVideoId, NoAmpersand. intros H. apply andb_prop in H as [Hlen Hall]. split.
  - intros ->. done.
  - clear Hlen. induction videoId as [|c s IH]; cbn [JS.allChars] in *; [done|].
    apply andb_prop in Hall as [Hc Hs]. rewrite IH by done. rewrite andb_true_r.
    destruct c as [[] [] [] [] [] [] [] []]; done.
Qed.

(** X13. The identifier that POST /api/process reads in a URL is never empty and
    has no ampersand; it sits right after the leftmost [?v=] or [&v=] and
    runs to the next ampersand or to the end. Reading the watch URL built
    from an identifier gives the identifier back, for every non-empty
    identifier without ampersand, hence for every well-formed one. *)
Theorem video_param_round_trip :
  (forall s v, Batch.matchVideoParam s = Some v ->
      v <> EmptyString /\ NoAmpersand v
      /\ exists pre c post,
           s = pre +:+ String c ("v=" +:+ v +:+ post)
           /\ Batch.isSeparator c = true
           /\ (post = EmptyString \/ exists r, post = String "&" r))
  /\ (forall videoId, videoId <> EmptyString -> NoAmpersand videoId ->
        Batch.matchVideoParam (watchUrl videoId) = Some videoId)
  /\ (forall videoId, JS.matchVideoId videoId = true ->
        Batch.matchVideoParam (watchUrl videoId) = Some videoId).
Proof.
  assert (forall videoId, videoId <> EmptyString -> NoAmpersand videoId ->
            Batch.matchVideoParam (watchUrl videoId) = Some videoId) as Hround.
  { intros videoId Hne Hna. unfold watchUrl. cbn -[Batch.takeValue].
    rewrite takeValue_all by done. by destruct videoId. }
  split_and!; [|done|].
  - intros s. induction s as [|a s IH]; intros v; cbn [Batch.matchVideoParam].
    + done.
    + destruct (Batch.videoParamHere (String a s)) as [v'|] eqn:E.
      * intros [= ->]. unfold Batch.videoParamHere in E.
        destruct (Batch.isSeparator a) eqn:Ha; [|done].
        destruct (JS.stripPrefix "v=" s) as [value|] eqn:Hs; [|done].
        apply stripPrefix_spec in Hs.
        destruct (takeValue_split value) as (post & Hv & Hp).
        pose proof (takeValue_NoAmpersand value) as Hn.
        destruct (Batch.takeValue value) as [|c r] eqn:Ht; [done|]. injection E as <-.
        split_and!; [done | done |].
        exists EmptyString, a, post. split_and!; [|done..].
        cbn [String.append]. f_equal. rewrite Hs, Hv. done.
      * intros Hm. destruct (IH v Hm) as (Hne & Hn & pre & c & post & -> & Hc & Hp).
        split_and!; [done..|]. exists (String a pre), c, post. by split_and!.
  - intros videoId Hid. destruct (validId_NoAmpersand videoId Hid). by apply Hround.
Qed.

Lemma video_param_demoId :
  demoId <> EmptyString /\ NoAmpersand demoId
  /\ Batch.matchVideoParam (watchUrl demoId) = Some demoId.
Proof.
  split; [done|]. split; [reflexivity|].
  apply (proj1 (proj2 video_param_round_trip)); [done | reflexivity].
Defined.

(** *** The batch server: POST /api/process and GET /api/info *)

Lemma process_cases (convertToHLS : option string -> string -> string -> M Batch.Info string)
      (body : Batch.Body) (w : World Batch.Info) :
  Batch.process convertToHLS body w
  = match Batch.youtubeUrl body with
    | Some (String c r) =>
        match Batch.matchVideoParam (String c r) with
        | None => (Batch.Refused 400 "Invalid YouTube URL", w)
        | Some videoId =>
            match cacheGet videoId w with
            | (Ok (Some cached), w1) =>
                (Batch.Processed videoId (Batch.streamUrl videoId) true cached, w1)
            | (Ok None, w1) =>
                match Batch.fetchYouTubeData (String c r) 3 1000 w1 with
                | (Ok (Some videoData), w2) =>
                    match findQualityOrFirst
                            (match Batch.bodyQuality body with Some q => q | None => "720p" end)
                            (formats videoData) with
                    | None => (Batch.Refused 404 "No suitable video format found", w2)
                    | Some format =>
                        match convertToHLS (url format) videoId
                                (match Batch.bodyQuality body with Some q => q | None => "720p" end) w2 with
                        | (Ok _, w3) =>
                            (Batch.Processed videoId (Batch.streamUrl videoId) false
                               {| Batch.infoTitle := title videoData;
                                  Batch.infoThumbnail := thumbnail videoData;
                                  Batch.infoDuration := duration videoData |},
                             mkWorld (clock w3)
                               (<[videoId := ({| Batch.infoTitle := title videoData;
                                                 Batch.infoThumbnail := thumbnail videoData;
                                                 Batch.infoDuration := duration videoData |},
                                              clock w3 + Batch.stdTTL * 1000)]> (cache w3))
                               (api w3) (requests w3) (spawned w3))
                        | (Throw _, w3) => (Batch.Refused 500 "Internal server error", w3)
                        end
                    end
                | (Ok None, w2) => (Batch.Refused 500 "Internal server error", w2)
                | (Throw _, w2) => (Batch.Refused 500 "Internal server error", w2)
                end
            | (Throw _, w1) => (Batch.Refused 500 "Internal server error", w1)
            end
        end
    | _ => (Batch.Refused 400 "YouTube URL is required", w)
    end.
Proof.
  unfold Batch.process, Batch.route.
  destruct (Batch.youtubeUrl body) as [[|c r]|]; [done| |done].
  destruct (Batch.matchVideoParam (String c r)) as [videoId|]; [|done].
  unfold bind. destruct (cacheGet videoId w) as [[[cached|]|e] w1]; [done| |done].
  destruct (Batch.fetchYouTubeData (String c r) 3 1000 w1) as [[[videoData|]|e] w2]; [|done..].
  destruct (findQualityOrFirst _ (formats videoData)) as [format|]; [|done].
  by destruct (convertToHLS (url format) videoId _ w2) as [[p|e] w3].
Qed.

Lemma info_cases (videoId : string) (w : World Batch.Info) :
  Batch.info videoId w
  = match cacheGet videoId w with
    | (Ok (Some cached), w1) => (Batch.Found cached, w1)
    | (Ok None, w1) => (Batch.Refused 404 "Video info not found", w1)
    | (Throw _, w1) => (Batch.Refused 500 "Internal server error", w1)
    end.
Proof.
  unfold Batch.info, Batch.route, bind.
  by destruct (cacheGet videoId w) as [[[cached|]|e] w1].
Qed.

(** X14. POST /api/process, whatever the conversion does: a missing or empty URL
    and a URL without [v=] are refused with status 400 and no effect; a
    live cache entry is answered as cached with no effect either, so
    without upstream call or conversion; every refusal is one of four
    fixed answers, and a failure of upstream or of the conversion is only
    ever reported as "Internal server error". *)
Theorem process_answers :
  forall (convertToHLS : option string -> string -> string -> M Batch.Info string)
         (body : Batch.Body) (w : World Batch.Info),
    (~ JS.truthy (Batch.youtubeUrl body) = true ->
       Batch.process convertToHLS body w = (Batch.Refused 400 "YouTube URL is required", w))
    /\ (forall u, Batch.youtubeUrl body = Some u -> u <> EmptyString ->
                  Batch.matchVideoParam u = None ->
                  Batch.process convertToHLS body w = (Batch.Refused 400 "Invalid YouTube URL", w))
    /\ (forall u videoId cached,
          Batch.youtubeUrl body = Some u -> Batch.matchVideoParam u = Some videoId ->
          Live w videoId cached ->
          Batch.process convertToHLS body w
          = (Batch.Processed videoId ("/stream/" +:+ videoId +:+ "/master.m3u8") true cached, w))
    /\ (forall s e, fst (Batch.process convertToHLS body w) = Batch.Refused s e ->
          (s = 400 /\ e = "YouTube URL is required")
          \/ (s = 400 /\ e = "Invalid YouTube URL")
          \/ (s = 404 /\ e = "No suitable video format found")
          \/ (s = 500 /\ e = "Internal server error"))
    /\ (forall info, fst (Batch.process convertToHLS body w) <> Batch.Found info).
Proof.
  intros convertToHLS body w. rewrite process_cases.
  destruct (Batch.youtubeUrl body) as [[|c r]|] eqn:Hu; cbn [JS.truthy].
  - split_and!.
    + done.
    + by intros u [= <-] Hne.
    + intros u videoId cached [= <-] Hm. done.
    + intros s e [= <- <-]. by left.
    + done.
  - split_and!.
    + done.
    + intros u [= <-] _ ->. done.
    + intros u videoId cached [= <-] -> Hlive. by rewrite (cacheGet_live _ _ _ Hlive).
    + destruct (Batch.matchVideoParam (String c r)) as [videoId|];
        [|intros s e [= <- <-]; right; by left].
      destruct (cacheGet videoId w) as [[[cached|]|e] w1]; [done | | intros s e' [= <- <-]; by do 3 right].
      destruct (Batch.fetchYouTubeData (String c r) 3 1000 w1) as [[[videoData|]|e] w2];
        [ | intros s e' [= <- <-]; by do 3 right..].
      destruct (findQualityOrFirst _ (formats videoData)) as [format|];
        [|intros s e [= <- <-]; do 2 right; by left].
      destruct (convertToHLS (url format) videoId _ w2) as [[p|e] w3];
        [done | intros s e' [= <- <-]; by do 3 right].
    + destruct (Batch.matchVideoParam (String c r)) as [videoId|]; [|done].
      destruct (cacheGet videoId w) as [[[cached|]|e] w1]; [done | | done].
      destruct (Batch.fetchYouTubeData (String c r) 3 1000 w1) as [[[videoData|]|e] w2]; [|done..].
      destruct (findQualityOrFirst _ (formats videoData)) as [format|]; [|done].
      by destruct (convertToHLS (url format) videoId _ w2) as [[p|e] w3].
  - split_and!; [done | done | done | intros s e [= <- <-]; by left | done].
Qed.

(** X15. Once POST /api/process has converted a video, its title, thumbnail and
    duration are cached for 24 hours under the identifier read in the URL:
    until then GET /api/info answers with them and a repeated POST is
    answered as cached, both without any effect. *)
Theorem process_then_info
        (convertToHLS : option string -> string -> string -> M Batch.Info string)
        (body : Batch.Body) (w w' : World Batch.Info) (videoId s : string) (i : Batch.Info) :
  Batch.process convertToHLS body w = (Batch.Processed videoId s false i, w') ->
  cache w' !! videoId = Some (i, clock w' + 86400 * 1000)
  /\ (exists u, Batch.youtubeUrl body = Some u /\ Batch.matchVideoParam u = Some videoId)
  /\ forall w2 : World Batch.Info,
       cache w2 !! videoId = Some (i, clock w' + 86400 * 1000) ->
       clock w2 <= clock w' + 86400 * 1000 ->
       Batch.info videoId w2 = (Batch.Found i, w2)
       /\ Batch.process convertToHLS body w2 = (Batch.Processed videoId s true i, w2).
Proof.
  rewrite process_cases.
  destruct (Batch.youtubeUrl body) as [[|c r]|] eqn:Hu; [done| |done].
  destruct (Batch.matchVideoParam (String c r)) as [v|] eqn:Hm; [|done].
  destruct (cacheGet v w) as [[[cached|]|e] w1]; [done| |done].
  destruct (Batch.fetchYouTubeData (String c r) 3 1000 w1) as [[[videoData|]|e] w2]; [|done..].
  destruct (findQualityOrFirst _ (formats videoData)) as [format|]; [|done].
  destruct (convertToHLS (url format) v _ w2) as [[p|e] w3]; [|done].
  intros [= <- <- <- <-]. cbn [cache clock]. split_and!.
  - by rewrite lookup_insert_eq.
  - by exists (String c r).
  - intros w4 Hk Hc.
    assert (Live w4 v {| Batch.infoTitle := title videoData;
                         Batch.infoThumbnail := thumbnail videoData;
                         Batch.infoDuration := duration videoData |}) as Hlive.
    { eexists. split; [exact Hk|]. by right. }
    split.
    + by rewrite info_cases, (cacheGet_live _ _ _ Hlive).
    + by rewrite process_cases, Hu, Hm, (cacheGet_live _ _ _ Hlive).
Qed.

Lemma process_then_info_scenario :
  Batch.process convertOk {| Batch.youtubeUrl := Some (watchUrl demoId); Batch.bodyQuality := None |}
                (fresh 0 flaky)
  = (Batch.Processed demoId (Batch.streamUrl demoId) false
       {| Batch.infoTitle := "T"; Batch.infoThumbnail := None; Batch.infoDuration := Some 125%Q |},
     snd (Batch.process convertOk
            {| Batch.youtubeUrl := Some (watchUrl demoId); Batch.bodyQuality := None |}
            (fresh 0 flaky)))
  /\ forall w2 : World Batch.Info,
       cache w2 !! demoId
       = Some ({| Batch.infoTitle := "T"; Batch.infoThumbnail := None; Batch.infoDuration := Some 125%Q |},
               clock (snd (Batch.process convertOk
                             {| Batch.youtubeUrl := Some (watchUrl demoId); Batch.bodyQuality := None |}
                             (fresh 0 flaky))) + 86400 * 1000) ->
       clock w2 <= clock (snd (Batch.process convertOk
                                 {| Batch.youtubeUrl := Some (watchUrl demoId); Batch.bodyQuality := None |}
                                 (fresh 0 flaky))) + 86400 * 1000 ->
       Batch.info demoId w2
       = (Batch.Found {| Batch.infoTitle := "T"; Batch.infoThumbnail := None;
                         Batch.infoDuration := Some 125%Q |}, w2)
       /\ Batch.process convertOk
            {| Batch.youtubeUrl := Some (watchUrl demoId); Batch.bodyQuality := None |} w2
          = (Batch.Processed demoId (Batch.streamUrl demoId) true
               {| Batch.infoTitle := "T"; Batch.infoThumbnail := None;
                  Batch.infoDuration := Some 125%Q |}, w2).
Proof.
  assert (Batch.process convertOk
            {| Batch.youtubeUrl := Some (watchUrl demoId); Batch.bodyQuality := None |} (fresh 0 flaky)
          = (Batch.Processed demoId (Batch.streamUrl demoId) false
               {| Batch.infoTitle := "T"; Batch.infoThumbnail := None; Batch.infoDuration := Some 125%Q |},
             snd (Batch.process convertOk
                    {| Batch.youtubeUrl := Some (watchUrl demoId); Batch.bodyQuality := None |}
                    (fresh 0 flaky)))) as Hrun.
  { rewrite (surjective_pairing (Batch.process _ _ _)) at 1. f_equal. }
  split; [exact Hrun|].
  exact (proj2 (proj2 (process_then_info convertOk _ _ _ _ _ _ Hrun))).
Defined.

(** The failure of the conversion, like that of upstream, is answered with
    the same words, and nothing is cached. *)
Example process_failures_are_masked :
  fst (Batch.process convertFails
         {| Batch.youtubeUrl := Some (watchUrl demoId); Batch.bodyQuality := None |} (fresh 0 flaky))
  = Batch.Refused 500 "Internal server error"
  /\ fst (Batch.process convertOk
            {| Batch.youtubeUrl := Some (watchUrl demoId); Batch.bodyQuality := None |} (fresh 0 down))
     = Batch.Refused 500 "Internal server error"
  /\ fst (Batch.info demoId
            (snd (Batch.process convertFails
                    {| Batch.youtubeUrl := Some (watchUrl demoId); Batch.bodyQuality := None |}
                    (fresh 0 flaky))))
     = Batch.Refused 404 "Video info not found".
Proof. vm_compute. by split_and!. Qed.

(** *** What the master playlist advertises *)

Lemma Contains_refl (s : string) : Contains s s.
Proof. exists EmptyString, EmptyString. cbn. by rewrite append_nil_r. Qed.

Lemma Contains_app_l (a b q : string) : Contains a q -> Contains (a +:+ b) q.
Proof.
  intros (pre & post & ->). exists pre, (post +:+ b). by rewrite !append_assoc.
Qed.

Lemma Contains_app_r (a b q : string) : Contains b q -> Contains (a +:+ b) q.
Proof.
  intros (pre & post & ->). exists (a +:+ pre), post. by rewrite !append_assoc.
Qed.

Lemma Contains_joinAll (l : list string) (x q : string) :
  In x l -> Contains x q -> Contains (joinAll l) q.
Proof.
  induction l as [|y l IH]; [done|]. intros [->|Hin] Hq; cbn [joinAll fold_right].
  - by apply Contains_app_l.
  - apply Contains_app_r. by apply IH.
Qed.

(** X16. Every variant the master playlist lists is one the variant endpoint
    serves, from the same resolved formats: the master playlist contains
    the URI of [q] whenever [q] is one of the four levels and some combined
    format matches it, and the variant playlist for [q] is then answered
    with its segments; a level that is not offered is not answered. *)
Theorem master_lists_served_variants
        (resolver : string -> M VideoData VideoData) (videoId : string)
        (w w' : World VideoData) (data : VideoData) :
  resolver videoId w = (Ok data, w') ->
  fst (masterPlaylist resolver videoId w) = Send mpegurl (masterManifest videoId (formats data))
  /\ (forall q, In q videoQualities -> offered (formats data) q = true ->
        Contains (masterManifest videoId (formats data)) ("/stream/" +:+ videoId +:+ "/" +:+ q +:+ ".m3u8")
        /\ fst (variantPlaylist resolver videoId q w)
           = Send mpegurl (playlist (videoSegmentUri videoId q) (duration data)))
  /\ (forall q, offered (formats data) q = false ->
        fst (variantPlaylist resolver videoId q w) = Failure 500 "Format not available").
Proof.
  intros Hr. split_and!.
  - unfold masterPlaylist, handler, bind. by rewrite Hr.
  - intros q Hq Hoff. split.
    + unfold masterManifest. rewrite master_fold. apply Contains_app_r.
      apply Contains_joinAll with (x := variantEntry videoId q).
      * apply in_map, filter_In. by split.
      * unfold variantEntry. apply Contains_app_r.
        exists EmptyString, nl. rewrite !append_assoc. reflexivity.
    + unfold variantPlaylist, handler, bind, offered in *. rewrite Hr.
      by destruct (findQuality q (formats data)).
  - intros q Hoff. unfold variantPlaylist, handler, bind, offered in *. rewrite Hr.
    by destruct (findQuality q (formats data)).
Qed.

Lemma master_lists_served_variants_scenario :
  Index.getVideoFormats demoId false scenario
  = (Ok {| title := "T"; thumbnail := None; duration := Some 125%Q; formats := [fmt va "720p" farUrl] |},
     snd (Index.getVideoFormats demoId false scenario))
  /\ Contains (masterManifest demoId [fmt va "720p" farUrl]) ("/stream/" +:+ demoId +:+ "/720p.m3u8")
  /\ fst (Index.variant demoId "720p" scenario)
     = Send mpegurl (playlist (videoSegmentUri demoId "720p") (Some 125%Q)).
Proof.
  assert (Index.getVideoFormats demoId false scenario
          = (Ok {| title := "T"; thumbnail := None; duration := Some 125%Q;
                   formats := [fmt va "720p" farUrl] |},
             snd (Index.getVideoFormats demoId false scenario))) as Hrun.
  { rewrite (surjective_pairing (Index.getVideoFormats _ _ _)) at 1. by f_equal. }
  split; [exact Hrun|].
  destruct (master_lists_served_variants (fun v => Index.getVideoFormats v false) demoId _ _ _ Hrun)
    as (_ & H & _).
  apply (H "720p"); [cbn; tauto | reflexivity].
Defined.

(** *** Identifiers, once more *)

Lemma validating_servers_reject_bad_id :
  JS.matchVideoId "bad id!" = false
  /\ (forall force (w : World VideoData),
         Index.getVideoFormats "bad id!" force w = (Throw "Invalid YouTube video ID", w))
  /\ (forall w : World UrlInfo, Single.info "bad id!" w = (Failure 500 "Invalid YouTube video ID", w)).
Proof.
  split; [reflexivity|].
  destruct (validating_servers_reject "bad id!" eq_refl)
    as (H1 & _ & _ & _ & _ & _ & _ & _ & _ & _ & _ & _ & _ & _ & H15 & _).
  split; [exact H1 | exact H15].
Defined.

(** *** Signals *)

Lemma kill_proc r sig : Lifecycle.proc (Lifecycle.kill r sig) = Lifecycle.proc r.
Proof. unfold Lifecycle.kill. by destruct (Lifecycle.proc r) eqn:E. Qed.

Lemma fold_kill_proc sigs r : Lifecycle.proc (fold_left Lifecycle.kill sigs r) = Lifecycle.proc r.
Proof. revert r. induction sigs as [|x sigs IH]; intros r; cbn; [done|]. by rewrite IH, kill_proc. Qed.

Lemma step_proc_kept sv r e :
  Lifecycle.proc r <> Lifecycle.NotSpawned -> Lifecycle.proc (Lifecycle.step sv r e) <> Lifecycle.NotSpawned.
Proof.
  intros Hp. destruct e as [[|] expired | [|] | | ]; cbn [Lifecycle.step].
  - destruct (Lifecycle.stage r); try done. by destruct (expired && Lifecycle.refreshes sv).
  - by destruct (Lifecycle.stage r).
  - by destruct (Lifecycle.stage r).
  - by destruct (Lifecycle.stage r).
  - unfold Lifecycle.emitClose. destruct (Lifecycle.closed r); [done|]. by rewrite fold_kill_proc.
  - destruct (Lifecycle.proc r) eqn:E; cbn; rewrite ?E; done.
Qed.

Lemma step_Quiet sv r e :
  Lifecycle.Inv sv r -> QuietUntilClose sv r -> QuietUntilClose sv (Lifecycle.step sv r e).
Proof.
  intros HI [Hsig Hcl]. pose proof HI as (H1 & H2 & H3).
  destruct (Lifecycle.closed r) eqn:Hc.
  - destruct (LifecycleFacts.step_closed sv r e Hc) as [Hc' Hs']. unfold QuietUntilClose.
    rewrite Hs', Hc'. split; [done|]. intros Hne. split; [done|].
    apply step_proc_kept. by apply Hcl.
  - specialize (H3 eq_refl). destruct e as [[|] expired | [|] | | ]; cbn [Lifecycle.step].
    + destruct (Lifecycle.stage r); try (by split; [left|]).
      all: destruct (expired && Lifecycle.refreshes sv);
        unfold QuietUntilClose, Lifecycle.setStage, Lifecycle.spawnAndListen; cbn;
        rewrite ?H3; by split; [left|].
    + destruct (Lifecycle.stage r); try (by split; [left|]).
      all: unfold QuietUntilClose, Lifecycle.setStage; cbn; rewrite ?H3; by split; [left|].
    + destruct (Lifecycle.stage r); try (by split; [left|]).
      all: unfold QuietUntilClose, Lifecycle.spawnAndListen; cbn; rewrite ?H3; by split; [left|].
    + destruct (Lifecycle.stage r); try (by split; [left|]).
      all: unfold QuietUntilClose, Lifecycle.setStage; cbn; rewrite ?H3; by split; [left|].
    + destruct (LifecycleFacts.spawned_or_not r) as [Hs|Hs].
      * rewrite (LifecycleFacts.emitClose_spawned sv r HI Hs Hc). unfold QuietUntilClose; cbn.
        destruct (Lifecycle.proc r) eqn:Hp; (split; [auto|]); try done.
      * rewrite (LifecycleFacts.emitClose_early sv r HI Hs Hc). unfold QuietUntilClose; cbn.
        by split; [left|].
    + destruct (Lifecycle.proc r); unfold QuietUntilClose; cbn; rewrite ?H3; by split; [left|].
Qed.

(** X17. Whatever happens to a request, its process is signalled at most once
    and by the server's own signal, never before the connection closed and
    never unless it was spawned; a request whose resolution failed never
    has a process; and at most one listener of the close is ever registered. *)
Theorem signals_are_sparing (sv : Lifecycle.Server) (es : list Lifecycle.Event) :
  (Lifecycle.signals (Lifecycle.run sv es) = []
   \/ Lifecycle.signals (Lifecycle.run sv es) = [Lifecycle.killSignal sv])
  /\ (Lifecycle.signals (Lifecycle.run sv es) <> [] ->
        Lifecycle.closed (Lifecycle.run sv es) = true
        /\ Lifecycle.proc (Lifecycle.run sv es) <> Lifecycle.NotSpawned)
  /\ (Lifecycle.stage (Lifecycle.run sv es) = Lifecycle.Failed ->
        Lifecycle.proc (Lifecycle.run sv es) = Lifecycle.NotSpawned)
  /\ (length (Lifecycle.onClose (Lifecycle.run sv es)) <= 1)%nat.
Proof.
  assert (QuietUntilClose sv (Lifecycle.run sv es)) as [Hq1 Hq2].
  { induction es as [|e es IH] using rev_ind.
    - split; [by left | done].
    - rewrite LifecycleFacts.run_snoc. apply step_Quiet; [apply LifecycleFacts.run_Inv | done]. }
  pose proof (LifecycleFacts.run_Inv sv es) as (H1 & H2 & H3).
  split_and!; [done | done | |].
  - intros Hf. apply H2. congruence.
  - destruct (LifecycleFacts.spawned_or_not (Lifecycle.run sv es)) as [Hs|Hs].
    + destruct (H1 Hs) as [-> _]. done.
    + destruct (H2 Hs) as [-> _]. cbn. lia.
Qed.

(** *** Segments served from the cache alone *)

Lemma index_resolve_quiet videoId force (w w1 : World VideoData) res :
  Index.getVideoFormats videoId force w = (res, w1) ->
  requests w1 = requests w ->
  clock w1 = clock w /\ spawned w1 = spawned w /\ (force = true -> exists e, res = Throw e).
Proof.
  unfold Index.getVideoFormats. destruct (JS.matchVideoId videoId) eqn:Hid; cbn [negb].
  2: { intros [= <- <-] _. split_and!; [done..|]. intros _. by eexists. }
  destruct force.
  - unfold bind, ret.
    pose proof (fetch_effect (watchUrl videoId) w) as (Hr & _).
    destruct (fetchYouTubeData (watchUrl videoId) w) as [[data|e] w']; unfold cacheSet;
      cbn [fst snd] in Hr; intros [= <- <-] H; cbn [requests] in H; rewrite Hr in H;
      by apply snoc_neq in H.
  - unfold bind, ret.
    destruct (cacheGet_effect (videoId +:+ "_formats") w) as (Hc & _ & Hrq & Hsp & _ & (o & Ho & _)).
    destruct (cacheGet (videoId +:+ "_formats") w) as [[o'|e] w0]; cbn [fst snd] in *; [|done].
    injection Ho as ->. destruct o as [c|].
    + intros [= <- <-] _. split_and!; done.
    + pose proof (fetch_effect (watchUrl videoId) w0) as (Hr & _).
      destruct (fetchYouTubeData (watchUrl videoId) w0) as [[data|e] w']; unfold cacheSet;
        cbn [fst snd] in Hr; intros [= <- <-] H; cbn [requests] in H; rewrite Hr, Hrq in H;
        by apply snoc_neq in H.
Qed.

Lemma someExpired_effect (fs : list Format) (w w1 : World VideoData) res :
  Multi.someExpired fs w = (res, w1) ->
  w1 = w
  /\ (res = Ok false ->
      forall f, In f fs ->
                exists u, url f = Some u /\ isUrlExpiredAt Multi.buffer (clock w) u = false).
Proof.
  revert res w1. induction fs as [|f fs IH]; intros res w1.
  - intros [= <- <-]. split; [done | intros _ g []].
  - cbn [Multi.someExpired]. unfold bind at 1. unfold isUrlExpired.
    destruct (url f) as [u|] eqn:Hu; [|by intros [= <- <-]].
    unfold bind at 1. unfold now, ret at 1.
    destruct (isUrlExpiredAt Multi.buffer (clock w) u) eqn:He; [by intros [= <- <-]|].
    intros H. destruct (IH _ _ H) as [-> IH2]. split; [done|].
    intros Hf g [<- | Hg]; [by exists u | by apply IH2].
Qed.

Lemma refresh_never_quiet videoId key (w : World VideoData) :
  requests (snd (Multi.refresh videoId key w)) = requests w ++ [watchUrl videoId].
Proof.
  unfold Multi.refresh, bind.
  pose proof (fetch_effect (watchUrl videoId) w) as (Hr & _).
  by destruct (fetchYouTubeData (watchUrl videoId) w) as [[d|e] w'].
Qed.

Lemma multi_resolve_quiet videoId (w w1 : World VideoData) data :
  Multi.getVideoFormats videoId w = (Ok data, w1) ->
  requests w1 = requests w ->
  w1 = w
  /\ Live w (formatsKey videoId) data
  /\ forall f, In f (formats data) ->
               exists u, url f = Some u /\ isUrlExpiredAt Multi.buffer (clock w) u = false.
Proof.
  unfold Multi.getVideoFormats. destruct (JS.matchVideoId videoId) eqn:Hid; cbn [negb]; [|done].
  fold (formatsKey videoId). unfold bind at 1.
  destruct (cacheGet_effect (formatsKey videoId) w) as (Hc & _ & Hrq & _ & _ & (o & Ho & Hlive)).
  destruct (cacheGet (formatsKey videoId) w) as [[o'|e] w0]; cbn [fst snd] in *; [|done].
  injection Ho as ->.
  destruct o as [c|].
  - destruct (Hlive c eq_refl) as [Hl ->]. unfold bind at 1.
    pose proof (someExpired_effect (formats c) w) as Hse.
    destruct (Multi.someExpired (formats c) w) as [[[|]|e] w2]; [| |done];
      destruct (Hse _ _ eq_refl) as [-> Hfresh].
    + intros H Hq. pose proof (refresh_never_quiet videoId (formatsKey videoId) w) as Hn.
      rewrite H in Hn. cbn in Hn. rewrite Hq in Hn. symmetry in Hn. by apply snoc_neq in Hn.
    + intros [= <- <-] _. split_and!; [done..|]. by apply Hfresh.
  - intros H Hq. pose proof (refresh_never_quiet videoId (formatsKey videoId) w0) as Hn.
    rewrite H in Hn. cbn in Hn. rewrite Hq, Hrq in Hn. symmetry in Hn. by apply snoc_neq in Hn.
Qed.


Lemma cachedOrResolve_quiet buffer ttl videoId q (w w1 : World UrlInfo) c :
  cachedOrResolve buffer ttl videoId q w = (Ok c, w1) ->
  requests w1 = requests w ->
  w1 = w
  /\ Live w (videoId +:+ "_" +:+ q) c
  /\ exists u, u_url c = Some u /\ isUrlExpiredAt buffer (clock w) u = false.
Proof.
  unfold cachedOrResolve. unfold bind at 1.
  destruct (cacheGet_effect (videoId +:+ "_" +:+ q) w) as (Hc & _ & Hrq & _ & _ & (o & Ho & Hlive)).
  destruct (cacheGet (videoId +:+ "_" +:+ q) w) as [[o'|e] w0]; cbn [fst snd] in *; [|done].
  injection Ho as ->.
  destruct o as [c'|].
  - destruct (Hlive c' eq_refl) as [Hl ->].
    unfold isUrlExpired. destruct (u_url c') as [u|] eqn:Hu; [|done].
    unfold bind at 1. unfold bind at 1. unfold now, ret at 1. cbv beta iota.
    destruct (isUrlExpiredAt buffer (clock w) u) eqn:He.
    + intros H Hq. pose proof (resolveUrl_never_quiet ttl videoId q (videoId +:+ "_" +:+ q) w) as Hn.
      rewrite H in Hn. cbn in Hn. rewrite Hq in Hn. symmetry in Hn. by apply snoc_neq in Hn.
    + intros [= <- <-] _. split_and!; [done..|]. by exists u.
  - intros H Hq. pose proof (resolveUrl_never_quiet ttl videoId q (videoId +:+ "_" +:+ q) w0) as Hn.
    rewrite H in Hn. cbn in Hn. rewrite Hq, Hrq in Hn. symmetry in Hn. by apply snoc_neq in Hn.
Qed.

Lemma index_stream_quiet (sel : list Format -> option Format) (msg : string)
      videoId start isAudio (w : World VideoData) :
  ServedFresh Index.buffer (fun u => Index.ffmpegArgs start segmentDuration u isAudio) w
    (handler (let* data := Index.getVideoFormats videoId false in
              match sel (formats data) with
              | None => throw msg
              | Some format => Index.runFFmpeg videoId format start segmentDuration isAudio
              end) w).
Proof.
  intros ct argv. unfold handler, bind.
  pose proof (index_resolve_effect videoId false w) as (_ & Hr1 & _).
  pose proof (index_resolve_quiet videoId false w) as Hq1.
  destruct (Index.getVideoFormats videoId false w) as [[data|e] w1]; [|done].
  cbn [fst snd] in Hr1. specialize (Hq1 _ _ eq_refl).
  destruct (sel (formats data)) as [format|]; [|done].
  rewrite runFFmpeg_cases.
  destruct (url format) as [u|]; [|done].
  destruct (isUrlExpiredAt Index.buffer (clock w1) u) eqn:He.
  - pose proof (index_resolve_effect videoId true w1) as (_ & Hr2 & _).
    pose proof (index_resolve_quiet videoId true w1) as Hq2.
    destruct (Index.getVideoFormats videoId true w1) as [[refreshed|e] w2]; [|done].
    cbn [fst snd] in Hr2. specialize (Hq2 _ _ eq_refl).
    cbv zeta. cbn [fst snd spawnedWith requests]. intros _ Hq. exfalso.
    destruct Hr2 as [Hr2 | Hr2].
    + destruct (Hq2 Hr2) as (_ & _ & Hthrow). by destruct (Hthrow eq_refl).
    + rewrite Hq in Hr2. apply (f_equal length) in Hr2.
      destruct Hr1 as [Hr1 | Hr1]; rewrite Hr1 in Hr2; rewrite !length_app in Hr2; cbn in Hr2; lia.
  - cbn [fst snd spawnedWith requests spawned]. intros [= <- <-] Hq.
    destruct (Hq1 Hq) as (Hc & Hs & _).
    exists u. rewrite <- Hc, Hs. done.
Qed.

Lemma multi_stream_quiet (sel : list Format -> option Format) (msg : string)
      videoId start isAudio (w : World VideoData) :
  (forall fs f, sel fs = Some f -> In f fs) ->
  ServedFresh Multi.buffer (fun u => Multi.ffmpegArgs start segmentDuration u isAudio) w
    (handler (let* data := Multi.getVideoFormats videoId in
              match sel (formats data) with
              | None => throw msg
              | Some format => Multi.runFFmpeg (url format) start segmentDuration isAudio
              end) w).
Proof.
  intros Hsel ct argv. unfold handler, bind.
  pose proof (multi_resolve_quiet videoId w) as Hq1.
  destruct (Multi.getVideoFormats videoId w) as [[data|e] w1]; [|done].
  specialize (Hq1 _ _ eq_refl).
  destruct (sel (formats data)) as [format|] eqn:Hf; [|done].
  unfold Multi.runFFmpeg, bind, spawn, ret.
  cbn [fst snd requests spawned]. intros [= <- <-] Hq.
  destruct (Hq1 Hq) as (-> & _ & Hfresh).
  destruct (Hfresh format (Hsel _ _ Hf)) as (u & Hu & He).
  exists u. rewrite Hu. cbn [argString]. by destruct isAudio.
Qed.

Lemma single_stream_quiet buffer ttl (args : string -> list string) videoId (w : World UrlInfo) :
  ServedFresh buffer args w
    (handler (let* videoData := cachedOrResolve buffer ttl videoId "720p" in
              let input := argString (u_url videoData) in
              spawn (args input) ;;
              ret (Stream "video/mp2t" (args input))) w).
Proof.
  intros ct argv. unfold handler, bind.
  pose proof (cachedOrResolve_quiet buffer ttl videoId "720p" w) as Hq1.
  destruct (cachedOrResolve buffer ttl videoId "720p" w) as [[c|e] w1]; [|done].
  specialize (Hq1 _ _ eq_refl).
  unfold spawn, ret.
  cbn [fst snd requests spawned]. intros [= <- <-] Hq.
  destruct (Hq1 Hq) as (-> & _ & (u & Hu & He)).
  exists u. rewrite Hu. by cbn [argString].
Qed.

(** X18. Whichever server answers, a segment that is streamed without an
    upstream call during the request is read from a URL that is not
    expired, by the server's own buffer, at the time of the request, and
    by the one process the request has spawned. *)
Theorem quiet_segments_use_fresh_urls :
  (forall videoId segNum q (w : World VideoData),
      ServedFresh Index.buffer
        (fun u => Index.ffmpegArgs (startTimeOf (JS.parseInt segNum)) segmentDuration u false)
        w (Index.videoSegment videoId segNum q w))
  /\ (forall videoId segNum (w : World VideoData),
      ServedFresh Index.buffer
        (fun u => Index.ffmpegArgs (startTimeOf (JS.parseInt segNum)) segmentDuration u true)
        w (Index.audioSegment videoId segNum w))
  /\ (forall videoId segNum q (w : World VideoData),
      ServedFresh Multi.buffer
        (fun u => Multi.ffmpegArgs (startTimeOf (JS.parseInt segNum)) segmentDuration u false)
        w (Multi.videoSegment videoId segNum q w))
  /\ (forall videoId segNum (w : World VideoData),
      ServedFresh Multi.buffer
        (fun u => Multi.ffmpegArgs (startTimeOf (JS.parseInt segNum)) segmentDuration u true)
        w (Multi.audioSegment videoId segNum w))
  /\ (forall videoId segNum (w : World UrlInfo),
      ServedFresh Single.buffer (Single.ffmpegArgs (startTimeOf (JS.parseInt segNum)))
        w (Single.segment videoId segNum w))
  /\ (forall videoId segNum (w : World UrlInfo),
      ServedFresh Legacy.buffer (Legacy.ffmpegArgs (startTimeOf (JS.parseInt segNum)))
        w (Legacy.segment videoId segNum w)).
Proof.
  split_and!.
  - intros. apply index_stream_quiet.
  - intros. apply index_stream_quiet.
  - intros. apply multi_stream_quiet. intros fs f H. by apply find_some in H as [H _].
  - intros. apply multi_stream_quiet. intros fs f H. by apply find_some in H as [H _].
  - intros videoId segNum w. unfold Single.segment.
    destruct (Single.badIndex (JS.parseInt segNum)); [done|].
    unfold Single.getVideoUrl.
    destruct (JS.matchVideoId videoId); cbn [negb]; [|done].
    apply (single_stream_quiet Single.buffer Single.stdTTL).
  - intros videoId segNum w. unfold Legacy.segment, Legacy.getVideoUrl.
    apply (single_stream_quiet Legacy.buffer Legacy.stdTTL).
Qed.

Lemma quiet_segment_on_part_002 :
  exists u,
    Multi.ffmpegArgs (Some 30) 10 farUrl false = Multi.ffmpegArgs (Some 30) 10 u false
    /\ isUrlExpiredAt Multi.buffer 1000 u = false
    /\ spawned (snd (Multi.videoSegment demoId "3" "720p"
                       (cachedFormats (formatsKey demoId) farUrl 18000000 1000)))
       = [Multi.ffmpegArgs (Some 30) 10 farUrl false].
Proof.
  destruct quiet_segments_use_fresh_urls as (_ & _ & H & _).
  destruct (H demoId "3" "720p" (cachedFormats (formatsKey demoId) farUrl 18000000 1000)
              "video/mp2t" (Multi.ffmpegArgs (Some 30) 10 farUrl false) eq_refl eq_refl)
    as (u & Hu & He & Hs).
  exists u. split; [exact Hu|]. split; [exact He | exact Hs].
Defined.

(** *** One process per stream, one upstream call per request *)

Lemma multi_resolve_effect videoId (w : World VideoData) :
  spawned (snd (Multi.getVideoFormats videoId w)) = spawned w
  /\ (requests (snd (Multi.getVideoFormats videoId w)) = requests w
      \/ requests (snd (Multi.getVideoFormats videoId w)) = requests w ++ [watchUrl videoId]).
Proof.
  assert (forall w1 : World VideoData,
             spawned (snd (Multi.refresh videoId (formatsKey videoId) w1)) = spawned w1) as Hsp.
  { intros w1. unfold Multi.refresh, bind.
    pose proof (fetch_effect (watchUrl videoId) w1) as (_ & _ & Hs & _).
    by destruct (fetchYouTubeData (watchUrl videoId) w1) as [[d|e] w']. }
  unfold Multi.getVideoFormats. destruct (JS.matchVideoId videoId); cbn [negb]; [|by split; [|left]].
  fold (formatsKey videoId). unfold bind.
  destruct (cacheGet_effect (formatsKey videoId) w) as (_ & _ & Hrq & Hs & _ & (o & Ho & Hlive)).
  destruct (cacheGet (formatsKey videoId) w) as [[o'|e] w0]; cbn [fst snd] in *; [|done].
  injection Ho as ->. destruct o as [c|].
  - destruct (Hlive c eq_refl) as [_ ->].
    pose proof (someExpired_effect (formats c) w) as Hse.
    destruct (Multi.someExpired (formats c) w) as [[[|]|e] w2];
      destruct (Hse _ _ eq_refl) as [-> _]; [|by split; [|left]..].
    rewrite Hsp, refresh_never_quiet. by split; [|right].
  - rewrite Hsp, refresh_never_quiet, Hs, Hrq. by split; [|right].
Qed.

Lemma cachedOrResolve_effect buffer ttl videoId q (w : World UrlInfo) :
  spawned (snd (cachedOrResolve buffer ttl videoId q w)) = spawned w
  /\ (requests (snd (cachedOrResolve buffer ttl videoId q w)) = requests w
      \/ requests (snd (cachedOrResolve buffer ttl videoId q w)) = requests w ++ [watchUrl videoId]).
Proof.
  split; [apply cachedOrResolve_spawned|].
  unfold cachedOrResolve. unfold bind at 1 3.
  destruct (cacheGet_effect (videoId +:+ "_" +:+ q) w) as (_ & _ & Hrq & _ & _ & (o & Ho & Hlive)).
  destruct (cacheGet (videoId +:+ "_" +:+ q) w) as [[o'|e] w0]; cbn [fst snd] in *; [|done].
  injection Ho as ->. destruct o as [c|].
  - destruct (Hlive c eq_refl) as [_ ->]. unfold isUrlExpired.
    destruct (u_url c) as [u|]; [|by left].
    unfold bind, now, ret. cbv beta iota. fold (@bind UrlInfo).
    destruct (isUrlExpiredAt buffer (clock w) u); [|by left].
    right. apply resolveUrl_never_quiet.
  - right. rewrite resolveUrl_never_quiet. by rewrite Hrq.
Qed.

Lemma one_call_handler {V A} (resolve : M V A) (k : A -> M V Response) videoId (w : World V) :
  (forall w0, spawned (snd (resolve w0)) = spawned w0
              /\ (requests (snd (resolve w0)) = requests w0
                  \/ requests (snd (resolve w0)) = requests w0 ++ [watchUrl videoId])) ->
  (forall a w1, requests (snd (k a w1)) = requests w1
                /\ ((exists ct argv, fst (k a w1) = Ok (Stream ct argv)
                                     /\ spawned (snd (k a w1)) = spawned w1 ++ [argv])
                    \/ ((forall ct argv, fst (k a w1) <> Ok (Stream ct argv))
                        /\ spawned (snd (k a w1)) = spawned w1))) ->
  SpawnsToStream 1 videoId w (handler (let* a := resolve in k a) w).
Proof.
  intros Hres Hk. unfold SpawnsToStream, handler, bind.
  destruct (Hres w) as [Hs Hr].
  destruct (resolve w) as [[a|e] w1]; cbn [fst snd] in *.
  - destruct (Hk a w1) as [Hq Hout].
    destruct (k a w1) as [[r|e] w2]; cbn [fst snd] in *.
    + split.
      * destruct Hout as [(ct & argv & [= ->] & Hsp) | [Hne Hsp]].
        -- left. exists ct, argv. split; [done | congruence].
        -- right. split; [|congruence]. intros ct argv ->. by apply (Hne ct argv).
      * rewrite Hq. destruct Hr as [-> | ->]; [exists 0%nat | exists 1%nat];
          (split; [lia|]); cbn; by rewrite ?app_nil_r.
    + split.
      * right. split; [done|]. destruct Hout as [(ct & argv & [=] & _) | [_ Hsp]]. congruence.
      * rewrite Hq. destruct Hr as [-> | ->]; [exists 0%nat | exists 1%nat];
          (split; [lia|]); cbn; by rewrite ?app_nil_r.
  - split; [right; by split|].
    destruct Hr as [-> | ->]; [exists 0%nat | exists 1%nat]; (split; [lia|]); cbn; by rewrite ?app_nil_r.
Qed.

Lemma one_call_quiet {V A} (resolve : M V A) (k : A -> M V Response) videoId (w : World V) :
  (forall w0, spawned (snd (resolve w0)) = spawned w0
              /\ (requests (snd (resolve w0)) = requests w0
                  \/ requests (snd (resolve w0)) = requests w0 ++ [watchUrl videoId])) ->
  (forall a w1, snd (k a w1) = w1 /\ forall ct argv, fst (k a w1) <> Ok (Stream ct argv)) ->
  SpawnsToStream 1 videoId w (handler (let* a := resolve in k a) w)
  /\ NoProcess w (handler (let* a := resolve in k a) w).
Proof.
  intros Hres Hk.
  assert (SpawnsToStream 1 videoId w (handler (let* a := resolve in k a) w)) as H.
  { apply one_call_handler; [done|]. intros a w1. destruct (Hk a w1) as [Hw Hne].
    rewrite Hw. split; [done|]. right. by split. }
  split; [done|]. unfold NoProcess, handler, bind in *.
  destruct (Hres w) as [Hs _]. destruct (resolve w) as [[a|e] w1]; cbn [fst snd] in *; [|by split].
  destruct (Hk a w1) as [Hw Hne]. destruct (k a w1) as [[r|e] w2]; cbn [fst snd] in *; subst w2.
  - split; [|done]. intros ct argv ->. by apply (Hne ct argv).
  - by split.
Qed.

Lemma spawn_step {V} (argv : list string) (ct : string) (w1 : World V) :
  requests (snd ((spawn argv ;; ret (Stream ct argv)) w1)) = requests w1
  /\ ((exists ct' argv',
          fst ((spawn argv ;; ret (Stream ct argv)) w1) = Ok (Stream ct' argv')
          /\ spawned (snd ((spawn argv ;; ret (Stream ct argv)) w1)) = spawned w1 ++ [argv'])
      \/ ((forall ct' argv', fst ((spawn argv ;; ret (Stream ct argv)) w1) <> Ok (Stream ct' argv'))
          /\ spawned (snd ((spawn argv ;; ret (Stream ct argv)) w1)) = spawned w1)).
Proof.
  unfold bind, spawn, ret. cbn [fst snd requests spawned].
  split; [done|]. left. by exists ct, argv.
Qed.

Lemma throw_step {V} (msg : string) (w1 : World V) :
  requests (snd (@throw V Response msg w1)) = requests w1
  /\ ((exists ct argv, fst (@throw V Response msg w1) = Ok (Stream ct argv)
                       /\ spawned (snd (@throw V Response msg w1)) = spawned w1 ++ [argv])
      \/ ((forall ct argv, fst (@throw V Response msg w1) <> Ok (Stream ct argv))
          /\ spawned (snd (@throw V Response msg w1)) = spawned w1)).
Proof. split; [done|]. right. by split. Qed.

Lemma refused_outright {V} (msg videoId : string) (w : World V) :
  SpawnsToStream 1 videoId w (handler (throw msg) w) /\ NoProcess w (handler (throw msg) w).
Proof.
  unfold SpawnsToStream, NoProcess, handler, throw. cbn [fst snd].
  split; [|by split]. split; [right; by split|].
  exists 0%nat. split; [lia|]. cbn. by rewrite app_nil_r.
Qed.

Lemma single_resolve_effect videoId q (w : World UrlInfo) :
  spawned (snd (Single.getVideoUrl videoId q w)) = spawned w
  /\ (requests (snd (Single.getVideoUrl videoId q w)) = requests w
      \/ requests (snd (Single.getVideoUrl videoId q w)) = requests w ++ [watchUrl videoId]).
Proof.
  unfold Single.getVideoUrl. destruct (JS.matchVideoId videoId); cbn [negb].
  - apply cachedOrResolve_effect.
  - by split; [|left].
Qed.

(** X19. On part_002 and on the two single-quality servers a request calls
    upstream at most once; a segment request has spawned a process exactly
    when it answers with a stream, and then one process, the one streamed;
    the playlist and info requests never stream and never spawn. *)
Theorem one_call_servers_request_effects :
  (forall videoId segNum q (w : World VideoData),
      SpawnsToStream 1 videoId w (Multi.videoSegment videoId segNum q w)
      /\ SpawnsToStream 1 videoId w (Multi.audioSegment videoId segNum w)
      /\ (SpawnsToStream 1 videoId w (Multi.master videoId w) /\ NoProcess w (Multi.master videoId w))
      /\ (SpawnsToStream 1 videoId w (Multi.variant videoId q w) /\ NoProcess w (Multi.variant videoId q w))
      /\ (SpawnsToStream 1 videoId w (Multi.audio videoId w) /\ NoProcess w (Multi.audio videoId w)))
  /\ (forall videoId segNum (w : World UrlInfo),
      SpawnsToStream 1 videoId w (Single.segment videoId segNum w)
      /\ (SpawnsToStream 1 videoId w (Single.master videoId w) /\ NoProcess w (Single.master videoId w))
      /\ (SpawnsToStream 1 videoId w (Single.info videoId w) /\ NoProcess w (Single.info videoId w)))
  /\ (forall videoId segNum (w : World UrlInfo),
      SpawnsToStream 1 videoId w (Legacy.segment videoId segNum w)
      /\ (SpawnsToStream 1 videoId w (Legacy.master videoId w) /\ NoProcess w (Legacy.master videoId w))
      /\ (SpawnsToStream 1 videoId w (Legacy.info videoId w) /\ NoProcess w (Legacy.info videoId w))).
Proof.
  refine (conj _ (conj _ _)).
  - intros videoId segNum q w. refine (conj _ (conj _ (conj _ (conj _ _)))).
    + apply one_call_handler; [apply multi_resolve_effect|]. intros data w1.
      destruct (findQuality q (formats data));
        [unfold Multi.runFFmpeg; cbv zeta; apply spawn_step | apply throw_step].
    + apply one_call_handler; [apply multi_resolve_effect|]. intros data w1.
      destruct (findAudio (formats data));
        [unfold Multi.runFFmpeg; cbv zeta; apply spawn_step | apply throw_step].
    + apply one_call_quiet; [apply multi_resolve_effect | done].
    + apply one_call_quiet; [apply multi_resolve_effect|]. intros data w1.
      by destruct (findQuality q (formats data)).
    + apply one_call_quiet; [apply multi_resolve_effect|]. intros data w1.
      by destruct (findAudio (formats data)).
  - intros videoId segNum w. refine (conj _ (conj _ _)).
    + unfold Single.segment. destruct (Single.badIndex (JS.parseInt segNum)); [apply refused_outright|].
      destruct (negb (JS.matchVideoId videoId)); [apply refused_outright|].
      apply one_call_handler; [apply single_resolve_effect|]. intros c w1. cbv zeta. apply spawn_step.
    + unfold Single.master. destruct (negb (JS.matchVideoId videoId)); [apply refused_outright|].
      apply one_call_quiet; [apply single_resolve_effect | done].
    + unfold Single.info. destruct (negb (JS.matchVideoId videoId)); [apply refused_outright|].
      apply one_call_quiet; [apply single_resolve_effect | done].
  - intros videoId segNum w. refine (conj _ (conj _ _)).
    + apply one_call_handler; [apply cachedOrResolve_effect|]. intros c w1. cbv zeta. apply spawn_step.
    + apply one_call_quiet; [apply cachedOrResolve_effect | done].
    + apply one_call_quiet; [apply cachedOrResolve_effect | done].
Qed.
